(** * streamlit_app.py: the job client, the chat turn and the S3 listing

    A shallow embedding of the request handlers of [streamlit_app.py]:
    the "Process All Documents" handler and its status section (tab 2),
    the chat turn and the "Clear Chat" handler (tab 3), and
    [parse_s3_uri] / [list_s3_files].

    Python values that come out of [response.json()] and [json.loads] are
    modelled by the type [json]; Python's [None] is [JNull].  A handler is
    a computation in a small state-and-exception monad over a [world]
    holding [st.session_state], the requests sent so far and what was
    shown to the user.  An uncaught Python exception keeps the mutations
    made before it, as in Python. *)

From Stdlib Require Import ZArith QArith List String Ascii Bool Arith Lia.
From Stdlib Require Import DecimalString.
Import ListNotations.
Close Scope Q_scope.
Open Scope string_scope.
Open Scope nat_scope.

(** ** Python values *)

#[local] Set Warnings "-register-all".

Inductive json : Type :=
| JNull
| JBool (b : bool)
| JInt (z : Z)
| JFloat (q : Q)
| JStr (s : string)
| JArr (l : list json)
| JObj (d : list (string * json)).

(** A dict is the list of its items; a key is looked up at its first
    (and, in a real dict, only) item. *)
Definition dict := list (string * json).

Fixpoint dict_get (d : dict) (k : string) : option json :=
  match d with
  | [] => None
  | (k', v) :: d' => if String.eqb k' k then Some v else dict_get d' k
  end.

(** [bool(v)] *)
Definition truthy (v : json) : bool :=
  match v with
  | JNull => false
  | JBool b => b
  | JInt z => negb (z =? 0)%Z
  | JFloat q => negb (Qnum q =? 0)%Z
  | JStr s => negb (String.eqb s "")
  | JArr l => match l with [] => false | _ :: _ => true end
  | JObj d => match d with [] => false | _ :: _ => true end
  end.

(** [v == "lit"] for a string literal *)
Definition eq_str (v : json) (lit : string) : bool :=
  match v with
  | JStr s => String.eqb s lit
  | _ => false
  end.

(** [v is None] *)
Definition is_None (v : json) : bool :=
  match v with
  | JNull => true
  | _ => false
  end.

(** [sub in s] on two strings *)
Fixpoint str_contains (sub s : string) : bool :=
  String.prefix sub s ||
  match s with
  | EmptyString => false
  | String _ s' => str_contains sub s'
  end.

(** ** Session state, requests, user-visible output *)

Inductive role := user | assistant.

Record message := { msg_role : role; content : json }.

(** The keys of [st.session_state] the handlers use (lines 75-86), and
    the transient ["_submit_clicked"] key, absent until first written. *)
Record session := {
  processing : bool;
  kickoff_id : json;
  upload_complete : bool;
  chat_messages : list message;
  chat_id : json;
  _submit_clicked : option bool
}.

Definition initial_session : session :=
  {| processing := false; kickoff_id := JNull; upload_complete := false;
     chat_messages := []; chat_id := JNull; _submit_clicked := None |}.

Inductive ui_msg :=
| ApiRequestFailed                 (* api_request: "API request failed: ..." *)
| KickoffSucceeded (id : json)     (* "Document processing kicked off successfully!" *)
| KickoffFailed                    (* "Failed to kickoff document processing" *)
| InProgress (id : json)           (* "Document processing is in progress." *)
| CurrentState (state : json)      (* "Current State: ..." *)
| Done                             (* "DONE" *)
| StatusFailed                     (* "Failed to retrieve status" *)
| TakingLonger                     (* "Processing is taking longer than expected." *)
| ManualRefreshHint                (* "You can manually refresh the status ..." *)
| NoProcessingYet                  (* "No processing has been started yet." *)
| ParseError                       (* "Error parsing result JSON: ..." *)
| RequestFailedWithState (state : json)  (* "Request failed with state: ..." *)
| TimedOut                         (* "Timed out waiting for response" *)
| NoKickoffId                      (* "Failed to get a kickoff ID from the API" *)
| Received (response : json).      (* "Received: ..." *)

Inductive exn := AttributeError | TypeError | KeyError.

Record world := {
  state : session;
  posted : list json;     (* bodies POSTed to kickoff, oldest first *)
  polled : list json;     (* ids of the GET status/{id} calls, oldest first *)
  shown : list ui_msg     (* messages shown, oldest first *)
}.

Definition initial_world (s : session) : world :=
  {| state := s; posted := []; polled := []; shown := [] |}.

(** What the outside answers during one script run: [None] is a
    [requests.exceptions.RequestException] (connection error, HTTP error
    status, undecodable body), [Some v] the decoded body.  [status_reply n]
    answers the status call made after [n] earlier ones.  [json_loads] is
    Python's [json.loads] on a [str]: [None] is a [JSONDecodeError]. *)
Record env := {
  json_loads : string -> option json;
  kickoff_reply : option json;
  status_reply : nat -> option json
}.

(** ** The handler monad *)

Inductive result (A : Type) :=
| Ok (a : A)
| Raise (e : exn).
Arguments Ok {A} a.
Arguments Raise {A} e.

Definition M (A : Type) := world -> result A * world.

Definition ret {A} (a : A) : M A := fun w => (Ok a, w).

Definition bind {A B} (c : M A) (k : A -> M B) : M B :=
  fun w => match c w with
           | (Ok a, w') => k a w'
           | (Raise e, w') => (Raise e, w')
           end.

Definition raise {A} (e : exn) : M A := fun w => (Raise e, w).

Declare Scope handler_scope.
Delimit Scope handler_scope with handler.
Notation "x <- c ;; k" := (bind c (fun x => k))
  (at level 61, c at next level, right associativity) : handler_scope.
Notation "c ;; k" := (bind c (fun _ => k))
  (at level 61, right associativity) : handler_scope.
Open Scope handler_scope.

Definition gets {A} (f : session -> A) : M A := fun w => (Ok (f (state w)), w).

Definition modify (f : session -> session) : M unit :=
  fun w => (Ok tt, {| state := f (state w); posted := posted w;
                      polled := polled w; shown := shown w |}).

Definition show (m : ui_msg) : M unit :=
  fun w => (Ok tt, {| state := state w; posted := posted w;
                      polled := polled w; shown := shown w ++ [m] |}).

Definition when (b : bool) (c : M unit) : M unit := if b then c else ret tt.

Definition set_processing (b : bool) (s : session) : session :=
  {| processing := b; kickoff_id := kickoff_id s;
     upload_complete := upload_complete s; chat_messages := chat_messages s;
     chat_id := chat_id s; _submit_clicked := _submit_clicked s |}.

Definition set_kickoff_id (v : json) (s : session) : session :=
  {| processing := processing s; kickoff_id := v;
     upload_complete := upload_complete s; chat_messages := chat_messages s;
     chat_id := chat_id s; _submit_clicked := _submit_clicked s |}.

Definition set_chat_messages (l : list message) (s : session) : session :=
  {| processing := processing s; kickoff_id := kickoff_id s;
     upload_complete := upload_complete s; chat_messages := l;
     chat_id := chat_id s; _submit_clicked := _submit_clicked s |}.

Definition append_message (m : message) (s : session) : session :=
  set_chat_messages (chat_messages s ++ [m]) s.

Definition set_chat_id (v : json) (s : session) : session :=
  {| processing := processing s; kickoff_id := kickoff_id s;
     upload_complete := upload_complete s; chat_messages := chat_messages s;
     chat_id := v; _submit_clicked := _submit_clicked s |}.

Definition set_submit_clicked (b : bool) (s : session) : session :=
  {| processing := processing s; kickoff_id := kickoff_id s;
     upload_complete := upload_complete s; chat_messages := chat_messages s;
     chat_id := chat_id s; _submit_clicked := Some b |}.

(** ** Python operations that can raise *)

(** [v.get(k, default)]: only a dict has [get]. *)
Definition py_get (v : json) (k : string) (default : json) : M json :=
  match v with
  | JObj d => ret (match dict_get d k with Some x => x | None => default end)
  | _ => raise AttributeError
  end.

(** [k in v] for a string [k]: key of a dict, element of a list,
    substring of a string; anything else is not iterable. *)
Definition py_in (k : string) (v : json) : M bool :=
  match v with
  | JObj d => ret (match dict_get d k with Some _ => true | None => false end)
  | JArr l => ret (existsb (fun x => eq_str x k) l)
  | JStr s => ret (str_contains k s)
  | _ => raise TypeError
  end.

(** [v[k]] for a string [k] *)
Definition py_index (v : json) (k : string) : M json :=
  match v with
  | JObj d => match dict_get d k with
              | Some x => ret x
              | None => raise KeyError
              end
  | _ => raise TypeError
  end.

(** ** api_request (lines 130-150) *)

(** POST kickoff with body [data]: a [RequestException] is reported and
    turned into [None]. *)
Definition api_request_kickoff (E : env) (data : json) : M json :=
  fun w =>
    let w' := {| state := state w; posted := posted w ++ [data];
                 polled := polled w; shown := shown w |} in
    match kickoff_reply E with
    | Some body => (Ok body, w')
    | None => (Ok JNull, snd (show ApiRequestFailed w'))
    end.

(** GET status/{id} *)
Definition api_request_status (E : env) (id : json) : M json :=
  fun w =>
    let w' := {| state := state w; posted := posted w;
                 polled := polled w ++ [id]; shown := shown w |} in
    match status_reply E (List.length (polled w)) with
    | Some body => (Ok body, w')
    | None => (Ok JNull, snd (show ApiRequestFailed w'))
    end.

(** ** The kickoff test shared by both tabs (lines 335 and 475)

    [kickoff_response and "kickoff_id" in kickoff_response] *)
Definition has_kickoff_id (kickoff_response : json) : M bool :=
  if truthy kickoff_response then py_in "kickoff_id" kickoff_response
  else ret false.

(** ** Tab 2: Process Documents *)

Definition bulk_input_data : json :=
  JObj [("inputs", JObj [("process_files", JBool true);
                         ("override_embeddings", JBool false)])].

(** The "Process All Documents" handler (lines 319-341). *)
Definition process_all_documents (E : env) : M unit :=
  modify (set_processing true) ;;
  modify (set_kickoff_id JNull) ;;
  kickoff_response <- api_request_kickoff E bulk_input_data ;;
  ok <- has_kickoff_id kickoff_response ;;
  if ok : bool then
    kickoff_id <- py_index kickoff_response "kickoff_id" ;;
    modify (set_kickoff_id kickoff_id) ;;
    show (KickoffSucceeded kickoff_id)
  else
    show KickoffFailed ;;
    modify (set_processing false).

(** The "Refresh Status" handler (lines 355-370): one status call. *)
Definition refresh_status (E : env) : M unit :=
  kickoff_id <- gets kickoff_id ;;
  status_data <- api_request_status E kickoff_id ;;
  if truthy status_data then
    current_state <- py_get status_data "state" (JStr "UNKNOWN") ;;
    show (CurrentState current_state) ;;
    when (eq_str current_state "SUCCESS")
         (show Done ;; modify (set_processing false))
  else
    show StatusFailed.

(** The [while not complete and attempts < max_attempts] loop (lines
    380-400).  [complete] is false whenever the guard is evaluated, since
    it is only set just before [break]; [remaining] is
    [max_attempts - attempts], so the guard holds iff it is not zero.
    The loop returns [(complete, attempts)] as they are when it is left. *)
Fixpoint auto_poll_loop (E : env) (remaining attempts : nat) : M (bool * nat) :=
  match remaining with
  | 0 => ret (false, attempts)
  | S remaining' =>
      kickoff_id <- gets kickoff_id ;;
      status_data <- api_request_status E kickoff_id ;;
      if truthy status_data then
        current_state <- py_get status_data "state" (JStr "UNKNOWN") ;;
        show (CurrentState current_state) ;;
        if eq_str current_state "SUCCESS" then
          show Done ;;
          modify (set_processing false) ;;
          ret (true, attempts)                       (* break *)
        else
          auto_poll_loop E remaining' (S attempts)   (* sleep; attempts += 1 *)
      else
        show StatusFailed ;;
        ret (false, attempts)                        (* break *)
  end.

(** The auto-polling section (lines 373-405) for a given budget. *)
Definition auto_poll_with (E : env) (max_attempts : nat) : M unit :=
  r <- auto_poll_loop E max_attempts 0 ;;
  let '(complete, attempts) := r in
  when ((max_attempts <=? attempts) && negb complete)
       (show TakingLonger ;; show ManualRefreshHint).

Definition max_attempts : nat := 30.

Definition auto_poll (E : env) : M unit := auto_poll_with E max_attempts.

(** The status section (lines 347-407). *)
Definition status_section (E : env) (refresh_clicked : bool) : M unit :=
  kickoff_id <- gets kickoff_id ;;
  if truthy kickoff_id then
    show (InProgress kickoff_id) ;;
    when refresh_clicked (refresh_status E) ;;
    processing <- gets processing ;;
    when processing (auto_poll E)
  else
    show NoProcessingYet.

(** One run of the tab-2 script. *)
Definition tab2 (E : env) (process_clicked refresh_clicked : bool) : M unit :=
  when process_clicked (process_all_documents E) ;;
  status_section E refresh_clicked.

(** ** Tab 3: Chat *)

(** Lines 454-468. *)
Definition chat_input_data (chat_id : json) (current_message : string) : json :=
  if is_None chat_id then
    JObj [("inputs", JObj [("current_message", JStr current_message)])]
  else
    JObj [("inputs", JObj [("current_message", JStr current_message);
                           ("id", chat_id)])].

(** The body of the [try] (lines 491-504) once [json.loads] returned
    [result_data]. *)
Definition accept_result (result_data : json) : M unit :=
  response_text <- py_get result_data "response" (JStr "") ;;
  chat_id <- py_get result_data "id" JNull ;;
  when (truthy chat_id) (modify (set_chat_id chat_id)) ;;
  modify (append_message {| msg_role := assistant; content := response_text |}).

(** [json.loads(result_str)]: a [TypeError] unless [result_str] is a
    [str]; [None] stands for the [JSONDecodeError] the handler catches. *)
Definition loads (E : env) (result_str : json) : M (option json) :=
  match result_str with
  | JStr s => ret (json_loads E s)
  | _ => raise TypeError
  end.

(** The [for i in range(max_retries)] loop (lines 485-515); [remaining]
    is [max_retries - i]. *)
Fixpoint chat_poll_loop (E : env) (kickoff_id : json) (max_retries : nat)
         (remaining i : nat) : M unit :=
  match remaining with
  | 0 => ret tt
  | S remaining' =>
      status_response <- api_request_status E kickoff_id ;;
      st <- (if truthy status_response
             then py_get status_response "state" JNull else ret JNull) ;;
      res <- (if truthy status_response && eq_str st "SUCCESS"
              then py_get status_response "result" JNull else ret JNull) ;;
      if truthy status_response && eq_str st "SUCCESS" && truthy res then
        result_str <- py_index status_response "result" ;;
        parsed <- loads E result_str ;;
        match parsed with
        | Some result_data => accept_result result_data          (* break *)
        | None => show ParseError                                (* break *)
        end
      else if truthy status_response
              && (eq_str st "FAILURE" || eq_str st "TIMEOUT") then
        show (RequestFailedWithState st)                         (* break *)
      else if i =? max_retries - 1 then
        show TimedOut ;;
        chat_poll_loop E kickoff_id max_retries remaining' (S i)
      else
        chat_poll_loop E kickoff_id max_retries remaining' (S i) (* sleep *)
  end.

Definition max_retries : nat := 120.

(** Lines 453-519: what follows the append of the user message. *)
Definition chat_exchange_with (E : env) (max_retries : nat)
           (current_message : string) : M unit :=
  chat_id <- gets chat_id ;;
  let input_data := chat_input_data chat_id current_message in
  kickoff_response <- api_request_kickoff E input_data ;;
  ok <- has_kickoff_id kickoff_response ;;
  if ok : bool then
    kickoff_id <- py_index kickoff_response "kickoff_id" ;;
    chat_poll_loop E kickoff_id max_retries max_retries 0
  else
    show NoKickoffId ;;
    when (truthy kickoff_response) (show (Received kickoff_response)).

(** Lines 446-451: reset the flag, append the user's message. *)
Definition chat_prepare (current_message : string) : M unit :=
  modify (set_submit_clicked false) ;;
  modify (append_message {| msg_role := user; content := JStr current_message |}).

(** One chat turn (lines 444-523). *)
Definition chat_turn_with (E : env) (max_retries : nat) (user_input : string)
  : M unit :=
  chat_prepare user_input ;;
  chat_exchange_with E max_retries user_input.

Definition chat_turn (E : env) (user_input : string) : M unit :=
  chat_turn_with E max_retries user_input.

(** The "Clear Chat" handler (lines 526-529). *)
Definition clear_chat : M unit :=
  modify (set_chat_messages []) ;;
  modify (set_chat_id JNull).

(** One run of the tab-3 script (lines 435-529): the turn ends in
    [st.rerun()], so "Clear Chat" is only looked at when no turn ran. *)
Definition tab3 (E : env) (user_input : string)
           (send_clicked clear_clicked : bool) : M unit :=
  when send_clicked (modify (set_submit_clicked true)) ;;
  flag <- gets _submit_clicked ;;
  if send_clicked
     || (negb (String.eqb user_input "")
         && match flag with Some b => b | None => false end)
  then chat_turn E user_input
  else when clear_clicked clear_chat.

(** Run a handler from a session, with empty logs. *)
Definition run {A} (c : M A) (s : session) : result A * world :=
  c (initial_world s).

(** ** S3 utility functions (lines 153-222) *)

(** [s.replace(old, '')] for a non-empty [old]: occurrences are removed
    left to right and do not overlap; [skip] counts the characters of the
    occurrence being removed that are still to be dropped. *)
Fixpoint remove_all (old : string) (skip : nat) (s : string) : string :=
  match s with
  | EmptyString => EmptyString
  | String c s' =>
      match skip with
      | S k => remove_all old k s'
      | 0 => if String.prefix old s
             then remove_all old (String.length old - 1) s'
             else String c (remove_all old 0 s')
      end
  end.

(** [s.split('/', 1)]: the part before the first slash and, when there is
    a slash, the part after it. *)
Fixpoint split_once (s : string) : string * option string :=
  match s with
  | EmptyString => (EmptyString, None)
  | String c s' =>
      if Ascii.eqb c "/" then (EmptyString, Some s')
      else let '(a, b) := split_once s' in (String c a, b)
  end.

Definition parse_s3_uri (s3_uri : string) : string * string :=
  let parts := split_once (remove_all "s3://" 0 s3_uri) in
  let bucket := fst parts in
  let prefix := match snd parts with Some p => p | None => "" end in
  (bucket, prefix).

(** [s.endswith('/')] *)
Fixpoint endswith_slash (s : string) : bool :=
  match s with
  | EmptyString => false
  | String c EmptyString => Ascii.eqb c "/"
  | String _ s' => endswith_slash s'
  end.

(** [key.split('/')[-1]]: what follows the last slash. *)
Fixpoint last_segment (s : string) : string :=
  match s with
  | EmptyString => EmptyString
  | String c s' =>
      if str_contains "/" s then
        (if Ascii.eqb c "/" && negb (str_contains "/" s') then s'
         else last_segment s')
      else s
  end.

Definition str_of_Z (z : Z) : string :=
  DecimalString.NilZero.string_of_int (Z.to_int z).

(** [round(10 * n / d)] to the nearest integer, ties to the even one. *)
Definition tenths (n d : Z) : Z :=
  let q := (10 * n / d)%Z in
  let r := (10 * n mod d)%Z in
  if (2 * r <? d)%Z then q
  else if (d <? 2 * r)%Z then (q + 1)%Z
  else if Z.even q then q else (q + 1)%Z.

(** [f"{n / d:.1f}"] for [d] a power of two and [0 <= n < 2^53]: the
    float division is then exact, and the format rounds the exact value
    to one decimal, ties to even.  From 2^53 on the division rounds the
    size to 53 significant bits first, which this does not model: what is
    proved about the rendering is stated for sizes below 2^53. *)
Definition format_1f (n d : Z) : string :=
  let t := tenths n d in
  str_of_Z (t / 10) ++ "." ++ str_of_Z (t mod 10).

(** Lines 205-210, for sizes below 2^53. *)
Definition size_str_of (file_size : Z) : string :=
  if (file_size <? 1024)%Z then str_of_Z file_size ++ " B"
  else if (file_size <? 1024 * 1024)%Z then format_1f file_size 1024 ++ " KB"
  else format_1f file_size (1024 * 1024) ++ " MB".

Record s3_object := { Key : string; Size : Z }.

Record file_info := {
  name : string;
  uri : string;
  size : Z;
  size_str : string
}.

(** A page of [list_objects_v2]: its ['Contents'], absent from a page
    without objects. *)
Definition page := option (list s3_object).

(** The paginator of the S3 client, by [Bucket] and [Prefix]: the pages
    it yields, or [None] when creating the client or fetching a page
    raises. *)
Definition s3_client := string -> string -> option (list page).

Definition normalize_prefix (prefix : string) : string :=
  if negb (String.eqb prefix "") && negb (endswith_slash prefix)
  then prefix ++ "/" else prefix.

(** The test of line 200. *)
Definition is_file (prefix : string) (obj : s3_object) : bool :=
  negb (String.eqb (Key obj) prefix) && negb (endswith_slash (Key obj)).

Definition file_info_of (bucket : string) (obj : s3_object) : file_info :=
  {| name := last_segment (Key obj);
     uri := "s3://" ++ bucket ++ "/" ++ Key obj;
     size := Size obj;
     size_str := size_str_of (Size obj) |}.

Definition page_files (bucket prefix : string) (p : page) : list file_info :=
  match p with
  | Some contents => map (file_info_of bucket) (filter (is_file prefix) contents)
  | None => []
  end.

Definition list_s3_files (s3 : s3_client) (s3_folder_uri : string)
  : list file_info :=
  let '(bucket, prefix) := parse_s3_uri s3_folder_uri in
  let prefix := normalize_prefix prefix in
  match s3 bucket prefix with
  | Some pages => flat_map (page_files bucket prefix) pages
  | None => []
  end.

(** The listing side of a store holding [objects] in one bucket:
    [list_objects_v2] without a delimiter returns every object whose key
    starts with the prefix, [page_size] (at least one) to a page. *)
Fixpoint chunk (fuel page_size : nat) (l : list s3_object) : list page :=
  match fuel, l with
  | _, [] => []
  | 0, _ => []
  | S fuel', _ => Some (firstn page_size l) :: chunk fuel' page_size (skipn page_size l)
  end.

Definition store_client (bucket_name : string) (objects : list s3_object)
           (page_size : nat) : s3_client :=
  fun bucket prefix =>
    if String.eqb bucket bucket_name then
      let found := filter (fun o => String.prefix prefix (Key o)) objects in
      Some (match found with
            | [] => [None]
            | _ => chunk (List.length found) page_size found
            end)
    else None.

(** ** Saving to S3 and the upload tab (lines 160-172, 224-254, 268-309) *)

(** The S3 account the app talks to: whether [boto3.client] returns a
    client, the one bucket the credentials can reach, and the objects it
    holds, by key and size. *)
Record s3_service := {
  client_available : bool;
  bucket_name : string;
  objects : list s3_object
}.

(** What the S3 functions and the upload tab show. *)
Inductive s3_msg :=
| ErrorCreatingClient                  (* "Error creating S3 client: ..." *)
| ErrorListingFiles                    (* "Error listing files from S3: ..." *)
| ErrorSavingFile                      (* "Error saving file to S3: ..." *)
| UploadSucceeded                      (* "Files successfully uploaded to S3!" *)
| FileLine (name size_str : string)    (* f"{name} - {size_str}" *)
| NoDocumentsFound                     (* "No documents found in S3 bucket." *)
| UploadedHint.                        (* "Documents uploaded successfully. ..." *)

(** A key holds one object: a put replaces the object stored under the
    key, or adds one. *)
Fixpoint store_put (objs : list s3_object) (o : s3_object) : list s3_object :=
  match objs with
  | [] => [o]
  | x :: rest =>
      if String.eqb (Key x) (Key o) then o :: rest else x :: store_put rest o
  end.

(** [s3_client.put_object(Bucket=..., Key=..., Body=...)]: [None] when
    the call raises, which it does for a bucket the client cannot reach
    and for an empty key. *)
Definition put_object (S : s3_service) (Bucket Key_ : string)
           (Body : list Byte.byte) : option s3_service :=
  if String.eqb Bucket (bucket_name S) && negb (String.eqb Key_ "") then
    Some {| client_available := client_available S;
            bucket_name := bucket_name S;
            objects := store_put (objects S)
                         {| Key := Key_; Size := Z.of_nat (List.length Body) |} |}
  else None.

(** The listing side of the service; S3 returns up to 1000 keys a page. *)
Definition service_client (S : s3_service) : s3_client :=
  fun bucket prefix =>
    if client_available S
    then store_client (bucket_name S) (objects S) 1000 bucket prefix
    else None.

(** [get_s3_client] (lines 160-172): the client, or the error shown
    before the exception is raised again. *)
Definition get_s3_client (S : s3_service) : option s3_client * list s3_msg :=
  if client_available S then (Some (service_client S), [])
  else (None, [ErrorCreatingClient]).

(** [list_s3_files] (lines 174-222) with what it shows. *)
Definition list_s3_files_shown (S : s3_service) (s3_folder_uri : string)
  : list file_info * list s3_msg :=
  let '(bucket, prefix) := parse_s3_uri s3_folder_uri in
  match get_s3_client S with
  | (Some s3, _) =>
      let prefix := normalize_prefix prefix in
      match s3 bucket prefix with
      | Some pages => (flat_map (page_files bucket prefix) pages, [])
      | None => ([], [ErrorListingFiles])
      end
  | (None, errors) => ([], (errors ++ [ErrorListingFiles])%list)
  end.

(** [save_to_s3] (lines 224-247): the URI returned, the service after
    the call and what was shown.  [file_content] is the [Body] sent:
    what [getvalue()] gives for an uploaded file. *)
Definition save_to_s3 (S : s3_service) (file_content : list Byte.byte)
           (file_name s3_folder_uri : string)
  : option string * s3_service * list s3_msg :=
  let '(bucket, prefix) := parse_s3_uri s3_folder_uri in
  match get_s3_client S with
  | (Some _, _) =>
      let prefix := normalize_prefix prefix in
      let key := prefix ++ file_name in
      match put_object S bucket key file_content with
      | Some S' => (Some ("s3://" ++ bucket ++ "/" ++ key), S', [])
      | None => (None, S, [ErrorSavingFile])
      end
  | (None, errors) => (None, S, (errors ++ [ErrorSavingFile])%list)
  end.

(** A file of [st.file_uploader]: its [name] and [getvalue()]. *)
Record uploaded_file := {
  file_name : string;
  getvalue : list Byte.byte
}.

(** [save_uploaded_file] (lines 249-254) *)
Definition save_uploaded_file (S : s3_service) (f : option uploaded_file)
           (s3_folder_uri : string)
  : option string * s3_service * list s3_msg :=
  match f with
  | Some uploaded => save_to_s3 S (getvalue uploaded) (file_name uploaded) s3_folder_uri
  | None => (None, S, [])
  end.

Record upload_world := {
  up_state : session;
  up_s3 : s3_service;
  up_shown : list s3_msg
}.

Definition set_upload_complete (b : bool) (s : session) : session :=
  {| processing := processing s; kickoff_id := kickoff_id s;
     upload_complete := b; chat_messages := chat_messages s;
     chat_id := chat_id s; _submit_clicked := _submit_clicked s |}.

(** The [for uploaded_file in uploaded_files] loop (lines 279-280); the
    URIs returned are dropped. *)
Fixpoint save_all (S : s3_service) (uploaded_files : list uploaded_file)
         (S3_URI : string) : s3_service * list s3_msg :=
  match uploaded_files with
  | [] => (S, [])
  | f :: rest =>
      let '(_, S1, shown1) := save_uploaded_file S (Some f) S3_URI in
      let '(S2, shown2) := save_all S1 rest S3_URI in
      (S2, (shown1 ++ shown2)%list)
  end.

(** One run of the tab-1 script (lines 268-309).  The button exists only
    when files are selected; the upload ends in [st.rerun()], which
    leaves the rest of the script to the next run. *)
Definition tab1 (S3_URI : string) (uploaded_files : list uploaded_file)
           (upload_clicked : bool) (w : upload_world) : upload_world :=
  let selected := match uploaded_files with [] => false | _ :: _ => true end in
  if selected && upload_clicked then
    let '(S', errors) := save_all (up_s3 w) uploaded_files S3_URI in
    {| up_state := set_upload_complete true (up_state w);
       up_s3 := S';
       up_shown := (up_shown w ++ errors ++ [UploadSucceeded])%list |}
  else
    let '(s3_files, errors) := list_s3_files_shown (up_s3 w) S3_URI in
    {| up_state := up_state w;
       up_s3 := up_s3 w;
       up_shown :=
         (up_shown w ++ errors
          ++ match s3_files with
             | [] => [NoDocumentsFound]
             | _ :: _ => map (fun f => FileLine (name f) (size_str f)) s3_files
             end
          ++ (if selected then [UploadedHint] else []))%list |}.

(** ** Login (lines 28-59 and 257-263) *)

(** [st.secrets["auth"]] *)
Record secrets := {
  auth_username : string;
  auth_password : string
}.

(** The keys of [st.session_state] the login uses, absent until
    written.  Strings stand for their UTF-8 encoding. *)
Record login_state := {
  username : option string;
  password : option string;
  password_correct : option bool
}.

Inductive login_msg :=
| LoginForm                (* the title and the form of lines 48-54 *)
| IncorrectCredentials.    (* "Username or password incorrect" *)

Definition is_ascii (s : string) : bool :=
  forallb (fun c => nat_of_ascii c <? 128) (list_ascii_of_string s).

(** [hmac.compare_digest(a, b)] on two [str]: a [TypeError] unless both
    are ASCII only. *)
Definition compare_digest (a b : string) : result bool :=
  if is_ascii a && is_ascii b then Ok (String.eqb a b) else Raise TypeError.

Definition reject (st : login_state) : result unit * login_state * list login_msg :=
  (Ok tt,
   {| username := username st; password := password st;
      password_correct := Some false |},
   [IncorrectCredentials]).

(** The [on_click] callback of the form (lines 31-41).  [and] evaluates
    its second operand only when the first is true. *)
Definition password_entered (sec : secrets) (st : login_state)
  : result unit * login_state * list login_msg :=
  match username st with
  | None => (Raise KeyError, st, [])
  | Some u =>
      match compare_digest u (auth_username sec) with
      | Raise e => (Raise e, st, [])
      | Ok false => reject st
      | Ok true =>
          match password st with
          | None => (Raise KeyError, st, [])
          | Some p =>
              match compare_digest p (auth_password sec) with
              | Raise e => (Raise e, st, [])
              | Ok false => reject st
              | Ok true =>
                  (Ok tt,
                   {| username := None; password := None;
                      password_correct := Some true |},
                   [])
              end
          end
      end
  end.

(** [check_password] (lines 28-56) once the callbacks have run: whether
    the script goes on, and the form shown when it does not. *)
Definition check_password (st : login_state) : bool * list login_msg :=
  match password_correct st with
  | Some true => (true, [])
  | _ => (false, [LoginForm])
  end.

(** Submitting the form: the two inputs are in the session state under
    their keys when the callback runs. *)
Definition submit_login (sec : secrets) (u p : string) (st : login_state)
  : result unit * login_state * list login_msg :=
  password_entered sec
    {| username := Some u; password := Some p;
       password_correct := password_correct st |}.

(** The "Logout" button (lines 260-263). *)
Definition logout (st : login_state) : login_state :=
  {| username := username st; password := password st;
     password_correct := Some false |}.

(** ** Kinds of replies, as the spec names them *)

Definition status_body (st : string) : json := JObj [("state", JStr st)].

(** The reply is a non-empty JSON object whose [state] is [st]. *)
Definition has_state (st : string) (r : option json) : bool :=
  match r with
  | Some (JObj d) =>
      match dict_get d "state" with
      | Some v => eq_str v st
      | None => false
      end
  | _ => false
  end.

Definition is_object (r : option json) : bool :=
  match r with
  | Some (JObj (_ :: _)) => true
  | _ => false
  end.

(** A parsed status whose state is none of SUCCESS, FAILURE, TIMEOUT:
    PENDING, RUNNING, UNKNOWN, any other value, or no state at all. *)
Definition non_terminal (r : option json) : bool :=
  is_object r && negb (has_state "SUCCESS" r)
  && negb (has_state "FAILURE" r) && negb (has_state "TIMEOUT" r).

(** The [result] field of a parsed status, [None] when there is none. *)
Definition reply_result (r : option json) : json :=
  match r with
  | Some (JObj d) =>
      match dict_get d "result" with
      | Some v => v
      | None => JNull
      end
  | _ => JNull
  end.

(** SUCCESS with a missing or empty [result]. *)
Definition success_without_result (r : option json) : bool :=
  has_state "SUCCESS" r && negb (truthy (reply_result r)).

(** Replies after which the chat loop goes on to its next attempt: a
    failed call, a falsy body, a non-terminal status, or SUCCESS without
    a result. *)
Definition chat_repolls (r : option json) : bool :=
  match r with
  | None => true
  | Some v => negb (truthy v) || non_terminal r || success_without_result r
  end.

(** Replies after which the bulk loop goes on to its next attempt: a
    non-empty object whose state is not SUCCESS. *)
Definition bulk_repolls (r : option json) : bool :=
  is_object r && negb (has_state "SUCCESS" r).

(** The [kickoff_id] entry of a kickoff reply that is a JSON object. *)
Definition reply_kickoff_id (r : option json) : option json :=
  match r with
  | Some (JObj d) => dict_get d "kickoff_id"
  | _ => None
  end.

(** A kickoff reply lacking a [kickoff_id]: no reply at all, a [null]
    body, or a JSON object without that key. *)
Definition lacks_kickoff_id (r : option json) : bool :=
  match r with
  | None => true
  | Some JNull => true
  | Some (JObj d) => match dict_get d "kickoff_id" with Some _ => false | None => true end
  | Some _ => false
  end.


(** The body [api_request] hands back, and the message it shows. *)
Definition body_of (r : option json) : json :=
  match r with Some v => v | None => JNull end.

Definition note_failed (r : option json) : list ui_msg :=
  match r with Some _ => [] | None => [ApiRequestFailed] end.

(** The world after one status call for [id]. *)
Definition after_call (E : env) (id : json) (w : world) : world :=
  {| state := state w; posted := posted w; polled := polled w ++ [id];
     shown := shown w ++ note_failed (status_reply E (List.length (polled w))) |}.

Fixpoint after_calls (E : env) (id : json) (n : nat) (w : world) : world :=
  match n with
  | 0 => w
  | S n' => after_calls E id n' (after_call E id w)
  end.

(** ** Sample environments *)

(** Stands for [json.loads] on the two texts the samples use: ["{}"] is
    the empty object, ["oops"] is not JSON. *)
Definition sample_loads (s : string) : option json :=
  if String.eqb s "{}" then Some (JObj []) else None.

Definition sample_env (kickoff : option json) (status : nat -> option json) : env :=
  {| json_loads := sample_loads; kickoff_reply := kickoff; status_reply := status |}.

Definition kickoff_k1 : option json := Some (JObj [("kickoff_id", JStr "k1")]).

Definition success_with (result : string) : json :=
  JObj [("state", JStr "SUCCESS"); ("result", JStr result)].

(** A session with a bulk job outstanding. *)
Definition processing_session : session :=
  set_processing true (set_kickoff_id (JStr "k1") initial_session).

(** RUNNING five times, then SUCCESS. *)
Definition running5_then_success (n : nat) : option json :=
  if n <? 5 then Some (status_body "RUNNING") else Some (status_body "SUCCESS").

Definition docs_store : list s3_object :=
  [ {| Key := "docs/"; Size := 0 |};
    {| Key := "docs/a.txt"; Size := 500 |};
    {| Key := "docs/sub/b.txt"; Size := 2048 |} ].

(** Every status call answers FAILURE. *)
Definition always_failure (n : nat) : option json := Some (status_body "FAILURE").

(** Every status call answers RUNNING. *)
Definition always_running (n : nat) : option json := Some (status_body "RUNNING").

(** The first status call fails, the second answers FAILURE. *)
Definition failed_call_then_failure (n : nat) : option json :=
  match n with
  | 0 => None
  | _ => Some (status_body "FAILURE")
  end.

(** Every status call answers SUCCESS with the result text ["{}"]. *)
Definition success_blank (n : nat) : option json := Some (success_with "{}").

(** Every status call answers SUCCESS with a result that is not JSON. *)
Definition success_garbled (n : nat) : option json := Some (success_with "oops").

(** The [id] a kickoff body carries in its [inputs], if any. *)
Definition payload_id (data : json) : option json :=
  match data with
  | JObj d =>
      match dict_get d "inputs" with
      | Some (JObj inputs) => dict_get inputs "id"
      | _ => None
      end
  | _ => None
  end.

(** Successive chat turns, each a script run with its own replies and
    message: the final session and the kickoff bodies sent, in order. *)
Fixpoint chat_turns (turns : list (env * string)) (s : session)
  : session * list json :=
  match turns with
  | [] => (s, [])
  | (E, msg) :: rest =>
      let w := snd (run (chat_turn E msg) s) in
      let '(s', bodies) := chat_turns rest (state w) in
      (s', (posted w ++ bodies)%list)
  end.


(** ** Vocabulary of the proofs *)

Open Scope list_scope.

(** [c] only moves the world along [R]. *)
Definition preserves {A} (R : world -> world -> Prop) (c : M A) : Prop :=
  forall w, R w (snd (c w)).

Inductive verdict :=
| Repoll
| JobFailed (st : json)
| Accepted (result_data : json)
| Unparseable
| Crashed (e : exn).

Definition chat_verdict (E : env) (r : option json) : verdict :=
  if truthy (body_of r) then
    match body_of r with
    | JObj d =>
        let st := match dict_get d "state" with Some x => x | None => JNull end in
        if eq_str st "SUCCESS" && truthy (reply_result r) then
          match reply_result r with
          | JStr s => match json_loads E s with
                      | Some rd => Accepted rd
                      | None => Unparseable
                      end
          | _ => Crashed TypeError
          end
        else if eq_str st "FAILURE" || eq_str st "TIMEOUT" then JobFailed st
        else Repoll
    | _ => Crashed AttributeError
    end
  else Repoll.

(** How an iteration that does not re-poll leaves the loop. *)
Definition finish (v : verdict) : M unit :=
  match v with
  | Repoll => ret tt
  | JobFailed st => show (RequestFailedWithState st)
  | Accepted rd => accept_result rd
  | Unparseable => show ParseError
  | Crashed e => raise e
  end.

(** [status_data.get('state', 'UNKNOWN')] of a parsed status. *)
Definition bulk_state (r : option json) : json :=
  match r with
  | Some (JObj d) =>
      match dict_get d "state" with
      | Some v => v
      | None => JStr "UNKNOWN"
      end
  | _ => JStr "UNKNOWN"
  end.

Inductive bulk_verdict :=
| BulkRepoll
| BulkDone
| BulkFailedCall
| BulkCrashed.

Definition bulk_verdict_of (r : option json) : bulk_verdict :=
  if truthy (body_of r) then
    match body_of r with
    | JObj _ => if eq_str (bulk_state r) "SUCCESS" then BulkDone else BulkRepoll
    | _ => BulkCrashed
    end
  else BulkFailedCall.

(** The world after [n] iterations of the bulk loop that re-poll. *)
Fixpoint bulk_after (E : env) (id : json) (n : nat) (w : world) : world :=
  match n with
  | 0 => w
  | S n' =>
      bulk_after E id n'
        (snd (show (CurrentState (bulk_state (status_reply E (List.length (polled w)))))
                   (after_call E id w)))
  end.

Definition prepared (msg : string) (s : session) : session :=
  append_message {| msg_role := user; content := JStr msg |}
                 (set_submit_clicked false s).

(** The world in which polling starts. *)
Definition polling_starts (E : env) (msg : string) (s : session) : world :=
  {| state := prepared msg s;
     posted := [chat_input_data (chat_id s) msg];
     polled := [];
     shown := [] |}.

Definition user_message (msg : string) : message :=
  {| msg_role := user; content := JStr msg |}.

Definition assistant_message (c : json) : message :=
  {| msg_role := assistant; content := c |}.

(** [result_data.get("response", "")] and [result_data.get("id")] *)
Definition response_of (rd : dict) : json :=
  match dict_get rd "response" with Some x => x | None => JStr "" end.

Definition id_of (rd : dict) : json :=
  match dict_get rd "id" with Some x => x | None => JNull end.

(** A result object that some SUCCESS status carried. *)
Definition accepted_result (E : env) (rd : dict) : Prop :=
  exists n d txt,
    status_reply E n = Some (JObj d)
    /\ dict_get d "state" = Some (JStr "SUCCESS")
    /\ dict_get d "result" = Some (JStr txt)
    /\ json_loads E txt = Some (JObj rd).

(** Two worlds that agree on everything a chat turn reads or writes. *)
Definition same_chat (w1 w2 : world) : Prop :=
  chat_messages (state w1) = chat_messages (state w2)
  /\ chat_id (state w1) = chat_id (state w2)
  /\ _submit_clicked (state w1) = _submit_clicked (state w2)
  /\ posted w1 = posted w2
  /\ polled w1 = polled w2
  /\ shown w1 = shown w2.

(** The session right after the kickoff call of "Process All
    Documents". *)
Definition kicked_off (s : session) : session :=
  set_kickoff_id JNull (set_processing true s).


(** The objects of all the pages, in order. *)
Definition page_contents (pages : list page) : list s3_object :=
  flat_map (fun p : page => match p with Some contents => contents | None => [] end)
           pages.

(** * Properties *)

(** ** Reasoning rules for handlers *)

Lemma api_request_status_eq (E : env) (id : json) (w : world) :
  api_request_status E id w
  = (Ok (body_of (status_reply E (List.length (polled w)))), after_call E id w).
Proof.
  unfold api_request_status, after_call.
  destruct (status_reply E (List.length (polled w))); cbn.
  - now rewrite app_nil_r.
  - reflexivity.
Qed.

Lemma bind_ret {A B} (a : A) (k : A -> M B) w : bind (ret a) k w = k a w.
Proof. reflexivity. Qed.

Lemma bind_gets {A B} (f : session -> A) (k : A -> M B) w :
  bind (gets f) k w = k (f (state w)) w.
Proof. reflexivity. Qed.

Lemma bind_show {B} (m : ui_msg) (k : M B) (w : world) :
  (show m ;; k) w = k (snd (show m w)).
Proof. reflexivity. Qed.

Lemma bind_ok {A B} (c : M A) (k : A -> M B) w a w' :
  c w = (Ok a, w') -> bind c k w = k a w'.
Proof. unfold bind. now intros ->. Qed.

Lemma bind_raise {A B} (c : M A) (k : A -> M B) w e w' :
  c w = (Raise e, w') -> bind c k w = (Raise e, w').
Proof. unfold bind. now intros ->. Qed.

Section Preserves.
Variable R : world -> world -> Prop.
Hypothesis R_refl : forall w, R w w.
Hypothesis R_trans : forall a b c, R a b -> R b c -> R a c.

Lemma preserves_ret {A} (a : A) : preserves R (ret a).
Proof. intro w; apply R_refl. Qed.

Lemma preserves_raise {A} (e : exn) : preserves R (@raise A e).
Proof. intro w; apply R_refl. Qed.





Lemma preserves_py_in k v : preserves R (py_in k v).
Proof. destruct v; cbn; (apply preserves_ret || apply preserves_raise). Qed.

End Preserves.

(** ** One iteration of the chat loop, by what the reply is *)

Lemma chat_poll_loop_step E kid max remaining i w :
  chat_poll_loop E kid max (S remaining) i w =
  match chat_verdict E (status_reply E (List.length (polled w))) with
  | Repoll =>
      if i =? max - 1
      then (show TimedOut ;; chat_poll_loop E kid max remaining (S i)) (after_call E kid w)
      else chat_poll_loop E kid max remaining (S i) (after_call E kid w)
  | v => finish v (after_call E kid w)
  end.
Proof.
  cbn [chat_poll_loop]. unfold bind at 1. rewrite api_request_status_eq.
  unfold chat_verdict, reply_result.
  destruct (status_reply E (List.length (polled w))) as [v|]; cbn [body_of].
  2: { cbn. destruct (i =? max - 1); reflexivity. }
  destruct (truthy v) eqn:Hv.
  2: { cbn. destruct (i =? max - 1); reflexivity. }
  destruct v; try reflexivity.
  cbn [py_get]. unfold bind at 1. cbn [ret].
  set (st := match dict_get d "state" with Some x => x | None => JNull end).
  destruct (eq_str st "SUCCESS") eqn:Hs; cbn [andb].
  - unfold bind at 1. cbn [ret].
    destruct (dict_get d "result") as [res|] eqn:Hr.
    + destruct (truthy res) eqn:Ht.
      * cbn [py_index]. rewrite Hr. unfold bind at 1. cbn [ret].
        destruct res; try reflexivity.
        cbn [loads]. unfold bind at 1. cbn [ret].
        destruct (json_loads E s); reflexivity.
      * destruct st; try discriminate Hs. cbn [eq_str] in *.
        apply String.eqb_eq in Hs. subst s. cbn.
        destruct (i =? max - 1); reflexivity.
    + cbn [truthy]. destruct st; try discriminate Hs. cbn [eq_str] in *.
      apply String.eqb_eq in Hs. subst s. cbn.
      destruct (i =? max - 1); reflexivity.
  - unfold bind at 1. cbn [ret].
    destruct (eq_str st "FAILURE" || eq_str st "TIMEOUT"); [reflexivity|].
    destruct (i =? max - 1); reflexivity.
Qed.

(** *** What [after_calls] leaves in the world *)

Lemma after_calls_state E id n : forall w, state (after_calls E id n w) = state w.
Proof. induction n; intro w; cbn; [reflexivity | now rewrite IHn]. Qed.

Lemma after_calls_posted E id n : forall w, posted (after_calls E id n w) = posted w.
Proof. induction n; intro w; cbn; [reflexivity | now rewrite IHn]. Qed.

Lemma after_calls_polled E id n :
  forall w, polled (after_calls E id n w) = polled w ++ repeat id n.
Proof.
  induction n; intro w; cbn.
  - now rewrite app_nil_r.
  - rewrite IHn. cbn. now rewrite <- app_assoc.
Qed.

Lemma after_calls_shown E id n :
  forall w, exists l, shown (after_calls E id n w) = shown w ++ l
                      /\ Forall (eq ApiRequestFailed) l.
Proof.
  induction n; intro w; cbn.
  - exists []. now rewrite app_nil_r.
  - destruct (IHn (after_call E id w)) as (l & Hl & Hall). rewrite Hl. cbn.
    exists (note_failed (status_reply E (List.length (polled w))) ++ l).
    rewrite app_assoc. split; [reflexivity|].
    apply Forall_app. split; [|exact Hall].
    destruct (status_reply E (List.length (polled w))); cbn; auto.
Qed.

(** When every one of the [n] calls is answered, nothing is shown. *)
Lemma after_calls_shown_answered E id n :
  forall w,
    (forall k, k < n -> status_reply E (List.length (polled w) + k) <> None) ->
    shown (after_calls E id n w) = shown w.
Proof.
  induction n; intros w H; cbn; [reflexivity|].
  rewrite IHn.
  - cbn. specialize (H 0 (Nat.lt_0_succ _)). rewrite Nat.add_0_r in H.
    destruct (status_reply E (List.length (polled w))); [cbn; apply app_nil_r | congruence].
  - intros k Hk. cbn. rewrite length_app. cbn.
    replace (List.length (polled w) + 1 + k) with (List.length (polled w) + S k) by lia.
    apply H. lia.
Qed.

(** *** The loop as a whole *)

(** The first [n] replies ask for another attempt and attempts remain:
    the loop makes those [n] calls and goes on. *)
Lemma chat_poll_loop_prefix E kid max n :
  forall remaining i w,
    (forall k, k < n ->
       chat_verdict E (status_reply E (List.length (polled w) + k)) = Repoll) ->
    i + n + S remaining = max ->
    chat_poll_loop E kid max (n + S remaining) i w
    = chat_poll_loop E kid max (S remaining) (i + n) (after_calls E kid n w).
Proof.
  induction n; intros remaining i w H Hmax.
  - cbn [Nat.add after_calls]. now rewrite Nat.add_0_r.
  - change (S n + S remaining) with (S (n + S remaining)).
    rewrite chat_poll_loop_step.
    pose proof (H 0 (Nat.lt_0_succ _)) as H0. rewrite Nat.add_0_r in H0. rewrite H0.
    replace (i =? max - 1) with false by (symmetry; apply Nat.eqb_neq; lia).
    rewrite IHn.
    + replace (S i + n) with (i + S n) by lia. reflexivity.
    + intros k Hk. cbn. rewrite length_app. cbn.
      replace (List.length (polled w) + 1 + k) with (List.length (polled w) + S k) by lia.
      apply H. lia.
    + lia.
Qed.

(** Every remaining reply asks for another attempt: the loop makes all
    the calls and reports the timeout at the last one. *)
Lemma chat_poll_loop_exhaust E kid max :
  forall remaining i w,
    (forall k, k < S remaining ->
       chat_verdict E (status_reply E (List.length (polled w) + k)) = Repoll) ->
    i + S remaining = max ->
    chat_poll_loop E kid max (S remaining) i w
    = show TimedOut (after_calls E kid (S remaining) w).
Proof.
  induction remaining; intros i w H Hmax;
    rewrite chat_poll_loop_step;
    pose proof (H 0 (Nat.lt_0_succ _)) as H0; rewrite Nat.add_0_r in H0; rewrite H0.
  - replace (i =? max - 1) with true by (symmetry; apply Nat.eqb_eq; lia).
    reflexivity.
  - replace (i =? max - 1) with false by (symmetry; apply Nat.eqb_neq; lia).
    rewrite IHremaining; [reflexivity | | lia].
    intros k Hk. cbn. rewrite length_app. cbn.
    replace (List.length (polled w) + 1 + k) with (List.length (polled w) + S k) by lia.
    apply H. lia.
Qed.

(** The loop stops at the first reply that does not ask for another
    attempt, or makes every attempt: the complete case analysis. *)
Lemma chat_poll_loop_spec E kid max :
  forall remaining i w,
    i + S remaining = max ->
    (exists n,
        n <= remaining
        /\ (forall k, k < n ->
              chat_verdict E (status_reply E (List.length (polled w) + k)) = Repoll)
        /\ chat_verdict E (status_reply E (List.length (polled w) + n)) <> Repoll
        /\ chat_poll_loop E kid max (S remaining) i w
           = finish (chat_verdict E (status_reply E (List.length (polled w) + n)))
                    (after_calls E kid (S n) w))
    \/ ((forall k, k < S remaining ->
           chat_verdict E (status_reply E (List.length (polled w) + k)) = Repoll)
        /\ chat_poll_loop E kid max (S remaining) i w
           = show TimedOut (after_calls E kid (S remaining) w)).
Proof.
  induction remaining; intros i w Hmax.
  - destruct (chat_verdict E (status_reply E (List.length (polled w)))) eqn:Hv.
    1: { right. split; [|apply chat_poll_loop_exhaust; [|exact Hmax]];
         intros k Hk; replace k with 0 by lia; now rewrite Nat.add_0_r. }
    all: left; exists 0; rewrite Nat.add_0_r; rewrite chat_poll_loop_step, Hv;
      (split; [lia | split; [intros k Hk; lia | split; [congruence | reflexivity]]]).
  - destruct (chat_verdict E (status_reply E (List.length (polled w)))) eqn:Hv.
    2-5: left; exists 0; rewrite Nat.add_0_r; rewrite chat_poll_loop_step, Hv;
      (split; [lia | split; [intros k Hk; lia | split; [congruence | reflexivity]]]).
    assert (Hshift : forall k, List.length (polled (after_call E kid w)) + k
                               = List.length (polled w) + S k)
      by (intro k; cbn; rewrite length_app; cbn; lia).
    assert (Hstep : chat_poll_loop E kid max (S (S remaining)) i w
                    = chat_poll_loop E kid max (S remaining) (S i) (after_call E kid w)).
    { rewrite chat_poll_loop_step, Hv.
      now replace (i =? max - 1) with false by (symmetry; apply Nat.eqb_neq; lia). }
    destruct (IHremaining (S i) (after_call E kid w)) as [(n & Hn & Hpre & Hstop & Heq) | (Hall & Heq)];
      [lia | |].
    + left. exists (S n). rewrite Hshift in *. split; [lia|]. split; [|split].
      * intros [|k] Hk; [now rewrite Nat.add_0_r|]. rewrite <- Hshift. apply Hpre. lia.
      * exact Hstop.
      * rewrite Hstep, Heq. reflexivity.
    + right. split.
      * intros [|k] Hk; [now rewrite Nat.add_0_r|]. rewrite <- Hshift. apply Hall. lia.
      * rewrite Hstep, Heq. reflexivity.
Qed.

(** ** One iteration of the bulk loop, by what the reply is *)

Lemma auto_poll_loop_step E remaining attempts w :
  auto_poll_loop E (S remaining) attempts w =
  let r := status_reply E (List.length (polled w)) in
  let w1 := after_call E (kickoff_id (state w)) w in
  match bulk_verdict_of r with
  | BulkRepoll =>
      (show (CurrentState (bulk_state r)) ;;
       auto_poll_loop E remaining (S attempts)) w1
  | BulkDone =>
      (show (CurrentState (bulk_state r)) ;; show Done ;;
       modify (set_processing false) ;; ret (true, attempts)) w1
  | BulkFailedCall => (show StatusFailed ;; ret (false, attempts)) w1
  | BulkCrashed => raise AttributeError w1
  end.
Proof.
  cbn [auto_poll_loop]. unfold bind at 1. cbn [gets].
  unfold bind at 1. rewrite api_request_status_eq.
  unfold bulk_verdict_of, bulk_state. cbv zeta.
  destruct (status_reply E (List.length (polled w))) as [v|]; cbn [body_of];
    [|reflexivity].
  destruct (truthy v) eqn:Hv; [|reflexivity].
  destruct v; try reflexivity.
  cbn [py_get]. unfold bind at 1. cbn [ret].
  unfold bind at 1. cbn [show].
  destruct (eq_str _ "SUCCESS"); reflexivity.
Qed.

Lemma bulk_repolls_verdict r :
  bulk_repolls r = true -> bulk_verdict_of r = BulkRepoll.
Proof.
  unfold bulk_repolls, bulk_verdict_of, is_object, has_state, bulk_state.
  destruct r as [[| | | | | |[|p d]]|]; cbn [body_of truthy andb];
    try discriminate.
  destruct (dict_get (p :: d) "state") as [v|].
  - destruct (eq_str v "SUCCESS"); cbn; [discriminate | reflexivity].
  - reflexivity.
Qed.

Lemma bulk_after_state E id n : forall w, state (bulk_after E id n w) = state w.
Proof. induction n; intro w; cbn; [reflexivity | now rewrite IHn]. Qed.

Lemma bulk_after_posted E id n : forall w, posted (bulk_after E id n w) = posted w.
Proof. induction n; intro w; cbn; [reflexivity | now rewrite IHn]. Qed.

Lemma bulk_after_polled E id n :
  forall w, polled (bulk_after E id n w) = polled w ++ repeat id n.
Proof.
  induction n; intro w; cbn.
  - now rewrite app_nil_r.
  - rewrite IHn. cbn. now rewrite <- app_assoc.
Qed.

Lemma bulk_after_shown E id n :
  forall w, exists l, shown (bulk_after E id n w) = shown w ++ l
                      /\ ~ In Done l /\ ~ In TakingLonger l /\ ~ In StatusFailed l.
Proof.
  induction n; intro w; cbn.
  - exists []. rewrite app_nil_r. auto.
  - match goal with |- context [bulk_after E id n ?w1] =>
      destruct (IHn w1) as (l & Hl & H1 & H2 & H3) end.
    rewrite Hl. cbn.
    exists (note_failed (status_reply E (List.length (polled w)))
            ++ [CurrentState (bulk_state (status_reply E (List.length (polled w))))] ++ l).
    rewrite <- !app_assoc. split; [reflexivity|].
    repeat split; intro Hin;
      (apply in_app_or in Hin; destruct Hin as [Hin|Hin];
       [ destruct (status_reply E (List.length (polled w))); cbn in Hin;
         repeat (destruct Hin as [Hin|Hin]); try discriminate; contradiction
       | apply in_app_or in Hin; destruct Hin as [Hin|Hin];
         [ cbn in Hin; destruct Hin as [Hin|Hin]; [discriminate | contradiction]
         | auto ] ]).
Qed.

(** The first [n] replies are non-SUCCESS statuses: the loop makes those
    [n] calls and goes on with what remains. *)
Lemma auto_poll_loop_prefix E n :
  forall remaining attempts w,
    (forall k, k < n -> bulk_repolls (status_reply E (List.length (polled w) + k)) = true) ->
    auto_poll_loop E (n + remaining) attempts w
    = auto_poll_loop E remaining (attempts + n)
        (bulk_after E (kickoff_id (state w)) n w).
Proof.
  induction n; intros remaining attempts w H.
  - cbn. now rewrite Nat.add_0_r.
  - change (S n + remaining) with (S (n + remaining)).
    rewrite auto_poll_loop_step. cbv zeta.
    pose proof (H 0 (Nat.lt_0_succ _)) as H0. rewrite Nat.add_0_r in H0.
    rewrite (bulk_repolls_verdict _ H0).
    unfold bind at 1. cbn [show].
    rewrite IHn.
    + replace (S attempts + n) with (attempts + S n) by lia. reflexivity.
    + intros k Hk. cbn. rewrite length_app. cbn.
      replace (List.length (polled w) + 1 + k) with (List.length (polled w) + S k) by lia.
      apply H. lia.
Qed.

(** ** From the kinds of replies to the iterations *)

Lemma has_state_eq_str st r :
  has_state st r = true ->
  exists d v, r = Some (JObj d) /\ dict_get d "state" = Some v /\ eq_str v st = true.
Proof.
  unfold has_state. destruct r as [[| | | | | |d]|]; try discriminate.
  destruct (dict_get d "state") as [v|] eqn:Hd; try discriminate.
  intro H. now exists d, v.
Qed.

Lemma eq_str_true v st : eq_str v st = true -> v = JStr st.
Proof.
  destruct v; cbn; try discriminate. intro H. apply String.eqb_eq in H. now subst.
Qed.

Lemma chat_repolls_verdict E r :
  chat_repolls r = true -> chat_verdict E r = Repoll.
Proof.
  unfold chat_repolls, chat_verdict.
  destruct r as [v|]; [|reflexivity]. cbn [body_of].
  destruct (truthy v) eqn:Hv; [|reflexivity]. cbn [negb orb].
  unfold non_terminal, success_without_result, has_state, is_object, reply_result.
  destruct v; try discriminate.
  destruct (dict_get d "state") as [st|]; [|reflexivity].
  destruct (eq_str st "SUCCESS") eqn:H1.
  - apply eq_str_true in H1. subst st. cbn.
    destruct (truthy match dict_get d "result" with Some v => v | None => JNull end);
      [rewrite andb_false_r; discriminate | reflexivity].
  - cbn [andb negb].
    destruct (eq_str st "FAILURE"); cbn;
      [rewrite andb_false_r; discriminate|].
    destruct (eq_str st "TIMEOUT"); cbn;
      [rewrite andb_false_r; discriminate | reflexivity].
Qed.

Lemma non_terminal_chat_repolls r : non_terminal r = true -> chat_repolls r = true.
Proof.
  unfold chat_repolls. intro H. destruct r; [|reflexivity].
  rewrite H. now rewrite orb_true_r.
Qed.

Lemma non_terminal_bulk_repolls r : non_terminal r = true -> bulk_repolls r = true.
Proof.
  unfold non_terminal, bulk_repolls. intro H.
  apply andb_prop in H as [H _]. apply andb_prop in H as [H _]. exact H.
Qed.

Lemma non_terminal_answered r : non_terminal r = true -> r <> None.
Proof. destruct r; [discriminate | cbn; discriminate]. Qed.

(** A job error stops the chat loop. *)
Lemma job_error_verdict E r st :
  (st = "FAILURE" \/ st = "TIMEOUT") ->
  has_state st r = true -> is_object r = true ->
  chat_verdict E r = JobFailed (JStr st).
Proof.
  intros Hst H Hobj. destruct (has_state_eq_str _ _ H) as (d & v & -> & Hd & Hv).
  apply eq_str_true in Hv. subst v.
  unfold chat_verdict. cbn [body_of]. cbn in Hobj.
  destruct d; [discriminate|]. cbn [truthy]. rewrite Hd.
  destruct Hst as [-> | ->]; reflexivity.
Qed.

(** ** The chat turn up to its first status call *)

Lemma has_kickoff_id_found d kid w :
  dict_get d "kickoff_id" = Some kid ->
  has_kickoff_id (JObj d) w = (Ok true, w)
  /\ py_index (JObj d) "kickoff_id" w = (Ok kid, w).
Proof.
  intro H. unfold has_kickoff_id. destruct d; [discriminate|].
  cbn [truthy py_in py_index]. rewrite H. split; reflexivity.
Qed.

Lemma chat_turn_started E max msg s kid :
  reply_kickoff_id (kickoff_reply E) = Some kid ->
  run (chat_turn_with E max msg) s
  = chat_poll_loop E kid max max 0 (polling_starts E msg s).
Proof.
  unfold reply_kickoff_id. destruct (kickoff_reply E) as [[| | | | | |d]|] eqn:Hk;
    try discriminate.
  intro Hd. unfold run, chat_turn_with, chat_exchange_with, chat_prepare.
  unfold bind, modify, gets, api_request_kickoff. cbn [initial_world state posted polled shown fst snd].
  rewrite Hk.
  match goal with |- context [has_kickoff_id (JObj d) ?w0] =>
    destruct (has_kickoff_id_found d kid w0 Hd) as [H1 _]; rewrite H1 end.
  match goal with |- context [py_index (JObj d) "kickoff_id" ?w0] =>
    destruct (has_kickoff_id_found d kid w0 Hd) as [_ H2]; rewrite H2 end.
  reflexivity.
Qed.

(** ** Attempt-counted polling *)

Lemma chat_turn_all_repoll E m msg s kid :
  reply_kickoff_id (kickoff_reply E) = Some kid ->
  (forall n, n < S m -> chat_repolls (status_reply E n) = true) ->
  run (chat_turn_with E (S m) msg) s
  = show TimedOut (after_calls E kid (S m) (polling_starts E msg s)).
Proof.
  intros Hk Hall. rewrite (chat_turn_started _ _ _ _ _ Hk).
  apply chat_poll_loop_exhaust; [|reflexivity].
  intros k Hk'. apply chat_repolls_verdict, Hall. exact Hk'.
Qed.

Lemma auto_poll_all_repoll E max s :
  (forall n, n < max -> bulk_repolls (status_reply E n) = true) ->
  run (auto_poll_with E max) s
  = (show TakingLonger ;; show ManualRefreshHint)
      (bulk_after E (kickoff_id s) max (initial_world s)).
Proof.
  intro Hall. unfold run, auto_poll_with. unfold bind at 1.
  replace max with (max + 0) at 1 by lia.
  rewrite auto_poll_loop_prefix by (intros k Hk; apply Hall; exact Hk).
  cbn [auto_poll_loop ret Nat.add initial_world state].
  rewrite Nat.leb_refl. reflexivity.
Qed.

(** SUCCESS at call [n + 1] after [n] non-SUCCESS statuses, within the
    budget: the loop stops there and clears [processing]. *)
Lemma auto_poll_success_at E max n s :
  n < max ->
  (forall k, k < n -> bulk_repolls (status_reply E k) = true) ->
  has_state "SUCCESS" (status_reply E n) = true ->
  is_object (status_reply E n) = true ->
  exists l,
    run (auto_poll_with E max) s
    = (Ok tt, {| state := set_processing false s; posted := [];
                 polled := repeat (kickoff_id s) (S n);
                 shown := l ++ [CurrentState (JStr "SUCCESS"); Done] |})
    /\ ~ In Done l.
Proof.
  intros Hn Hpre Hs Hobj.
  destruct (has_state_eq_str _ _ Hs) as (d & v & Hr & Hd & Hv).
  apply eq_str_true in Hv. subst v.
  pose proof (bulk_after_shown E (kickoff_id s) n (initial_world s)) as (l & Hl & Hdone & _).
  exists l. split; [|exact Hdone].
  unfold run, auto_poll_with. unfold bind at 1.
  replace max with (n + S (max - S n)) at 1 by lia.
  rewrite auto_poll_loop_prefix by (intros k Hk; apply Hpre; exact Hk).
  rewrite auto_poll_loop_step. cbv zeta.
  rewrite bulk_after_polled, bulk_after_state. cbn [initial_world polled state app].
  rewrite repeat_length.
  assert (Hver : bulk_verdict_of (status_reply E n) = BulkDone).
  { unfold bulk_verdict_of, bulk_state. rewrite Hr in Hobj. rewrite Hr.
    cbn [body_of]. cbn in Hobj. destruct d; [discriminate|].
    cbn [truthy]. now rewrite Hd. }
  rewrite Hver.
  assert (Hst : bulk_state (status_reply E n) = JStr "SUCCESS")
    by (unfold bulk_state; now rewrite Hr, Hd).
  rewrite Hst.
  unfold bind, show, modify, ret, after_call. cbn [fst snd state posted polled shown].
  rewrite bulk_after_state, bulk_after_posted, bulk_after_polled, Hl.
  cbn [initial_world state posted polled shown app].
  rewrite ?repeat_length, Hr. cbn [note_failed].
  replace (max <=? 0 + n) with false by (symmetry; apply Nat.leb_gt; lia).
  cbn [andb when ret].
  rewrite app_nil_r, <- !app_assoc. cbn [app].
  replace (repeat (kickoff_id s) n ++ [kickoff_id s]) with (repeat (kickoff_id s) (S n)).
  - reflexivity.
  - rewrite <- (repeat_cons n). reflexivity.
Qed.

(** The chat turn when every one of the [S m] attempts is answered by a
    non-terminal status. *)
Lemma chat_turn_never_terminal E m msg s kid :
  reply_kickoff_id (kickoff_reply E) = Some kid ->
  (forall n, n < S m -> non_terminal (status_reply E n) = true) ->
  let r := run (chat_turn_with E (S m) msg) s in
  fst r = Ok tt
  /\ polled (snd r) = repeat kid (S m)
  /\ shown (snd r) = [TimedOut]
  /\ chat_messages (state (snd r)) = chat_messages s ++ [user_message msg].
Proof.
  intros Hk Hall. cbv zeta.
  rewrite (chat_turn_all_repoll E m msg s kid Hk)
    by (intros n Hn; apply non_terminal_chat_repolls, Hall, Hn).
  cbn [show fst snd state polled shown].
  rewrite after_calls_polled, after_calls_state, after_calls_shown_answered.
  - repeat split; reflexivity.
  - intros k Hk'. apply non_terminal_answered, Hall, Hk'.
Qed.

(** The bulk loop when every one of the [max] attempts is answered by a
    status other than SUCCESS. *)
Lemma auto_poll_never_success E max s :
  (forall n, n < max -> bulk_repolls (status_reply E n) = true) ->
  let r := run (auto_poll_with E max) s in
  fst r = Ok tt
  /\ polled (snd r) = repeat (kickoff_id s) max
  /\ state (snd r) = s
  /\ exists l, shown (snd r) = l ++ [TakingLonger; ManualRefreshHint]
               /\ ~ In Done l /\ ~ In StatusFailed l.
Proof.
  intros Hall. cbv zeta. rewrite auto_poll_all_repoll by exact Hall.
  destruct (bulk_after_shown E (kickoff_id s) max (initial_world s))
    as (l & Hl & H1 & _ & H3).
  unfold bind, show. cbn [fst snd state polled shown].
  rewrite bulk_after_polled, bulk_after_state, Hl.
  cbn [initial_world state polled shown app].
  repeat split; try reflexivity.
  exists l. rewrite <- app_assoc. cbn [app]. auto.
Qed.

(** C5: polling is attempt-counted.  When no status call reaches a
    terminal state, the chat loop makes exactly 120 status calls and the
    bulk loop exactly 30, and each then reports its poll timeout; when
    the bulk statuses are RUNNING five times and then SUCCESS, exactly 6
    status calls are made and [processing] is cleared by the 6th: cut
    after any [k <= 5] attempts, the loop has made [k] calls and left
    [processing] as it was. *)
Theorem polling_is_attempt_counted (E : env) (s : session) (msg : string) :
  (forall kid,
      reply_kickoff_id (kickoff_reply E) = Some kid ->
      (forall n, n < max_retries -> non_terminal (status_reply E n) = true) ->
      let r := run (chat_turn E msg) s in
      fst r = Ok tt
      /\ polled (snd r) = repeat kid 120
      /\ shown (snd r) = [TimedOut]
      /\ chat_messages (state (snd r)) = chat_messages s ++ [user_message msg])
  /\ ((forall n, n < max_attempts -> non_terminal (status_reply E n) = true) ->
      let r := run (auto_poll E) s in
      fst r = Ok tt
      /\ polled (snd r) = repeat (kickoff_id s) 30
      /\ state (snd r) = s
      /\ exists l, shown (snd r) = l ++ [TakingLonger; ManualRefreshHint]
                   /\ ~ In Done l /\ ~ In StatusFailed l)
  /\ ((forall n, n < 5 -> status_reply E n = Some (status_body "RUNNING")) ->
      status_reply E 5 = Some (status_body "SUCCESS") ->
      (let r := run (auto_poll E) s in
       fst r = Ok tt
       /\ polled (snd r) = repeat (kickoff_id s) 6
       /\ processing (state (snd r)) = false
       /\ In Done (shown (snd r)))
      /\ forall k, k <= 5 ->
           let r := run (auto_poll_with E k) s in
           polled (snd r) = repeat (kickoff_id s) k
           /\ processing (state (snd r)) = processing s
           /\ ~ In Done (shown (snd r))).
Proof.
  split; [|split].
  - intros kid Hk Hall. exact (chat_turn_never_terminal E 119 msg s kid Hk Hall).
  - intros Hall.
    exact (auto_poll_never_success E 30 s
             (fun n Hn => non_terminal_bulk_repolls _ (Hall n Hn))).
  - intros Hrun Hsucc.
    assert (Hrep : forall k, k <= 5 -> forall n, n < k ->
              bulk_repolls (status_reply E n) = true)
      by (intros k Hk n Hn; rewrite (Hrun n) by lia; reflexivity).
    split.
    + destruct (auto_poll_success_at E 30 5 s) as (l & Heq & Hl).
      * lia.
      * exact (Hrep 5 (Nat.le_refl 5)).
      * now rewrite Hsucc.
      * now rewrite Hsucc.
      * cbv zeta. change (auto_poll E) with (auto_poll_with E 30). rewrite Heq.
        cbn [fst snd state polled shown set_processing processing].
        repeat split; try reflexivity.
        apply in_or_app. right. cbn. auto.
    + intros k Hk.
      destruct (auto_poll_never_success E k s (Hrep k Hk)) as (_ & H1 & H2 & l & H3 & H4 & _).
      cbv zeta. rewrite H1, H2, H3. repeat split; try reflexivity.
      intro Hin. apply in_app_or in Hin. destruct Hin as [Hin|Hin]; [auto|].
      cbn in Hin. destruct Hin as [Hin|[Hin|[]]]; discriminate.
Qed.

(** C5 at sample environments: every status RUNNING, and RUNNING five
    times then SUCCESS. *)
Lemma polling_is_attempt_counted_witness :
  (let r := run (chat_turn (sample_env kickoff_k1 always_running) "Hello") initial_session in
   polled (snd r) = repeat (JStr "k1") 120 /\ shown (snd r) = [TimedOut])
  /\ (let r := run (auto_poll (sample_env None running5_then_success)) processing_session in
      polled (snd r) = repeat (JStr "k1") 6 /\ processing (state (snd r)) = false).
Proof.
  split.
  - destruct (polling_is_attempt_counted (sample_env kickoff_k1 always_running)
                initial_session "Hello") as [H _].
    specialize (H (JStr "k1") eq_refl (fun n _ => eq_refl)).
    cbv zeta in H. destruct H as (_ & H1 & H2 & _). split; assumption.
  - destruct (polling_is_attempt_counted (sample_env None running5_then_success)
                processing_session "Hello") as (_ & _ & H).
    assert (Hrun : forall n, n < 5 ->
              status_reply (sample_env None running5_then_success) n
              = Some (status_body "RUNNING")).
    { intros n Hn. cbn. unfold running5_then_success.
      destruct (Nat.ltb_spec n 5); [reflexivity | lia]. }
    destruct (H Hrun eq_refl) as [(_ & H1 & H2 & _) _].
    split; assumption.
Defined.

(** ** Where the chat loop stops *)

(** The loop stops at the first reply that does not ask for another
    attempt. *)
Lemma chat_poll_loop_stops E kid max remaining i w n :
  i + S remaining = max ->
  n <= remaining ->
  (forall k, k < n ->
     chat_verdict E (status_reply E (List.length (polled w) + k)) = Repoll) ->
  chat_verdict E (status_reply E (List.length (polled w) + n)) <> Repoll ->
  chat_poll_loop E kid max (S remaining) i w
  = finish (chat_verdict E (status_reply E (List.length (polled w) + n)))
           (after_calls E kid (S n) w).
Proof.
  intros Hmax Hn Hpre Hstop.
  destruct (chat_poll_loop_spec E kid max remaining i w Hmax)
    as [(n' & Hn' & Hpre' & Hstop' & Heq) | (Hall & _)].
  - destruct (Nat.lt_trichotomy n n') as [Hlt | [-> | Hgt]].
    + exfalso. apply Hstop, Hpre'. exact Hlt.
    + exact Heq.
    + exfalso. apply Hstop', Hpre. exact Hgt.
  - exfalso. apply Hstop, Hall. lia.
Qed.

Lemma chat_turn_stops E m msg s kid n :
  reply_kickoff_id (kickoff_reply E) = Some kid ->
  n <= m ->
  (forall k, k < n -> chat_repolls (status_reply E k) = true) ->
  chat_verdict E (status_reply E n) <> Repoll ->
  run (chat_turn_with E (S m) msg) s
  = finish (chat_verdict E (status_reply E n))
           (after_calls E kid (S n) (polling_starts E msg s)).
Proof.
  intros Hk Hn Hpre Hstop. rewrite (chat_turn_started _ _ _ _ _ Hk).
  apply (chat_poll_loop_stops E kid (S m) m 0 (polling_starts E msg s) n);
    [reflexivity | exact Hn | | exact Hstop].
  intros k Hk'. apply chat_repolls_verdict, Hpre, Hk'.
Qed.

(** Every way a started chat turn can end. *)
Lemma chat_turn_cases E m msg s kid :
  reply_kickoff_id (kickoff_reply E) = Some kid ->
  exists n,
    n <= m
    /\ ((chat_verdict E (status_reply E n) <> Repoll
         /\ run (chat_turn_with E (S m) msg) s
            = finish (chat_verdict E (status_reply E n))
                     (after_calls E kid (S n) (polling_starts E msg s)))
        \/ (n = m
            /\ chat_verdict E (status_reply E n) = Repoll
            /\ run (chat_turn_with E (S m) msg) s
               = show TimedOut (after_calls E kid (S m) (polling_starts E msg s)))).
Proof.
  intro Hk. rewrite (chat_turn_started _ _ _ _ _ Hk).
  destruct (chat_poll_loop_spec E kid (S m) m 0 (polling_starts E msg s) eq_refl)
    as [(n & Hn & _ & Hstop & Heq) | (Hall & Heq)].
  - exists n. split; [exact Hn|]. left. split; assumption.
  - exists m. split; [lia|]. right. split; [reflexivity|]. split; [|exact Heq].
    apply (Hall m). lia.
Qed.

(** *** What the last iteration does to the world *)

Lemma accept_result_eq rd w :
  accept_result rd w =
  match rd with
  | JObj d =>
      let response_text := match dict_get d "response" with Some x => x | None => JStr "" end in
      let id := match dict_get d "id" with Some x => x | None => JNull end in
      (Ok tt,
       {| state := append_message {| msg_role := assistant; content := response_text |}
                     (if truthy id then set_chat_id id (state w) else state w);
          posted := posted w; polled := polled w; shown := shown w |})
  | _ => (Raise AttributeError, w)
  end.
Proof.
  unfold accept_result. destruct rd; try reflexivity.
  cbn [py_get]. unfold bind, ret, when, modify. cbv zeta.
  destruct (truthy match dict_get d "id" with Some x => x | None => JNull end);
    cbn [fst snd state posted polled shown]; [reflexivity|].
  destruct w; reflexivity.
Qed.

Lemma finish_logs v w :
  posted (snd (finish v w)) = posted w /\ polled (snd (finish v w)) = polled w.
Proof.
  destruct v; cbn [finish]; try (split; reflexivity).
  rewrite accept_result_eq. destruct result_data; split; reflexivity.
Qed.

(** Only the chat fields move, and the transcript gains at most one
    assistant message. *)
Lemma finish_state v w :
  let s := state w in
  let s' := state (snd (finish v w)) in
  processing s' = processing s
  /\ kickoff_id s' = kickoff_id s
  /\ upload_complete s' = upload_complete s
  /\ _submit_clicked s' = _submit_clicked s
  /\ (chat_messages s' = chat_messages s
      \/ exists c, chat_messages s' = chat_messages s
                                      ++ [{| msg_role := assistant; content := c |}]).
Proof.
  cbv zeta. destruct v; cbn [finish]; try (repeat split; auto; fail).
  rewrite accept_result_eq. destruct result_data; try (cbn; repeat split; auto; fail).
  cbv zeta. cbn [snd state].
  destruct (truthy match dict_get d "id" with Some x => x | None => JNull end);
    cbn; repeat split; eauto.
Qed.

(** ** Job errors *)

(** In the chat loop a FAILURE or TIMEOUT status ends polling at that
    attempt with the job's error and no assistant message. *)
Lemma chat_turn_job_error E m msg s kid n st :
  reply_kickoff_id (kickoff_reply E) = Some kid ->
  n <= m ->
  (forall k, k < n -> non_terminal (status_reply E k) = true) ->
  (st = "FAILURE" \/ st = "TIMEOUT") ->
  has_state st (status_reply E n) = true ->
  is_object (status_reply E n) = true ->
  let r := run (chat_turn_with E (S m) msg) s in
  fst r = Ok tt
  /\ polled (snd r) = repeat kid (S n)
  /\ shown (snd r) = [RequestFailedWithState (JStr st)]
  /\ chat_messages (state (snd r)) = chat_messages s ++ [user_message msg]
  /\ chat_id (state (snd r)) = chat_id s.
Proof.
  intros Hk Hn Hpre Hst Hs Hobj. cbv zeta.
  pose proof (job_error_verdict E _ _ Hst Hs Hobj) as Hv.
  rewrite (chat_turn_stops E m msg s kid n Hk Hn)
    by (try (intros k Hk'; apply non_terminal_chat_repolls, Hpre, Hk');
        rewrite Hv; discriminate).
  rewrite Hv. cbn [finish show fst snd state polled shown].
  rewrite after_calls_polled, after_calls_state, after_calls_shown_answered.
  - repeat split; reflexivity.
  - intros k Hk'. cbn [polling_starts polled List.length Nat.add].
    destruct (Nat.eq_dec k n) as [-> | Hne].
    + intro Hnone. rewrite Hnone in Hobj. discriminate.
    + apply non_terminal_answered, Hpre. lia.
Qed.

(** C1, at the bulk loop: with a job that reports FAILURE at every status
    call, a run of the status section does not stop at the first one; it
    makes all 30 status calls, shows no error for the job, ends on the
    "taking longer than expected" notice and leaves [processing] set. *)
Theorem bulk_poll_ignores_failure :
  let r := run (tab2 (sample_env None always_failure) false false)
               processing_session in
  has_state "FAILURE" (always_failure 0) = true
  /\ fst r = Ok tt
  /\ polled (snd r) = repeat (JStr "k1") 30
  /\ shown (snd r)
     = InProgress (JStr "k1")
       :: repeat (CurrentState (JStr "FAILURE")) 30
       ++ [TakingLonger; ManualRefreshHint]
  /\ processing (state (snd r)) = true.
Proof. vm_compute. repeat split; reflexivity. Qed.

(** ** Failed status calls *)

Lemma bulk_failed_call_verdict r :
  truthy (body_of r) = false -> bulk_verdict_of r = BulkFailedCall.
Proof. unfold bulk_verdict_of. now intros ->. Qed.

(** The bulk loop on a falsy status body (a failed call, [null], [{}])
    after [n] non-SUCCESS statuses. *)
Lemma auto_poll_failed_call_eq E max n s :
  n < max ->
  (forall k, k < n -> bulk_repolls (status_reply E k) = true) ->
  truthy (body_of (status_reply E n)) = false ->
  run (auto_poll_with E max) s
  = (show StatusFailed ;; ret tt)
      (after_call E (kickoff_id s) (bulk_after E (kickoff_id s) n (initial_world s))).
Proof.
  intros Hn Hpre Hfalsy.
  unfold run, auto_poll_with. unfold bind at 1.
  replace max with (n + S (max - S n)) at 1 by lia.
  rewrite auto_poll_loop_prefix by (intros k Hk; apply Hpre; exact Hk).
  rewrite auto_poll_loop_step. cbv zeta.
  rewrite bulk_after_polled, bulk_after_state. cbn [initial_world polled state app].
  rewrite repeat_length, (bulk_failed_call_verdict _ Hfalsy).
  unfold bind, show, ret. cbn [fst snd].
  replace (max <=? 0 + n) with false by (symmetry; apply Nat.leb_gt; lia).
  reflexivity.
Qed.

Lemma auto_poll_failed_call E max n s :
  n < max ->
  (forall k, k < n -> bulk_repolls (status_reply E k) = true) ->
  truthy (body_of (status_reply E n)) = false ->
  let r := run (auto_poll_with E max) s in
  fst r = Ok tt
  /\ polled (snd r) = repeat (kickoff_id s) (S n)
  /\ state (snd r) = s
  /\ exists l, shown (snd r)
               = l ++ note_failed (status_reply E n) ++ [StatusFailed]
               /\ ~ In TakingLonger l /\ ~ In Done l.
Proof.
  intros Hn Hpre Hfalsy. cbv zeta.
  rewrite (auto_poll_failed_call_eq E max n s Hn Hpre Hfalsy).
  pose proof (bulk_after_shown E (kickoff_id s) n (initial_world s)) as (l & Hl & Hdone & Hlong & _).
  unfold bind, show, ret, after_call. cbn [fst snd state posted polled shown].
  rewrite bulk_after_state, bulk_after_polled, Hl.
  cbn [initial_world state posted polled shown app].
  rewrite repeat_length.
  split; [reflexivity|]. split; [|split; [reflexivity|]].
  - rewrite <- (repeat_cons n). reflexivity.
  - exists l. rewrite <- !app_assoc. auto.
Qed.

(** The chat loop never stops on a reply that asks for another attempt,
    unless it is the reply to the last attempt. *)
Lemma chat_turn_goes_past E m msg s kid n :
  reply_kickoff_id (kickoff_reply E) = Some kid ->
  chat_repolls (status_reply E n) = true ->
  n < m ->
  List.length (polled (snd (run (chat_turn_with E (S m) msg) s))) <> S n.
Proof.
  intros Hk Hrep Hn Hlen.
  destruct (chat_turn_cases E m msg s kid Hk) as (n' & Hn' & [(Hstop & Heq) | (-> & _ & Heq)]);
    rewrite Heq in Hlen.
  - destruct (finish_logs (chat_verdict E (status_reply E n'))
                (after_calls E kid (S n') (polling_starts E msg s))) as [_ Hp].
    rewrite Hp, after_calls_polled in Hlen. cbn [polling_starts polled app] in Hlen.
    rewrite repeat_length in Hlen. injection Hlen as ->.
    apply Hstop, chat_repolls_verdict, Hrep.
  - cbn [show snd polled] in Hlen. rewrite after_calls_polled in Hlen.
    cbn [polling_starts polled app] in Hlen. rewrite repeat_length in Hlen. lia.
Qed.

Lemma chat_turn_all_failed E m msg s kid :
  reply_kickoff_id (kickoff_reply E) = Some kid ->
  (forall k, k < S m -> chat_repolls (status_reply E k) = true) ->
  let r := run (chat_turn_with E (S m) msg) s in
  fst r = Ok tt
  /\ polled (snd r) = repeat kid (S m)
  /\ (exists l, shown (snd r) = l ++ [TimedOut] /\ Forall (eq ApiRequestFailed) l)
  /\ chat_messages (state (snd r)) = chat_messages s ++ [user_message msg]
  /\ chat_id (state (snd r)) = chat_id s.
Proof.
  intros Hk Hall. cbv zeta. rewrite (chat_turn_all_repoll E m msg s kid Hk Hall).
  cbn [show fst snd state polled shown].
  rewrite after_calls_polled, after_calls_state.
  destruct (after_calls_shown E kid (S m) (polling_starts E msg s)) as (l & Hl & Hall').
  rewrite Hl. repeat split; try reflexivity.
  exists l. split; [reflexivity | exact Hall'].
Qed.

Lemma failed_status_call_policy_at E m s msg n :
  status_reply E n = None ->
  (forall max, n < max ->
     (forall k, k < n -> bulk_repolls (status_reply E k) = true) ->
     let r := run (auto_poll_with E max) s in
     fst r = Ok tt
     /\ polled (snd r) = repeat (kickoff_id s) (S n)
     /\ state (snd r) = s
     /\ exists l, shown (snd r) = l ++ [ApiRequestFailed; StatusFailed]
                  /\ ~ In TakingLonger l /\ ~ In Done l)
  /\ (forall kid,
        reply_kickoff_id (kickoff_reply E) = Some kid ->
        n < m ->
        List.length (polled (snd (run (chat_turn_with E (S m) msg) s))) <> S n)
  /\ (forall kid,
        reply_kickoff_id (kickoff_reply E) = Some kid ->
        (forall k, k < S m ->
           status_reply E k = None \/ non_terminal (status_reply E k) = true) ->
        let r := run (chat_turn_with E (S m) msg) s in
        fst r = Ok tt
        /\ polled (snd r) = repeat kid (S m)
        /\ (exists l, shown (snd r) = l ++ [TimedOut]
                      /\ Forall (eq ApiRequestFailed) l)
        /\ chat_messages (state (snd r)) = chat_messages s ++ [user_message msg]).
Proof.
  intro Hnone. split; [|split].
  - intros max Hn Hpre.
    pose proof (auto_poll_failed_call E max n s Hn Hpre) as H.
    rewrite Hnone in H. exact (H eq_refl).
  - intros kid Hk Hn. apply (chat_turn_goes_past E m msg s kid n Hk); [|exact Hn].
    now rewrite Hnone.
  - intros kid Hk Hall.
    destruct (chat_turn_all_failed E m msg s kid Hk) as (H1 & H2 & H3 & H4 & _).
    + intros k Hk'. destruct (Hall k Hk') as [-> | H];
        [reflexivity | now apply non_terminal_chat_repolls].
    + cbv zeta. auto.
Qed.

(** C2: the two loops differ on a status call that fails at the
    transport level.  The bulk auto-poll loop does what the claim says: it
    stops at once, the failure is reported and no further status call is
    made.  The chat poll loop does not: it goes on as after a non-terminal
    status, never stopping at a failed call that is not its last attempt,
    and when every call fails or is non-terminal it makes all 120 attempts
    and reports the poll timeout. *)
Theorem failed_status_call_policy (E : env) (s : session) (msg : string) (n : nat) :
  status_reply E n = None ->
  (n < max_attempts ->
     (forall k, k < n -> bulk_repolls (status_reply E k) = true) ->
     let r := run (auto_poll E) s in
     fst r = Ok tt
     /\ polled (snd r) = repeat (kickoff_id s) (S n)
     /\ state (snd r) = s
     /\ exists l, shown (snd r) = l ++ [ApiRequestFailed; StatusFailed]
                  /\ ~ In TakingLonger l /\ ~ In Done l)
  /\ (forall kid,
        reply_kickoff_id (kickoff_reply E) = Some kid ->
        n < max_retries - 1 ->
        List.length (polled (snd (run (chat_turn E msg) s))) <> S n)
  /\ (forall kid,
        reply_kickoff_id (kickoff_reply E) = Some kid ->
        (forall k, k < max_retries ->
           status_reply E k = None \/ non_terminal (status_reply E k) = true) ->
        let r := run (chat_turn E msg) s in
        fst r = Ok tt
        /\ polled (snd r) = repeat kid 120
        /\ (exists l, shown (snd r) = l ++ [TimedOut]
                      /\ Forall (eq ApiRequestFailed) l)
        /\ chat_messages (state (snd r)) = chat_messages s ++ [user_message msg]).
Proof.
  intro Hnone.
  destruct (failed_status_call_policy_at E 119 s msg n Hnone) as (Hbulk & Hpast & Hall).
  split; [|split].
  - exact (Hbulk 30).
  - exact Hpast.
  - exact Hall.
Qed.

(** C2 at a sample run: the first status call fails. *)
Lemma failed_status_call_policy_witness :
  status_reply (sample_env kickoff_k1 failed_call_then_failure) 0 = None
  /\ polled (snd (run (auto_poll (sample_env kickoff_k1 failed_call_then_failure))
                      processing_session))
     = [JStr "k1"]
  /\ List.length
       (polled (snd (run (chat_turn (sample_env kickoff_k1 failed_call_then_failure)
                                    "Hello")
                         initial_session))) <> 1.
Proof.
  destruct (failed_status_call_policy
              (sample_env kickoff_k1 failed_call_then_failure)
              processing_session "Hello" 0 eq_refl) as (Hbulk & _).
  destruct (failed_status_call_policy
              (sample_env kickoff_k1 failed_call_then_failure)
              initial_session "Hello" 0 eq_refl) as (_ & Hpast & _).
  split; [reflexivity|]. split.
  - assert (H0 : 0 < max_attempts) by (unfold max_attempts; lia).
    destruct (Hbulk H0 (fun k (Hk : k < 0) => match Nat.nlt_0_r k Hk with end))
      as (_ & Hp & _).
    exact Hp.
  - apply (Hpast (JStr "k1") eq_refl). unfold max_retries. lia.
Defined.

(** C2 as stated fails on the chat loop: the first status call fails
    and polling goes on to a second call (which reports FAILURE). *)
Lemma chat_polls_past_failed_call :
  let E := sample_env kickoff_k1 failed_call_then_failure in
  let r := run (chat_turn E "Hello") initial_session in
  status_reply E 0 = None
  /\ polled (snd r) = [JStr "k1"; JStr "k1"]
  /\ shown (snd r) = [ApiRequestFailed; RequestFailedWithState (JStr "FAILURE")].
Proof. vm_compute. repeat split; reflexivity. Qed.

(** ** SUCCESS and its result *)

Lemma has_state_is_object st r : has_state st r = true -> is_object r = true.
Proof.
  intro H. destruct (has_state_eq_str _ _ H) as (d & v & -> & Hd & _).
  destruct d; [discriminate | reflexivity].
Qed.

Lemma success_verdict E r txt :
  has_state "SUCCESS" r = true ->
  reply_result r = JStr txt -> txt <> "" ->
  chat_verdict E r = match json_loads E txt with
                     | Some rd => Accepted rd
                     | None => Unparseable
                     end.
Proof.
  intros Hs Hr Htxt. pose proof (has_state_is_object _ _ Hs) as Hobj.
  destruct (has_state_eq_str _ _ Hs) as (d & v & -> & Hd & Hv).
  apply eq_str_true in Hv. subst v. unfold chat_verdict. rewrite Hr.
  cbn [body_of]. cbn in Hobj. destruct d; [discriminate|]. cbn [truthy].
  rewrite Hd. cbn [eq_str].
  assert (Ht : String.eqb txt "" = false) by (now apply String.eqb_neq).
  rewrite Ht. reflexivity.
Qed.

Lemma success_without_result_repolls r :
  success_without_result r = true -> chat_repolls r = true.
Proof.
  unfold chat_repolls. intro H. destruct r; [|reflexivity].
  rewrite H. now rewrite !orb_true_r.
Qed.

Lemma success_result_policy_at E m s msg kid n :
  reply_kickoff_id (kickoff_reply E) = Some kid ->
  n <= m ->
  (forall k, k < n -> non_terminal (status_reply E k) = true) ->
  has_state "SUCCESS" (status_reply E n) = true ->
  let r := run (chat_turn_with E (S m) msg) s in
  (forall txt,
      reply_result (status_reply E n) = JStr txt -> txt <> "" ->
      json_loads E txt = None ->
      fst r = Ok tt
      /\ polled (snd r) = repeat kid (S n)
      /\ shown (snd r) = [ParseError]
      /\ chat_messages (state (snd r)) = chat_messages s ++ [user_message msg]
      /\ chat_id (state (snd r)) = chat_id s)
  /\ (truthy (reply_result (status_reply E n)) = false ->
      (n < m -> List.length (polled (snd r)) <> S n)
      /\ ((forall k, n <= k -> k < S m ->
             success_without_result (status_reply E k) = true) ->
          fst r = Ok tt
          /\ polled (snd r) = repeat kid (S m)
          /\ shown (snd r) = [TimedOut]
          /\ chat_messages (state (snd r)) = chat_messages s ++ [user_message msg]
          /\ chat_id (state (snd r)) = chat_id s))
  /\ (forall txt rd,
      reply_result (status_reply E n) = JStr txt -> txt <> "" ->
      json_loads E txt = Some (JObj rd) ->
      fst r = Ok tt
      /\ polled (snd r) = repeat kid (S n)
      /\ shown (snd r) = []
      /\ chat_messages (state (snd r))
         = chat_messages s ++ [user_message msg; assistant_message (response_of rd)]
      /\ chat_id (state (snd r))
         = if truthy (id_of rd) then id_of rd else chat_id s).
Proof.
  intros Hk Hn Hpre Hs. cbv zeta.
  assert (Hpre' : forall k, k < n -> chat_repolls (status_reply E k) = true)
    by (intros k Hk'; apply non_terminal_chat_repolls, Hpre, Hk').
  assert (Hans : forall k, k < S n ->
            status_reply E (List.length (polled (polling_starts E msg s)) + k) <> None).
  { intros k Hk'. cbn [polling_starts polled List.length Nat.add].
    destruct (Nat.eq_dec k n) as [-> | Hne].
    - intro Hnone. rewrite Hnone in Hs. discriminate.
    - apply non_terminal_answered, Hpre. lia. }
  split; [|split].
  - intros txt Hr Htxt Hloads.
    pose proof (success_verdict E _ _ Hs Hr Htxt) as Hv. rewrite Hloads in Hv.
    rewrite (chat_turn_stops E m msg s kid n Hk Hn Hpre')
      by (rewrite Hv; discriminate).
    rewrite Hv. cbn [finish show fst snd state polled shown].
    rewrite after_calls_polled, after_calls_state, (after_calls_shown_answered _ _ _ _ Hans).
    repeat split; reflexivity.
  - intro Hempty.
    assert (Hrep : chat_repolls (status_reply E n) = true).
    { apply success_without_result_repolls. unfold success_without_result.
      now rewrite Hs, Hempty. }
    split.
    + intro Hlt. apply (chat_turn_goes_past E m msg s kid n Hk Hrep Hlt).
    + intro Hall.
      assert (Hall' : forall k, k < S m -> chat_repolls (status_reply E k) = true).
      { intros k Hk'. destruct (Nat.lt_ge_cases k n) as [Hlt | Hge].
        - apply Hpre', Hlt.
        - apply success_without_result_repolls, Hall; assumption. }
      rewrite (chat_turn_all_repoll E m msg s kid Hk Hall').
      cbn [show fst snd state polled shown].
      rewrite after_calls_polled, after_calls_state, after_calls_shown_answered.
      * repeat split; reflexivity.
      * intros k Hk' Hnone. cbn [polling_starts polled List.length Nat.add] in Hnone.
        destruct (Nat.lt_ge_cases k n) as [Hlt | Hge].
        -- exact (non_terminal_answered _ (Hpre k Hlt) Hnone).
        -- specialize (Hall k Hge Hk'). rewrite Hnone in Hall. discriminate.
  - intros txt rd Hr Htxt Hloads.
    pose proof (success_verdict E _ _ Hs Hr Htxt) as Hv. rewrite Hloads in Hv.
    rewrite (chat_turn_stops E m msg s kid n Hk Hn Hpre')
      by (rewrite Hv; discriminate).
    rewrite Hv. cbn [finish]. rewrite accept_result_eq. cbv zeta.
    cbn [fst snd state polled shown].
    rewrite after_calls_polled, after_calls_state, (after_calls_shown_answered _ _ _ _ Hans).
    fold (id_of rd). fold (response_of rd).
    destruct (truthy (id_of rd)); repeat split; try reflexivity;
      cbn; rewrite <- app_assoc; reflexivity.
Qed.

(** C3, as the code has it.  When polling reaches SUCCESS after
    non-terminal statuses:
    - a non-empty result that [json.loads] rejects makes the turn fail:
      the parse error is shown, polling stops, no assistant message is
      appended and the conversation id is unchanged;
    - a missing or empty result is not terminal: the loop goes on to its
      next attempt, and if every later status is the same it makes all
      120 attempts and shows the timeout error, with no assistant message
      and the conversation id unchanged;
    - a result that parses to an object is accepted whatever it holds:
      an assistant message carrying its [response] (the empty string when
      absent) is appended and the conversation id becomes its [id] when
      that is truthy. *)
Theorem success_result_policy (E : env) (s : session) (msg : string)
        (kid : json) (n : nat) :
  reply_kickoff_id (kickoff_reply E) = Some kid ->
  n < max_retries ->
  (forall k, k < n -> non_terminal (status_reply E k) = true) ->
  has_state "SUCCESS" (status_reply E n) = true ->
  let r := run (chat_turn E msg) s in
  (forall txt,
      reply_result (status_reply E n) = JStr txt -> txt <> "" ->
      json_loads E txt = None ->
      fst r = Ok tt
      /\ polled (snd r) = repeat kid (S n)
      /\ shown (snd r) = [ParseError]
      /\ chat_messages (state (snd r)) = chat_messages s ++ [user_message msg]
      /\ chat_id (state (snd r)) = chat_id s)
  /\ (truthy (reply_result (status_reply E n)) = false ->
      (n < max_retries - 1 -> List.length (polled (snd r)) <> S n)
      /\ ((forall k, n <= k -> k < max_retries ->
             success_without_result (status_reply E k) = true) ->
          fst r = Ok tt
          /\ polled (snd r) = repeat kid 120
          /\ shown (snd r) = [TimedOut]
          /\ chat_messages (state (snd r)) = chat_messages s ++ [user_message msg]
          /\ chat_id (state (snd r)) = chat_id s))
  /\ (forall txt rd,
      reply_result (status_reply E n) = JStr txt -> txt <> "" ->
      json_loads E txt = Some (JObj rd) ->
      fst r = Ok tt
      /\ polled (snd r) = repeat kid (S n)
      /\ shown (snd r) = []
      /\ chat_messages (state (snd r))
         = chat_messages s ++ [user_message msg; assistant_message (response_of rd)]
      /\ chat_id (state (snd r))
         = if truthy (id_of rd) then id_of rd else chat_id s).
Proof.
  intros Hk Hn Hpre Hs.
  assert (Hn' : n <= 119) by (unfold max_retries in Hn; lia).
  exact (success_result_policy_at E 119 s msg kid n Hk Hn' Hpre Hs).
Qed.

(** C3 at a sample run: SUCCESS at the first status call, with a result
    that is not JSON. *)
Lemma success_result_policy_witness :
  let E := sample_env kickoff_k1 success_garbled in
  let r := run (chat_turn E "Hello") initial_session in
  has_state "SUCCESS" (status_reply E 0) = true
  /\ shown (snd r) = [ParseError]
  /\ chat_messages (state (snd r)) = [user_message "Hello"].
Proof.
  cbv zeta.
  assert (H0 : 0 < max_retries) by (unfold max_retries; lia).
  destruct (success_result_policy (sample_env kickoff_k1 success_garbled)
              initial_session "Hello" (JStr "k1") 0 eq_refl H0
              (fun k (Hk : k < 0) => match Nat.nlt_0_r k Hk with end) eq_refl)
    as (Hparse & _).
  destruct (Hparse "oops" eq_refl) as (_ & _ & H1 & H2 & _);
    [discriminate | reflexivity |].
  split; [reflexivity|]. split; assumption.
Defined.

(** C3 as stated fails: SUCCESS with the result ["{}"], which parses but
    is blank, appends an assistant message with empty content and shows
    no error. *)
Lemma blank_result_appends_blank_message :
  let E := sample_env kickoff_k1 success_blank in
  let r := run (chat_turn E "Hello") initial_session in
  status_reply E 0 = Some (success_with "{}")
  /\ json_loads E "{}" = Some (JObj [])
  /\ fst r = Ok tt
  /\ shown (snd r) = []
  /\ chat_messages (state (snd r))
     = [user_message "Hello"; assistant_message (JStr "")].
Proof. vm_compute. repeat split; reflexivity. Qed.

(** ** The chat turn when the kickoff gives no id *)

(** Without a [kickoff_id] entry the turn ends after the kickoff call:
    nothing is polled, the session is as [chat_prepare] left it, and what
    is raised and shown depends on the reply alone. *)
Lemma chat_turn_not_started E :
  reply_kickoff_id (kickoff_reply E) = None ->
  exists res l,
    forall max msg s,
      run (chat_turn_with E max msg) s
      = (res, {| state := prepared msg s;
                 posted := [chat_input_data (chat_id s) msg];
                 polled := [];
                 shown := l |}).
Proof.
  unfold reply_kickoff_id, run, chat_turn_with, chat_exchange_with, chat_prepare.
  unfold bind, modify, gets, api_request_kickoff, has_kickoff_id.
  destruct (kickoff_reply E) as [v|] eqn:Hk.
  2: { intros _. eexists; eexists; intros; cbn; unfold when, show; cbn; reflexivity. }
  destruct v as [| b | z | q | str | l | d]; intro Hd.
  - eexists; eexists; intros; cbn; unfold when, show; cbn; reflexivity.
  - destruct b; eexists; eexists; intros; cbn; unfold when, show; cbn; reflexivity.
  - cbn [truthy]. destruct (negb (z =? 0)%Z); eexists; eexists; intros; cbn; unfold when, show; cbn; reflexivity.
  - cbn [truthy]. destruct (negb (Qnum q =? 0)%Z); eexists; eexists; intros; cbn; unfold when, show; cbn; reflexivity.
  - cbn [truthy py_in py_index].
    destruct (negb (String.eqb str "")) eqn:Hs;
      [destruct (str_contains "kickoff_id" str)|];
      eexists; eexists; intros; cbn; rewrite ?Hs; unfold when, show; cbn; reflexivity.
  - cbn [truthy py_in py_index].
    destruct l as [|x l]; [|destruct (existsb (fun x => eq_str x "kickoff_id") (x :: l))];
      eexists; eexists; intros; cbn; unfold when, show; cbn; reflexivity.
  - cbn [truthy py_in py_index]. rewrite Hd.
    destruct d; eexists; eexists; intros; cbn; unfold when, show; cbn; reflexivity.
Qed.

(** A kickoff reply lacking a [kickoff_id] is reported as such. *)
Lemma chat_turn_kickoff_lacking E max msg s :
  lacks_kickoff_id (kickoff_reply E) = true ->
  let r := run (chat_turn_with E max msg) s in
  fst r = Ok tt /\ In NoKickoffId (shown (snd r)).
Proof.
  unfold lacks_kickoff_id, run, chat_turn_with, chat_exchange_with, chat_prepare.
  unfold bind, modify, gets, api_request_kickoff, has_kickoff_id.
  destruct (kickoff_reply E) as [[| | | | | |d]|]; try discriminate.
  - intros _. cbn. auto.
  - cbn [truthy py_in]. destruct (dict_get d "kickoff_id"); [discriminate|].
    intros _. destruct d; cbn; auto.
  - intros _. cbn. auto.
Qed.

Lemma lacks_kickoff_id_none r :
  lacks_kickoff_id r = true -> reply_kickoff_id r = None.
Proof.
  unfold lacks_kickoff_id, reply_kickoff_id.
  destruct r as [[| | | | | |d]|]; try discriminate; try reflexivity.
  destruct (dict_get d "kickoff_id"); [discriminate | reflexivity].
Qed.

(** ** What a chat turn can do to the session *)

Lemma accepted_verdict_inv E n rd :
  chat_verdict E (status_reply E n) = Accepted rd ->
  exists d txt,
    status_reply E n = Some (JObj d)
    /\ dict_get d "state" = Some (JStr "SUCCESS")
    /\ dict_get d "result" = Some (JStr txt)
    /\ json_loads E txt = Some rd.
Proof.
  unfold chat_verdict, reply_result.
  destruct (status_reply E n) as [v|]; cbn [body_of]; [|discriminate].
  destruct (truthy v); [|discriminate].
  destruct v; try discriminate.
  destruct (dict_get d "state") as [st|] eqn:Hst; cbn [eq_str andb].
  - destruct (eq_str st "SUCCESS") eqn:Hs; cbn [andb].
    + apply eq_str_true in Hs. subst st.
      destruct (dict_get d "result") as [res|] eqn:Hres; cbn [truthy].
      * destruct (truthy res).
        -- destruct res; try discriminate.
           destruct (json_loads E s) eqn:Hl; [|discriminate].
           intro H. injection H as <-. now exists d, s.
        -- cbn. discriminate.
      * cbn. discriminate.
    + destruct (eq_str st "FAILURE" || eq_str st "TIMEOUT"); discriminate.
  - discriminate.
Qed.

(** Everything a chat turn leaves behind, whatever the replies. *)
Lemma chat_turn_summary E m msg s :
  let r := run (chat_turn_with E (S m) msg) s in
  let s' := state (snd r) in
  processing s' = processing s
  /\ kickoff_id s' = kickoff_id s
  /\ upload_complete s' = upload_complete s
  /\ _submit_clicked s' = Some false
  /\ posted (snd r) = [chat_input_data (chat_id s) msg]
  /\ (exists k, polled (snd r)
                = repeat (body_of (reply_kickoff_id (kickoff_reply E))) k
                /\ k <= S m
                /\ (reply_kickoff_id (kickoff_reply E) = None -> k = 0)
                /\ (reply_kickoff_id (kickoff_reply E) <> None -> 0 < k))
  /\ ((chat_messages s' = chat_messages s ++ [user_message msg]
       /\ chat_id s' = chat_id s)
      \/ exists rd,
           accepted_result E rd
           /\ fst r = Ok tt
           /\ chat_messages s'
              = chat_messages s ++ [user_message msg; assistant_message (response_of rd)]
           /\ chat_id s' = if truthy (id_of rd) then id_of rd else chat_id s).
Proof.
  cbv zeta. destruct (reply_kickoff_id (kickoff_reply E)) as [kid|] eqn:Hk.
  - destruct (chat_turn_cases E m msg s kid Hk)
      as (n & Hn & [(Hstop & Heq) | (-> & _ & Heq)]); rewrite Heq; clear Heq.
    + set (w := after_calls E kid (S n) (polling_starts E msg s)).
      assert (Hw : state w = prepared msg s) by apply after_calls_state.
      assert (Hp : polled w = repeat kid (S n))
        by (unfold w; rewrite after_calls_polled; reflexivity).
      assert (Hpo : posted w = [chat_input_data (chat_id s) msg])
        by (unfold w; rewrite after_calls_posted; reflexivity).
      destruct (finish_logs (chat_verdict E (status_reply E n)) w) as [Hl1 Hl2].
      rewrite Hl1, Hl2, Hp, Hpo.
      assert (Hpoll : exists k, repeat kid (S n) = repeat (body_of (Some kid)) k
                                /\ k <= S m /\ (Some kid = None -> k = 0)
                                /\ (Some kid <> None -> 0 < k)).
      { exists (S n). repeat split; [lia | discriminate | lia]. }
      destruct (chat_verdict E (status_reply E n)) as [| st | rd | | e] eqn:Hv;
        try (cbn [finish show ret raise fst snd state]; rewrite Hw; cbn;
             repeat split; auto; fail).
      cbn [finish]. rewrite accept_result_eq.
      destruct rd as [| | | | | |rd];
        try (cbn [fst snd state]; rewrite Hw; cbn; repeat split; auto; fail).
      cbv zeta. cbn [fst snd state]. rewrite Hw. unfold id_of, response_of.
      destruct (accepted_verdict_inv E n _ Hv) as (d & txt & H1 & H2 & H3 & H4).
      assert (Hacc : accepted_result E rd) by (now exists n, d, txt).
      assert (Hmsgs : forall l (a b : message), (l ++ [a]) ++ [b] = l ++ [a; b])
        by (intros; now rewrite <- app_assoc).
      destruct (truthy match dict_get rd "id" with Some x => x | None => JNull end) eqn:Ht;
        cbn [append_message set_chat_messages set_chat_id set_submit_clicked
             prepared chat_messages chat_id processing kickoff_id
             upload_complete _submit_clicked];
        (split; [reflexivity|]); (split; [reflexivity|]); (split; [reflexivity|]);
        (split; [reflexivity|]); (split; [reflexivity|]); (split; [exact Hpoll|]);
        right; exists rd; (split; [exact Hacc|]); (split; [reflexivity|]);
        (split; [apply Hmsgs | unfold id_of; rewrite Ht; reflexivity]).
    + cbn [show fst snd state posted polled].
      rewrite after_calls_state, after_calls_polled, after_calls_posted. cbn.
      repeat split; auto.
      exists (S m). repeat split; [lia | discriminate | lia].
  - destruct (chat_turn_not_started E Hk) as (res & l & Heq). rewrite Heq.
    cbn. repeat split; auto. exists 0. repeat split; [lia | congruence].
Qed.

(** A run of the chat tab is a chat turn or, without one, the
    "Clear Chat" handler when that button was clicked. *)
Lemma tab3_cases E msg send_clicked clear_clicked s :
  run (tab3 E msg send_clicked clear_clicked) s
  = run (chat_turn E msg) (if send_clicked then set_submit_clicked true s else s)
  \/ run (tab3 E msg send_clicked clear_clicked) s
     = run (when clear_clicked clear_chat) s.
Proof.
  unfold run, tab3, bind, when, gets, modify, ret.
  destruct send_clicked; cbn [orb initial_world state posted polled shown].
  - left. reflexivity.
  - destruct (negb (String.eqb msg "")
              && match _submit_clicked s with Some b => b | None => false end).
    + left. reflexivity.
    + right. reflexivity.
Qed.

(** C10: a chat turn, whatever the replies and however it ends
    (assistant reply, kickoff failure, job error, poll timeout, parse
    error, uncaught exception), leaves [kickoff_id], [processing] and
    [upload_complete] as they were; so does a whole run of the chat tab,
    "Clear Chat" included. *)
Theorem chat_turn_frame (E : env) (msg : string) (s : session) :
  (let s' := state (snd (run (chat_turn E msg) s)) in
   kickoff_id s' = kickoff_id s
   /\ processing s' = processing s
   /\ upload_complete s' = upload_complete s)
  /\ (forall send_clicked clear_clicked,
        let s' := state (snd (run (tab3 E msg send_clicked clear_clicked) s)) in
        kickoff_id s' = kickoff_id s
        /\ processing s' = processing s
        /\ upload_complete s' = upload_complete s).
Proof.
  assert (Hturn : forall s0,
            let s' := state (snd (run (chat_turn E msg) s0)) in
            kickoff_id s' = kickoff_id s0
            /\ processing s' = processing s0
            /\ upload_complete s' = upload_complete s0).
  { intro s0. destruct (chat_turn_summary E 119 msg s0) as (H1 & H2 & H3 & _).
    cbv zeta. auto. }
  split; [apply Hturn|].
  intros send_clicked clear_clicked. cbv zeta.
  destruct (tab3_cases E msg send_clicked clear_clicked s) as [-> | ->].
  - destruct (Hturn (if send_clicked then set_submit_clicked true s else s))
      as (H1 & H2 & H3).
    rewrite H1, H2, H3. destruct send_clicked; repeat split; reflexivity.
  - destruct clear_clicked; cbn; repeat split; reflexivity.
Qed.

(** C6: the user's message is appended by [chat_prepare], which sends
    nothing, before the exchange with the API; whatever the replies, the
    transcript after the turn is the old one, then that message, then at
    most one assistant message; and when the kickoff reply lacks a
    [kickoff_id] the failure is shown, nothing is polled, the transcript
    ends with the user's message and [chat_id], [kickoff_id],
    [processing] and [upload_complete] are unchanged (the transient
    [_submit_clicked] flag was reset when the turn began). *)
Theorem user_message_kept (E : env) (msg : string) (s : session) :
  (let p := run (chat_prepare msg) s in
   fst p = Ok tt
   /\ posted (snd p) = [] /\ polled (snd p) = []
   /\ chat_messages (state (snd p)) = chat_messages s ++ [user_message msg])
  /\ chat_turn E msg = (chat_prepare msg ;; chat_exchange_with E max_retries msg)
  /\ (let s' := state (snd (run (chat_turn E msg) s)) in
      exists tail,
        chat_messages s' = chat_messages s ++ user_message msg :: tail
        /\ (tail = [] \/ exists c, tail = [assistant_message c]))
  /\ (lacks_kickoff_id (kickoff_reply E) = true ->
      let r := run (chat_turn E msg) s in
      let s' := state (snd r) in
      fst r = Ok tt
      /\ In NoKickoffId (shown (snd r))
      /\ polled (snd r) = []
      /\ chat_messages s' = chat_messages s ++ [user_message msg]
      /\ chat_id s' = chat_id s
      /\ kickoff_id s' = kickoff_id s
      /\ processing s' = processing s
      /\ upload_complete s' = upload_complete s
      /\ _submit_clicked s' = Some false).
Proof.
  split; [|split; [|split]].
  - cbn. repeat split; reflexivity.
  - reflexivity.
  - cbv zeta.
    destruct (chat_turn_summary E 119 msg s)
      as (_ & _ & _ & _ & _ & _ & [(Hm & _) | (rd & _ & _ & Hm & _)]).
    + exists []. split; [exact Hm | now left].
    + exists [assistant_message (response_of rd)]. split; [exact Hm|].
      right. now exists (response_of rd).
  - intro Hlacks. cbv zeta.
    destruct (chat_turn_kickoff_lacking E max_retries msg s Hlacks) as (Hok & Hshown).
    destruct (chat_turn_not_started E (lacks_kickoff_id_none _ Hlacks)) as (res & l & Heq).
    unfold chat_turn. rewrite (Heq max_retries msg s) in *.
    cbn [fst snd state polled shown] in *.
    repeat split; auto.
Qed.

(** ** The conversation id *)

Lemma same_chat_after_call E id w1 w2 :
  same_chat w1 w2 -> same_chat (after_call E id w1) (after_call E id w2).
Proof.
  intros (H1 & H2 & H3 & H4 & H5 & H6). unfold same_chat, after_call.
  cbn [state posted polled shown]. rewrite H4, H5, H6. auto 10.
Qed.

Lemma same_chat_show m w1 w2 :
  same_chat w1 w2 -> same_chat (snd (show m w1)) (snd (show m w2)).
Proof.
  intros (H1 & H2 & H3 & H4 & H5 & H6). unfold same_chat, show.
  cbn [snd state posted polled shown]. rewrite H6. auto 10.
Qed.

Lemma same_chat_finish v w1 w2 :
  same_chat w1 w2 ->
  fst (finish v w1) = fst (finish v w2)
  /\ same_chat (snd (finish v w1)) (snd (finish v w2)).
Proof.
  intro H. destruct v; cbn [finish]; try (split; [reflexivity | exact H]);
    try (split; [reflexivity | now apply same_chat_show]).
  rewrite !accept_result_eq. destruct result_data; try (split; [reflexivity | exact H]).
  cbv zeta. split; [reflexivity|].
  destruct H as (H1 & H2 & H3 & H4 & H5 & H6). unfold same_chat.
  cbn [snd state posted polled shown].
  destruct (truthy match dict_get d "id" with Some x => x | None => JNull end);
    cbn; rewrite H1; auto 10.
Qed.

(** The chat loop reads nothing but the chat fields and the logs. *)
Lemma chat_poll_loop_same_chat E kid max :
  forall remaining i w1 w2,
    same_chat w1 w2 ->
    fst (chat_poll_loop E kid max remaining i w1)
    = fst (chat_poll_loop E kid max remaining i w2)
    /\ same_chat (snd (chat_poll_loop E kid max remaining i w1))
                 (snd (chat_poll_loop E kid max remaining i w2)).
Proof.
  induction remaining; intros i w1 w2 H.
  - cbn. split; [reflexivity | exact H].
  - rewrite !chat_poll_loop_step.
    assert (Hp : polled w1 = polled w2) by apply H. rewrite Hp.
    pose proof (same_chat_after_call E kid _ _ H) as Hc.
    destruct (chat_verdict E (status_reply E (List.length (polled w2))));
      try (apply (same_chat_finish _ _ _ Hc)).
    destruct (i =? max - 1).
    + unfold bind, show. cbn [fst snd].
      apply IHremaining. apply (same_chat_show TimedOut _ _ Hc).
    + apply IHremaining. exact Hc.
Qed.

(** A chat turn behaves the same from two sessions with the same
    transcript and conversation id. *)
Lemma chat_turn_same_chat E max msg s1 s2 :
  chat_messages s1 = chat_messages s2 ->
  chat_id s1 = chat_id s2 ->
  fst (run (chat_turn_with E max msg) s1) = fst (run (chat_turn_with E max msg) s2)
  /\ same_chat (snd (run (chat_turn_with E max msg) s1))
               (snd (run (chat_turn_with E max msg) s2)).
Proof.
  intros Hm Hc.
  destruct (reply_kickoff_id (kickoff_reply E)) as [kid|] eqn:Hk.
  - rewrite !(chat_turn_started _ _ _ _ _ Hk).
    apply chat_poll_loop_same_chat.
    unfold same_chat, polling_starts, prepared. cbn. rewrite Hm, Hc. auto 10.
  - destruct (chat_turn_not_started E Hk) as (res & l & Heq). rewrite !Heq.
    unfold same_chat, prepared. cbn. rewrite Hm, Hc. auto 10.
Qed.

(** ** The bulk handlers *)

(** The bulk loop only ever clears [processing], and polls the stored
    kickoff id. *)
Lemma auto_poll_loop_summary E :
  forall remaining attempts w,
    let r := auto_poll_loop E remaining attempts w in
    (state (snd r) = state w \/ state (snd r) = set_processing false (state w))
    /\ posted (snd r) = posted w
    /\ exists n, n <= remaining
                 /\ polled (snd r) = polled w ++ repeat (kickoff_id (state w)) n.
Proof.
  induction remaining; intros attempts w; cbv zeta.
  - cbn. repeat split; auto. exists 0. split; [lia | now rewrite app_nil_r].
  - rewrite auto_poll_loop_step. cbv zeta.
    destruct (bulk_verdict_of (status_reply E (List.length (polled w)))).
    + rewrite bind_show.
      match goal with |- context [auto_poll_loop E remaining (S attempts) ?x] =>
        set (w1 := x) end.
      destruct (IHremaining (S attempts) w1) as (Hs & Hp & n & Hn & Hq).
      change (state w1) with (state w) in Hs, Hq.
      change (posted w1) with (posted w) in Hp.
      change (polled w1) with (polled w ++ [kickoff_id (state w)]) in Hq.
      split; [exact Hs|]. split; [exact Hp|].
      exists (S n). split; [lia|]. rewrite Hq. cbn. now rewrite <- app_assoc.
    + cbn. repeat split; auto. exists 1. split; [lia | reflexivity].
    + cbn. repeat split; auto. exists 1. split; [lia | reflexivity].
    + cbn. repeat split; auto. exists 1. split; [lia | reflexivity].
Qed.

Lemma auto_poll_with_summary E max w :
  let r := auto_poll_with E max w in
  (state (snd r) = state w \/ state (snd r) = set_processing false (state w))
  /\ posted (snd r) = posted w
  /\ exists n, polled (snd r) = polled w ++ repeat (kickoff_id (state w)) n.
Proof.
  cbv zeta. unfold auto_poll_with. unfold bind at 1 3 5 7.
  destruct (auto_poll_loop_summary E max 0 w) as (Hs & Hp & n & _ & Hq).
  destruct (auto_poll_loop E max 0 w) as [[[complete attempts]|e] w'];
    cbn [fst snd] in *.
  - destruct ((max <=? attempts) && negb complete); cbn;
      (split; [exact Hs | split; [exact Hp | exists n; exact Hq]]).
  - split; [exact Hs | split; [exact Hp | exists n; exact Hq]].
Qed.

Lemma process_all_started E s v :
  reply_kickoff_id (kickoff_reply E) = Some v ->
  run (process_all_documents E) s
  = (Ok tt, {| state := set_kickoff_id v (kicked_off s);
               posted := [bulk_input_data];
               polled := [];
               shown := [KickoffSucceeded v] |}).
Proof.
  unfold reply_kickoff_id. destruct (kickoff_reply E) as [[| | | | | |d]|] eqn:Hk;
    try discriminate.
  intro Hd. unfold run, process_all_documents.
  unfold bind, modify, api_request_kickoff, has_kickoff_id. rewrite Hk.
  destruct d; [discriminate|]. cbn [truthy py_in py_index]. rewrite Hd.
  reflexivity.
Qed.

(** Without a [kickoff_id] entry nothing is stored and no success is
    shown; when the handler completes it has cleared [processing]. *)
Lemma process_all_not_started E :
  reply_kickoff_id (kickoff_reply E) = None ->
  exists res l b,
    (forall s,
        run (process_all_documents E) s
        = (res, {| state := set_processing b (kicked_off s);
                   posted := [bulk_input_data];
                   polled := [];
                   shown := l |}))
    /\ (res = Ok tt -> b = false)
    /\ (forall v, ~ In (KickoffSucceeded v) l)
    /\ (lacks_kickoff_id (kickoff_reply E) = true -> res = Ok tt /\ In KickoffFailed l).
Proof.
  unfold reply_kickoff_id, lacks_kickoff_id, run, process_all_documents, kicked_off.
  unfold bind, modify, api_request_kickoff, has_kickoff_id.
  assert (Hno1 : forall v, ~ In (KickoffSucceeded v) [KickoffFailed])
    by (intros v [H|[]]; discriminate).
  assert (Hno2 : forall v, ~ In (KickoffSucceeded v) [ApiRequestFailed; KickoffFailed])
    by (intros v [H|[H|[]]]; discriminate).
  assert (Hno0 : forall v, ~ In (KickoffSucceeded v) []) by (intros v []).
  destruct (kickoff_reply E) as [v|] eqn:Hk.
  2: { intros _. exists (Ok tt), [ApiRequestFailed; KickoffFailed], false.
       repeat split; auto. cbn. auto. }
  destruct v as [| b | z | q | str | l | d]; intro Hd.
  - exists (Ok tt), [KickoffFailed], false. repeat split; auto. cbn; auto.
  - destruct b.
    + exists (Raise TypeError), [], true. repeat split; auto; discriminate.
    + exists (Ok tt), [KickoffFailed], false. repeat split; auto; discriminate.
  - cbn [truthy]. destruct (negb (z =? 0)%Z).
    + exists (Raise TypeError), [], true. repeat split; auto; discriminate.
    + exists (Ok tt), [KickoffFailed], false. repeat split; auto; discriminate.
  - cbn [truthy]. destruct (negb (Qnum q =? 0)%Z).
    + exists (Raise TypeError), [], true. repeat split; auto; discriminate.
    + exists (Ok tt), [KickoffFailed], false. repeat split; auto; discriminate.
  - cbn [truthy py_in py_index].
    destruct (negb (String.eqb str "")); [destruct (str_contains "kickoff_id" str)|].
    + exists (Raise TypeError), [], true. repeat split; auto; discriminate.
    + exists (Ok tt), [KickoffFailed], false. repeat split; auto; discriminate.
    + exists (Ok tt), [KickoffFailed], false. repeat split; auto; discriminate.
  - cbn [truthy py_in py_index].
    destruct l as [|x l]; [|destruct (existsb (fun x => eq_str x "kickoff_id") (x :: l))].
    + exists (Ok tt), [KickoffFailed], false. repeat split; auto; discriminate.
    + exists (Raise TypeError), [], true. repeat split; auto; discriminate.
    + exists (Ok tt), [KickoffFailed], false. repeat split; auto; discriminate.
  - cbn [truthy py_in py_index]. rewrite Hd.
    exists (Ok tt), [KickoffFailed], false.
    destruct d; repeat split; auto; cbn; auto.
Qed.

Lemma refresh_status_summary E w :
  let r := refresh_status E w in
  (state (snd r) = state w \/ state (snd r) = set_processing false (state w))
  /\ posted (snd r) = posted w
  /\ polled (snd r) = polled w ++ [kickoff_id (state w)].
Proof.
  cbv zeta. unfold refresh_status.
  rewrite bind_gets.
  rewrite (bind_ok _ _ _ _ _ (api_request_status_eq E (kickoff_id (state w)) w)).
  destruct (truthy (body_of (status_reply E (List.length (polled w))))).
  - destruct (body_of (status_reply E (List.length (polled w)))); cbn [py_get];
      try (cbn; repeat split; auto; fail).
    rewrite bind_ret, bind_show.
    destruct (eq_str _ "SUCCESS"); cbn; repeat split; auto.
  - cbn. repeat split; auto.
Qed.

(** The status section polls nothing unless the stored kickoff id is
    truthy, polls only that id, and only ever clears [processing]. *)
Lemma status_section_summary E refresh_clicked w :
  let r := status_section E refresh_clicked w in
  (state (snd r) = state w \/ state (snd r) = set_processing false (state w))
  /\ posted (snd r) = posted w
  /\ exists n, polled (snd r) = polled w ++ repeat (kickoff_id (state w)) n
               /\ (truthy (kickoff_id (state w)) = false -> n = 0).
Proof.
  cbv zeta. unfold status_section.
  rewrite bind_gets.
  destruct (truthy (kickoff_id (state w))) eqn:Ht.
  2: { cbn. repeat split; auto. exists 0. now rewrite app_nil_r. }
  rewrite bind_show. set (w0 := snd (show (InProgress (kickoff_id (state w))) w)).
  assert (Hrefresh : exists res w1 n1,
             when refresh_clicked (refresh_status E) w0 = (res, w1)
             /\ (state w1 = state w \/ state w1 = set_processing false (state w))
             /\ posted w1 = posted w
             /\ polled w1 = polled w ++ repeat (kickoff_id (state w)) n1).
  { destruct refresh_clicked; cbn [when].
    - destruct (refresh_status_summary E w0) as (Hs & Hp & Hq).
      destruct (refresh_status E w0) as [res w1] eqn:Hr. cbn [snd] in *.
      exists res, w1, 1. repeat split; auto.
    - exists (Ok tt), w0, 0. cbn. rewrite app_nil_r. repeat split; auto. }
  destruct Hrefresh as (res & w1 & n1 & Hr & Hs1 & Hp1 & Hq1).
  destruct res as [[]|e].
  2: { rewrite (bind_raise _ _ _ _ _ Hr). cbn [snd].
       repeat split; auto. exists n1. split; [exact Hq1 | discriminate]. }
  rewrite (bind_ok _ _ _ _ _ Hr).
  rewrite bind_gets.
  assert (Hk1 : kickoff_id (state w1) = kickoff_id (state w))
    by (destruct Hs1 as [-> | ->]; reflexivity).
  destruct (processing (state w1)); cbn [when].
  - destruct (auto_poll_with_summary E max_attempts w1) as (Hs2 & Hp2 & n2 & Hq2).
    fold (auto_poll E) in Hs2, Hp2, Hq2.
    rewrite Hp2, Hq2, Hq1, Hp1, Hk1. split; [|split; [reflexivity|]].
    + destruct Hs2 as [-> | ->]; destruct Hs1 as [-> | ->]; auto.
    + exists (n1 + n2). rewrite repeat_app, app_assoc. split; [reflexivity | discriminate].
  - cbn. repeat split; auto. exists n1. split; [exact Hq1 | discriminate].
Qed.

(** An iteration of the bulk loop starts with a status call for the
    stored id. *)
Lemma auto_poll_loop_first E remaining attempts w :
  exists l,
    polled (snd (auto_poll_loop E (S remaining) attempts w))
    = polled w ++ kickoff_id (state w) :: l.
Proof.
  rewrite auto_poll_loop_step. cbv zeta.
  destruct (bulk_verdict_of (status_reply E (List.length (polled w)))).
  - rewrite bind_show.
    match goal with |- context [auto_poll_loop E remaining (S attempts) ?x] =>
      set (w1 := x) end.
    destruct (auto_poll_loop_summary E remaining (S attempts) w1)
      as (_ & _ & n & _ & Hq).
    change (polled w1) with (polled w ++ [kickoff_id (state w)]) in Hq.
    rewrite Hq, <- app_assoc. now eexists.
  - exists []. reflexivity.
  - exists []. reflexivity.
  - exists []. reflexivity.
Qed.

Lemma auto_poll_with_first E max w :
  exists l,
    polled (snd (auto_poll_with E (S max) w)) = polled w ++ kickoff_id (state w) :: l.
Proof.
  unfold auto_poll_with. unfold bind at 1.
  destruct (auto_poll_loop_first E max 0 w) as [l Hl].
  destruct (auto_poll_loop E (S max) 0 w) as [[[complete attempts]|e] w'];
    cbn [fst snd] in *.
  - destruct ((S max <=? attempts) && negb complete); cbn; now exists l.
  - now exists l.
Qed.











(** Tab 2 leaves the chat fields alone. *)
Lemma tab2_chat_frame E process_clicked refresh_clicked s :
  let s' := state (snd (run (tab2 E process_clicked refresh_clicked) s)) in
  chat_id s' = chat_id s /\ chat_messages s' = chat_messages s.
Proof.
  cbv zeta. unfold run, tab2.
  assert (Hsec : forall w,
            chat_id (state w) = chat_id s -> chat_messages (state w) = chat_messages s ->
            chat_id (state (snd (status_section E refresh_clicked w))) = chat_id s
            /\ chat_messages (state (snd (status_section E refresh_clicked w)))
               = chat_messages s).
  { intros w H1 H2.
    destruct (status_section_summary E refresh_clicked w) as ([-> | ->] & _); auto. }
  destruct process_clicked; cbn [when].
  - destruct (reply_kickoff_id (kickoff_reply E)) as [v|] eqn:Hk.
    + pose proof (process_all_started E s v Hk) as Hrun. unfold run in Hrun.
      rewrite (bind_ok _ _ _ _ _ Hrun). apply Hsec; reflexivity.
    + destruct (process_all_not_started E Hk) as (res & l & b & Heq & _).
      specialize (Heq s). unfold run in Heq. destruct res as [[]|e].
      * rewrite (bind_ok _ _ _ _ _ Heq). apply Hsec; reflexivity.
      * rewrite (bind_raise _ _ _ _ _ Heq). split; reflexivity.
  - rewrite bind_ret. apply Hsec; reflexivity.
Qed.

Lemma truthy_not_None v : truthy v = true -> v <> JNull.
Proof. intros H ->. discriminate. Qed.

Lemma payload_id_set cid msg :
  cid <> JNull -> payload_id (chat_input_data cid msg) = Some cid.
Proof. destruct cid; [congruence | reflexivity ..]. Qed.

(** What one chat turn does to the conversation id. *)
Lemma chat_turn_chat_id E m msg s :
  let s' := state (snd (run (chat_turn_with E (S m) msg) s)) in
  (chat_id s' = chat_id s
   \/ exists rd, accepted_result E rd /\ dict_get rd "id" = Some (chat_id s'))
  /\ (chat_id s <> JNull -> chat_id s' <> JNull).
Proof.
  cbv zeta.
  destruct (chat_turn_summary E m msg s)
    as (_ & _ & _ & _ & _ & _ & [(_ & Hc) | (rd & Hacc & _ & _ & Hc)]).
  - rewrite Hc. auto.
  - rewrite Hc. unfold id_of.
    destruct (dict_get rd "id") as [v|] eqn:Hid; cbn [truthy].
    + destruct (truthy v) eqn:Hv; [|auto].
      split; [right; now exists rd | intros _; now apply truthy_not_None].
    + auto.
Qed.

Lemma chat_turns_payloads turns :
  forall s, chat_id s <> JNull ->
            Forall (fun body => payload_id body <> None) (snd (chat_turns turns s)).
Proof.
  induction turns as [|[E msg] rest IH]; intros s Hset; cbn [chat_turns].
  - constructor.
  - destruct (chat_turn_summary E 119 msg s) as (_ & _ & _ & _ & Hposted & _).
    destruct (chat_turn_chat_id E 119 msg s) as [_ Hkeep].
    specialize (IH _ (Hkeep Hset)).
    change (chat_turn_with E 120 msg) with (chat_turn E msg) in *.
    destruct (chat_turns rest (state (snd (run (chat_turn E msg) s)))) as [s' bodies].
    cbn [snd] in *. rewrite Hposted. cbn [app]. constructor; [|exact IH].
    rewrite (payload_id_set _ _ Hset). discriminate.
Qed.

(** C4: the conversation id is sticky and never made up.  After a chat
    turn it is the old one or, verbatim, the [id] entry of the parsed
    result of a SUCCESS status; tab 2 never touches it.  The one kickoff
    body a turn sends carries it as [id] when it is set and has no [id]
    when it is not; a turn never unsets it, so every kickoff of every
    later turn carries an id.  "Clear Chat" empties the transcript and
    unsets it, the next kickoff body then has no [id], and the turn after
    clearing is the first-ever turn: same outcome, same requests, same
    messages shown, same transcript and conversation id. *)
Theorem chat_id_sticky (E : env) (msg : string) (s : session) :
  (let s' := state (snd (run (chat_turn E msg) s)) in
   chat_id s' = chat_id s
   \/ exists rd, accepted_result E rd /\ dict_get rd "id" = Some (chat_id s'))
  /\ (forall process_clicked refresh_clicked,
        chat_id (state (snd (run (tab2 E process_clicked refresh_clicked) s)))
        = chat_id s)
  /\ posted (snd (run (chat_turn E msg) s)) = [chat_input_data (chat_id s) msg]
  /\ (chat_id s <> JNull ->
      payload_id (chat_input_data (chat_id s) msg) = Some (chat_id s)
      /\ chat_id (state (snd (run (chat_turn E msg) s))) <> JNull
      /\ forall turns,
           Forall (fun body => payload_id body <> None) (snd (chat_turns turns s)))
  /\ (chat_id s = JNull -> payload_id (chat_input_data (chat_id s) msg) = None)
  /\ (let c := state (snd (run clear_chat s)) in
      chat_messages c = []
      /\ chat_id c = JNull
      /\ payload_id (chat_input_data (chat_id c) msg) = None
      /\ fst (run (chat_turn E msg) c) = fst (run (chat_turn E msg) initial_session)
      /\ same_chat (snd (run (chat_turn E msg) c))
                   (snd (run (chat_turn E msg) initial_session))).
Proof.
  destruct (chat_turn_chat_id E 119 msg s) as [Horigin Hkeep].
  destruct (chat_turn_summary E 119 msg s) as (_ & _ & _ & _ & Hposted & _).
  split; [exact Horigin|]. split; [|split; [exact Hposted|split; [|split]]].
  - intros p r. apply (tab2_chat_frame E p r s).
  - intro Hset. split; [now apply payload_id_set|]. split; [exact (Hkeep Hset)|].
    intro turns. now apply chat_turns_payloads.
  - intros ->. reflexivity.
  - cbv zeta. split; [reflexivity|]. split; [reflexivity|]. split; [reflexivity|].
    apply (chat_turn_same_chat E 120 msg); reflexivity.
Qed.

(** ** Submitting *)









(** ** Listing a folder *)

Lemma flat_map_page_files bucket prefix pages :
  flat_map (page_files bucket prefix) pages
  = map (file_info_of bucket) (filter (is_file prefix) (page_contents pages)).
Proof.
  unfold page_contents. induction pages as [|[contents|] pages IH]; cbn [flat_map].
  - reflexivity.
  - rewrite IH. cbn [page_files]. now rewrite filter_app, map_app.
  - rewrite IH. reflexivity.
Qed.

Lemma tenths_nearest n d :
  (0 < d)%Z -> (Z.abs (10 * n - d * tenths n d) * 2 <= d)%Z.
Proof.
  intro Hd. unfold tenths.
  pose proof (Z.div_mod (10 * n) d ltac:(lia)) as Hdm.
  pose proof (Z.mod_pos_bound (10 * n) d Hd) as Hb.
  set (q := (10 * n / d)%Z) in *. set (r := (10 * n mod d)%Z) in *.
  destruct (2 * r <? d)%Z eqn:H1; [apply Z.ltb_lt in H1; lia|].
  apply Z.ltb_ge in H1.
  destruct (d <? 2 * r)%Z eqn:H2; [apply Z.ltb_lt in H2; lia|].
  apply Z.ltb_ge in H2.
  destruct (Z.even q); lia.
Qed.

(** C8, as the code has it, for objects of less than 2^53 bytes (up to
    there the float division of the size is exact).  The listing is the
    same however the store pages its answer: one entry, in the store's
    order, for every object it returned whose key is not the prefix
    itself and does not end in a slash (whatever its length), named by
    what follows the last slash of its key, so that objects nested below
    the folder are listed too; a failing store gives the empty list.
    Sizes below 1024 are rendered as the number followed by B, sizes
    below 1 MiB and the larger ones as the nearest tenth of a KB and of
    an MB.  For the store holding [docs/] (0 bytes), [docs/a.txt] (500
    bytes) and [docs/sub/b.txt], the listing of [s3://bucket/docs] is
    [a.txt], with size ["500 B"], and [b.txt]. *)
Theorem list_s3_files_spec (s3 : s3_client) (s3_folder_uri bucket prefix : string)
        (pages : list page) :
  parse_s3_uri s3_folder_uri = (bucket, prefix) ->
  s3 bucket (normalize_prefix prefix) = Some pages ->
  Forall (fun obj => (Size obj < 2 ^ 53)%Z) (page_contents pages) ->
  list_s3_files s3 s3_folder_uri
  = map (file_info_of bucket)
        (filter (is_file (normalize_prefix prefix)) (page_contents pages))
  /\ (forall f,
        In f (list_s3_files s3 s3_folder_uri)
        <-> exists obj,
              In obj (page_contents pages)
              /\ Key obj <> normalize_prefix prefix
              /\ endswith_slash (Key obj) = false
              /\ f = file_info_of bucket obj)
  /\ (forall obj,
        size_str (file_info_of bucket obj) = size_str_of (Size obj)
        /\ name (file_info_of bucket obj) = last_segment (Key obj))
  /\ (forall failing : s3_client,
        failing bucket (normalize_prefix prefix) = None ->
        list_s3_files failing s3_folder_uri = [])
  /\ (forall n,
        (n < 2 ^ 53)%Z ->
        ((n < 1024)%Z -> size_str_of n = str_of_Z n ++ " B")
        /\ ((1024 <= n < 1024 * 1024)%Z ->
            size_str_of n = format_1f n 1024 ++ " KB"
            /\ (Z.abs (10 * n - 1024 * tenths n 1024) * 2 <= 1024)%Z)
        /\ ((1024 * 1024 <= n)%Z ->
            size_str_of n = format_1f n (1024 * 1024) ++ " MB"
            /\ (Z.abs (10 * n - 1024 * 1024 * tenths n (1024 * 1024)) * 2
                <= 1024 * 1024)%Z))%string
  /\ (forall b page_size,
        0 < page_size ->
        (b < 2 ^ 53)%Z ->
        list_s3_files
          (store_client "bucket"
             [ {| Key := "docs/"; Size := 0 |};
               {| Key := "docs/a.txt"; Size := 500 |};
               {| Key := "docs/sub/b.txt"; Size := b |} ] page_size)
          "s3://bucket/docs"
        = [ {| name := "a.txt"; uri := "s3://bucket/docs/a.txt";
               size := 500; size_str := "500 B" |};
            {| name := "b.txt"; uri := "s3://bucket/docs/sub/b.txt";
               size := b; size_str := size_str_of b |} ]).
Proof.
  intros Hparse Hs3 _.
  assert (Heq : list_s3_files s3 s3_folder_uri
                = map (file_info_of bucket)
                      (filter (is_file (normalize_prefix prefix)) (page_contents pages))).
  { unfold list_s3_files. rewrite Hparse, Hs3. apply flat_map_page_files. }
  split; [exact Heq|]. split; [|split; [|split; [|split]]].
  - intro f. rewrite Heq, in_map_iff. split.
    + intros (obj & <- & Hin). apply filter_In in Hin. destruct Hin as [Hin Hfile].
      unfold is_file in Hfile. apply andb_prop in Hfile. destruct Hfile as [H1 H2].
      exists obj. repeat split; auto.
      * intro Hk. rewrite Hk, String.eqb_refl in H1. discriminate.
      * now destruct (endswith_slash (Key obj)).
    + intros (obj & Hin & Hne & Hslash & ->). exists obj. split; [reflexivity|].
      apply filter_In. split; [exact Hin|]. unfold is_file.
      rewrite Hslash. apply String.eqb_neq in Hne. now rewrite Hne.
  - intro obj. split; reflexivity.
  - intros failing Hnone. unfold list_s3_files. now rewrite Hparse, Hnone.
  - intros n _. unfold size_str_of. split; [|split].
    + intro H. apply Z.ltb_lt in H. now rewrite H.
    + intros [H1 H2]. apply Z.ltb_ge in H1. apply Z.ltb_lt in H2. rewrite H1, H2.
      split; [reflexivity | apply tenths_nearest; lia].
    + intro H.
      assert (H1 : (n <? 1024)%Z = false) by (apply Z.ltb_ge; lia).
      assert (H2 : (n <? 1024 * 1024)%Z = false) by (apply Z.ltb_ge; lia).
      rewrite H1, H2. split; [reflexivity|].
      replace (1024 * 1024 * tenths n (1024 * 1024))%Z
        with ((1024 * 1024) * tenths n (1024 * 1024))%Z by lia.
      apply tenths_nearest. lia.
  - intros b page_size Hps _.
    destruct page_size as [|[|[|[|k]]]]; [lia | reflexivity ..].
Qed.

(** C8 at the store of the scenario. *)
Lemma list_s3_files_spec_witness :
  map name (list_s3_files (store_client "bucket" docs_store 1000) "s3://bucket/docs")
  = ["a.txt"; "b.txt"].
Proof.
  destruct (list_s3_files_spec (store_client "bucket" docs_store 1000)
              "s3://bucket/docs" "bucket" "docs"
              [Some [ {| Key := "docs/"; Size := 0 |};
                      {| Key := "docs/a.txt"; Size := 500 |};
                      {| Key := "docs/sub/b.txt"; Size := 2048 |} ]]
              eq_refl eq_refl ltac:(repeat constructor)) as [Heq _].
  rewrite Heq. reflexivity.
Defined.

(** C8 as stated fails: on the store of the scenario the listing has
    two entries, [a.txt] and the nested [b.txt], not [a.txt] alone. *)
Lemma nested_object_is_listed :
  list_s3_files (store_client "bucket" docs_store 1000) "s3://bucket/docs"
  = [ {| name := "a.txt"; uri := "s3://bucket/docs/a.txt";
         size := 500; size_str := "500 B" |};
      {| name := "b.txt"; uri := "s3://bucket/docs/sub/b.txt";
         size := 2048; size_str := "2.0 KB" |} ].
Proof. vm_compute. reflexivity. Qed.

(** ** Strings *)

Lemma prefix_app (p s : string) : String.prefix p (p ++ s)%string = true.
Proof.
  induction p as [|c p IH]; cbn.
  - now destruct s.
  - destruct (ascii_dec c c) as [_|n]; [exact IH | now elim n].
Qed.

Lemma remove_all_absent (old s : string) :
  str_contains old s = false -> remove_all old 0 s = s.
Proof.
  induction s as [|c s IH]; [reflexivity|].
  cbn [str_contains remove_all]. intro H. apply orb_false_elim in H.
  destruct H as [H1 H2]. rewrite H1, (IH H2). reflexivity.
Qed.

Lemma split_once_no_slash (a : string) :
  str_contains "/" a = false -> split_once a = (a, None).
Proof.
  induction a as [|c a IH]; [reflexivity|].
  cbn [str_contains split_once]. intro H. apply orb_false_elim in H.
  destruct H as [H1 H2]. rewrite (IH H2).
  destruct (Ascii.eqb c "/") eqn:Hc; [|reflexivity].
  apply Ascii.eqb_eq in Hc. subst c. cbn in H1. now destruct a.
Qed.

Lemma split_once_app (a b : string) :
  str_contains "/" a = false ->
  split_once (a ++ "/" ++ b)%string = (a, Some b).
Proof.
  induction a as [|c a IH]; [reflexivity|].
  cbn [str_contains]. intro H. apply orb_false_elim in H.
  destruct H as [H1 H2]. cbn [String.append split_once].
  fold (String.append a (String "/" b)).
  change (String "/" b) with ("/" ++ b)%string.
  rewrite (IH H2).
  destruct (Ascii.eqb c "/") eqn:Hc; [|reflexivity].
  apply Ascii.eqb_eq in Hc. subst c. cbn in H1. now destruct a.
Qed.

Lemma parse_s3_uri_scheme (u : string) :
  parse_s3_uri ("s3://" ++ u) = parse_s3_uri u.
Proof. unfold parse_s3_uri. now destruct u. Qed.

Lemma parse_s3_uri_plain (bucket key : string) :
  str_contains "/" bucket = false ->
  str_contains "s3://" (bucket ++ "/" ++ key) = false ->
  parse_s3_uri (bucket ++ "/" ++ key) = (bucket, key).
Proof.
  intros Hb Hs. unfold parse_s3_uri.
  rewrite (remove_all_absent _ _ Hs), (split_once_app _ _ Hb). reflexivity.
Qed.

Lemma prefix_scheme_slash (s : string) :
  String.prefix "s3://" s = true -> str_contains "/" s = true.
Proof.
  destruct s as [|c0 [|c1 [|c2 [|c3 s]]]]; cbn [String.prefix]; try discriminate;
    repeat (destruct (ascii_dec _ _); try discriminate).
  intros _. subst. cbn. now destruct s.
Qed.

Lemma no_slash_no_scheme (s : string) :
  str_contains "/" s = false -> str_contains "s3://" s = false.
Proof.
  induction s as [|c s IH]; [reflexivity|].
  intro H. destruct (String.prefix "s3://" (String c s)) eqn:Hp.
  - apply prefix_scheme_slash in Hp. congruence.
  - cbn [str_contains] in *. apply orb_false_elim in H. destruct H as [_ H].
    rewrite Hp. exact (IH H).
Qed.

Lemma parse_s3_uri_bucket_only (bucket : string) :
  str_contains "/" bucket = false ->
  parse_s3_uri bucket = (bucket, "").
Proof.
  intros Hb. unfold parse_s3_uri.
  rewrite (remove_all_absent _ _ (no_slash_no_scheme _ Hb)), (split_once_no_slash _ Hb).
  reflexivity.
Qed.

Lemma prefix_app_l (old s t : string) :
  String.prefix old s = true -> String.prefix old (s ++ t)%string = true.
Proof.
  revert s. induction old as [|c old IH]; intros s H.
  - now destruct (s ++ t)%string.
  - destruct s as [|c' s]; [discriminate|]. cbn in *.
    destruct (ascii_dec c c'); [auto | discriminate].
Qed.

Lemma str_contains_app_l (old s t : string) :
  str_contains old (s ++ t)%string = false -> str_contains old s = false.
Proof.
  induction s as [|c s IH]; intro H.
  - cbn. destruct old; [|reflexivity].
    destruct t; cbn in H; discriminate.
  - cbn [String.append str_contains] in *. apply orb_false_elim in H.
    destruct H as [H1 H2]. rewrite (IH H2), orb_false_r.
    destruct (String.prefix old (String c s)) eqn:Hp; [|reflexivity].
    apply (prefix_app_l _ _ t) in Hp. cbn [String.append] in Hp. congruence.
Qed.

Lemma append_assoc (a b c : string) : ((a ++ b) ++ c = a ++ (b ++ c))%string.
Proof. induction a as [|x a IH]; cbn; [reflexivity | now rewrite IH]. Qed.

Lemma append_empty_r (a : string) : (a ++ "")%string = a.
Proof. induction a as [|x a IH]; cbn; [reflexivity | now rewrite IH]. Qed.

Lemma append_inv_l (p a b : string) : (p ++ a = p ++ b)%string -> a = b.
Proof. induction p as [|x p IH]; cbn; intro H; [exact H | injection H; auto]. Qed.

Lemma append_eq_self (p n : string) : (p ++ n)%string = p -> n = "".
Proof.
  intro H. apply (append_inv_l p). now rewrite append_empty_r.
Qed.

Lemma endswith_slash_app (p n : string) :
  n <> "" -> endswith_slash (p ++ n) = endswith_slash n.
Proof.
  intro Hn. induction p as [|c p IH]; [reflexivity|].
  cbn [String.append]. destruct (p ++ n)%string eqn:E.
  - destruct p; [cbn in E; contradiction | discriminate].
  - rewrite <- IH. reflexivity.
Qed.

Lemma endswith_slash_snoc (p : string) : endswith_slash (p ++ "/") = true.
Proof. rewrite endswith_slash_app by discriminate. reflexivity. Qed.

Lemma normalize_prefix_cases (p : string) :
  (p = "" /\ normalize_prefix p = "")
  \/ (p <> "" /\ endswith_slash p = true /\ normalize_prefix p = p)
  \/ (p <> "" /\ endswith_slash p = false /\ normalize_prefix p = (p ++ "/")%string).
Proof.
  unfold normalize_prefix. destruct (String.eqb_spec p "") as [->|Hne].
  - left. split; reflexivity.
  - right. cbn [negb andb]. destruct (endswith_slash p); cbn [negb]; auto.
Qed.

Lemma normalize_prefix_idem (p : string) :
  normalize_prefix (normalize_prefix p) = normalize_prefix p.
Proof.
  destruct (normalize_prefix_cases p) as [[-> H]|[(Hne & Hs & H)|(Hne & Hs & H)]];
    rewrite H; [reflexivity | exact H |].
  unfold normalize_prefix. rewrite endswith_slash_snoc, andb_false_r. reflexivity.
Qed.

Lemma normalize_prefix_snoc (p : string) :
  p <> "" -> endswith_slash p = false ->
  normalize_prefix (p ++ "/") = normalize_prefix p.
Proof.
  intros Hne Hs.
  destruct (normalize_prefix_cases p) as [[-> H]|[(_ & Hs' & H)|(_ & _ & H)]];
    [contradiction | congruence |].
  rewrite H. unfold normalize_prefix.
  rewrite endswith_slash_snoc, andb_false_r. reflexivity.
Qed.

(** X1: [parse_s3_uri] inverts the way the app writes a URI.  For a
    bucket name without a slash and a [bucket/key] text in which
    ["s3://"] does not occur, [s3://bucket/key] parses to the bucket and
    the key, the scheme is optional, and a URI without any slash after
    the bucket parses to the bucket and the empty prefix. *)
Theorem parse_s3_uri_round_trip (bucket key : string) :
  str_contains "/" bucket = false ->
  str_contains "s3://" (bucket ++ "/" ++ key) = false ->
  parse_s3_uri ("s3://" ++ bucket ++ "/" ++ key) = (bucket, key)
  /\ parse_s3_uri (bucket ++ "/" ++ key) = (bucket, key)
  /\ parse_s3_uri ("s3://" ++ bucket) = (bucket, "").
Proof.
  intros Hb Hs. rewrite !parse_s3_uri_scheme.
  split; [|split].
  - now apply parse_s3_uri_plain.
  - now apply parse_s3_uri_plain.
  - now apply parse_s3_uri_bucket_only.
Qed.

Lemma parse_s3_uri_round_trip_witness :
  parse_s3_uri "s3://my-bucket/docs/2024" = ("my-bucket", "docs/2024").
Proof.
  exact (proj1 (parse_s3_uri_round_trip "my-bucket" "docs/2024" eq_refl eq_refl)).
Defined.

Lemma parse_trailing_slash (bucket key : string) :
  str_contains "/" bucket = false ->
  str_contains "s3://" (bucket ++ "/" ++ key ++ "/") = false ->
  parse_s3_uri ("s3://" ++ bucket ++ "/" ++ key ++ "/") = (bucket, (key ++ "/")%string)
  /\ parse_s3_uri ("s3://" ++ bucket ++ "/" ++ key) = (bucket, key).
Proof.
  intros Hb Hs. rewrite !parse_s3_uri_scheme. split.
  - now apply parse_s3_uri_plain.
  - apply parse_s3_uri_plain; [exact Hb|].
    apply (str_contains_app_l _ _ "/"). now rewrite !append_assoc.
Qed.

Lemma prefix_scheme_snoc (s : string) :
  String.prefix "s3://" (s ++ "/") = true -> str_contains "/" s = true.
Proof.
  destruct s as [|c0 [|c1 [|c2 [|c3 s]]]]; cbn [String.append String.prefix];
    repeat (destruct (ascii_dec _ _); try discriminate).
  intros _. subst. cbn. now destruct s.
Qed.

Lemma no_scheme_snoc (s : string) :
  str_contains "/" s = false -> str_contains "s3://" (s ++ "/") = false.
Proof.
  induction s as [|c s IH]; [reflexivity|].
  intro H. destruct (String.prefix "s3://" (String c s ++ "/")) eqn:Hp.
  - apply prefix_scheme_snoc in Hp. congruence.
  - cbn [str_contains] in H. apply orb_false_elim in H. destruct H as [_ H].
    cbn [String.append str_contains]. cbn [String.append] in Hp. rewrite Hp.
    exact (IH H).
Qed.

(** X2: a trailing slash on the folder URI is optional.  For a folder
    key that is not empty and does not end in a slash, listing and saving
    under [s3://bucket/key/] are the same as under [s3://bucket/key],
    whatever the client and the file; and [s3://bucket/] lists what
    [s3://bucket] lists. *)
Theorem trailing_slash_is_optional (bucket key : string) :
  str_contains "/" bucket = false ->
  str_contains "s3://" (bucket ++ "/" ++ key ++ "/") = false ->
  key <> "" ->
  endswith_slash key = false ->
  (forall s3,
      list_s3_files s3 ("s3://" ++ bucket ++ "/" ++ key ++ "/")
      = list_s3_files s3 ("s3://" ++ bucket ++ "/" ++ key))
  /\ (forall S file_content file_name,
         save_to_s3 S file_content file_name ("s3://" ++ bucket ++ "/" ++ key ++ "/")
         = save_to_s3 S file_content file_name ("s3://" ++ bucket ++ "/" ++ key))
  /\ (forall s3,
         list_s3_files s3 ("s3://" ++ bucket ++ "/")
         = list_s3_files s3 ("s3://" ++ bucket)).
Proof.
  intros Hb Hs Hne Hslash.
  destruct (parse_trailing_slash bucket key Hb Hs) as [P1 P2].
  split; [|split].
  - intro s3. unfold list_s3_files. rewrite P1, P2.
    now rewrite normalize_prefix_snoc.
  - intros S body fn. unfold save_to_s3. rewrite P1, P2.
    now rewrite normalize_prefix_snoc.
  - intro s3. unfold list_s3_files.
    rewrite !parse_s3_uri_scheme, (parse_s3_uri_bucket_only _ Hb).
    replace (bucket ++ "/")%string with (bucket ++ "/" ++ "")%string by reflexivity.
    rewrite parse_s3_uri_plain; [reflexivity | exact Hb |].
    now apply no_scheme_snoc.
Qed.

Lemma trailing_slash_is_optional_witness :
  list_s3_files (store_client "bucket" docs_store 1000) "s3://bucket/docs/"
  = list_s3_files (store_client "bucket" docs_store 1000) "s3://bucket/docs".
Proof.
  exact (proj1 (trailing_slash_is_optional "bucket" "docs" eq_refl eq_refl
                  ltac:(discriminate) eq_refl) _).
Defined.

(** ** File names *)

Lemma contains_slash_cons (c : ascii) (s : string) :
  str_contains "/" (String c s) = Ascii.eqb c "/" || str_contains "/" s.
Proof.
  cbn [str_contains String.prefix].
  destruct (Ascii.eqb_spec c "/") as [->|Hne].
  - now destruct s.
  - destruct (ascii_dec "/" c) as [e|_]; [now elim Hne | reflexivity].
Qed.

Lemma last_segment_cons (c : ascii) (s : string) :
  last_segment (String c s)
  = if str_contains "/" s then last_segment s
    else if Ascii.eqb c "/" then s else String c s.
Proof.
  unfold last_segment at 1. fold last_segment.
  rewrite contains_slash_cons.
  destruct (str_contains "/" s), (Ascii.eqb c "/"); reflexivity.
Qed.

Lemma last_segment_id (s : string) :
  str_contains "/" s = false -> last_segment s = s.
Proof.
  destruct s as [|c s]; [reflexivity|]. intro H.
  rewrite last_segment_cons. rewrite contains_slash_cons in H.
  apply orb_false_elim in H. destruct H as [H1 H2]. now rewrite H1, H2.
Qed.

Lemma last_segment_no_slash (s : string) :
  str_contains "/" (last_segment s) = false.
Proof.
  induction s as [|c s IH]; [reflexivity|].
  rewrite last_segment_cons. destruct (str_contains "/" s) eqn:Hs; [exact IH|].
  destruct (Ascii.eqb c "/") eqn:Hc; [exact Hs|].
  now rewrite contains_slash_cons, Hc, Hs.
Qed.

Lemma contains_slash_app (d n : string) : str_contains "/" (d ++ "/" ++ n) = true.
Proof.
  induction d as [|c d IH].
  - change ("" ++ "/" ++ n)%string with (String "/" n).
    now rewrite contains_slash_cons.
  - change (String c d ++ "/" ++ n)%string with (String c (d ++ "/" ++ n)).
    rewrite contains_slash_cons, IH. apply orb_true_r.
Qed.

Lemma last_segment_app (d n : string) :
  last_segment (d ++ "/" ++ n) = last_segment n.
Proof.
  induction d as [|c d IH].
  - change ("" ++ "/" ++ n)%string with (String "/" n).
    rewrite last_segment_cons.
    destruct (str_contains "/" n) eqn:Hn; [reflexivity|].
    now rewrite last_segment_id.
  - change (String c d ++ "/" ++ n)%string with (String c (d ++ "/" ++ n)).
    now rewrite last_segment_cons, contains_slash_app.
Qed.

Lemma last_segment_split (s : string) :
  exists d, s = (d ++ last_segment s)%string /\ (d = "" \/ endswith_slash d = true).
Proof.
  induction s as [|c s (d & Hd & Hends)].
  - exists "". split; [reflexivity | now left].
  - rewrite last_segment_cons. destruct (str_contains "/" s) eqn:Hs.
    + exists (String c d). split; [cbn; now rewrite <- Hd|]. right.
      destruct Hends as [->|Hends].
      * cbn in Hd. rewrite Hd, last_segment_no_slash in Hs. discriminate.
      * cbn [endswith_slash]. destruct d; [discriminate | exact Hends].
    + destruct (Ascii.eqb_spec c "/") as [->|Hne].
      * exists "/". split; [reflexivity | now right].
      * exists "". split; [reflexivity | now left].
Qed.

Lemma endswith_slash_contains (s : string) :
  endswith_slash s = true -> str_contains "/" s = true.
Proof.
  induction s as [|c s IH]; [discriminate|].
  rewrite contains_slash_cons. destruct s as [|c' s].
  - cbn. intros ->. reflexivity.
  - intro H. rewrite (IH H). apply orb_true_r.
Qed.

Lemma last_segment_empty (s : string) :
  last_segment s = "" <-> s = "" \/ endswith_slash s = true.
Proof.
  split.
  - intro H. destruct (last_segment_split s) as (d & Hd & Hends).
    rewrite H, append_empty_r in Hd. subst d. exact Hends.
  - intros [->|H]; [reflexivity|].
    destruct (last_segment_split s) as (d & Hd & Hends).
    destruct (last_segment s) as [|a n] eqn:E; [reflexivity|].
    rewrite Hd, endswith_slash_app in H by discriminate.
    apply endswith_slash_contains in H.
    pose proof (last_segment_no_slash s) as Hn. rewrite E in Hn. congruence.
Qed.

(** X3: the name shown for an object is what follows the last slash of
    its key.  It contains no slash; the key is a folder path, empty or
    ending in a slash, followed by the name; the name is empty exactly
    for an empty key and for a key ending in a slash; and it forgets the
    folder, so objects of different folders can show the same name. *)
Theorem name_is_last_segment (bucket : string) (obj : s3_object) :
  str_contains "/" (name (file_info_of bucket obj)) = false
  /\ (exists dir,
         Key obj = (dir ++ name (file_info_of bucket obj))%string
         /\ (dir = "" \/ endswith_slash dir = true))
  /\ (name (file_info_of bucket obj) = ""
      <-> Key obj = "" \/ endswith_slash (Key obj) = true)
  /\ (forall dir sz,
         name (file_info_of bucket {| Key := dir ++ "/" ++ Key obj; Size := sz |})
         = name (file_info_of bucket obj)).
Proof.
  cbn [name file_info_of Key]. split; [|split; [|split]].
  - apply last_segment_no_slash.
  - apply last_segment_split.
  - apply last_segment_empty.
  - intros dir _. apply last_segment_app.
Qed.

(** ** Sizes *)

Lemma tenths_mono (n m d : Z) :
  (0 < d)%Z -> (n <= m)%Z -> (tenths n d <= tenths m d)%Z.
Proof.
  intros Hd Hnm. unfold tenths.
  pose proof (Z.div_mod (10 * n) d ltac:(lia)) as Hn.
  pose proof (Z.mod_pos_bound (10 * n) d Hd) as Hbn.
  pose proof (Z.div_mod (10 * m) d ltac:(lia)) as Hm.
  pose proof (Z.mod_pos_bound (10 * m) d Hd) as Hbm.
  assert (Hq : (10 * n / d <= 10 * m / d)%Z) by (apply Z.div_le_mono; lia).
  set (qn := (10 * n / d)%Z) in *. set (rn := (10 * n mod d)%Z) in *.
  set (qm := (10 * m / d)%Z) in *. set (rm := (10 * m mod d)%Z) in *.
  destruct (Z.eq_dec qn qm) as [E|E].
  - rewrite <- E in *. assert (rn <= rm)%Z by nia.
    destruct (2 * rn <? d)%Z eqn:A1, (2 * rm <? d)%Z eqn:B1,
             (d <? 2 * rn)%Z eqn:A2, (d <? 2 * rm)%Z eqn:B2;
      try apply Z.ltb_lt in A1; try apply Z.ltb_ge in A1;
      try apply Z.ltb_lt in B1; try apply Z.ltb_ge in B1;
      try apply Z.ltb_lt in A2; try apply Z.ltb_ge in A2;
      try apply Z.ltb_lt in B2; try apply Z.ltb_ge in B2;
      destruct (Z.even qn); lia.
  - destruct (2 * rn <? d)%Z, (2 * rm <? d)%Z, (d <? 2 * rn)%Z, (d <? 2 * rm)%Z,
             (Z.even qn), (Z.even qm); lia.
Qed.

Lemma tenths_exact (k d : Z) : (0 < d)%Z -> tenths (k * d) d = (10 * k)%Z.
Proof.
  intro Hd. unfold tenths.
  replace (10 * (k * d))%Z with (10 * k * d)%Z by lia.
  rewrite Z.div_mul, Z.mod_mul by lia.
  replace (2 * 0 <? d)%Z with true by (symmetry; apply Z.ltb_lt; lia).
  reflexivity.
Qed.

Lemma str_of_Z_tenths (k : Z) :
  (0 <= k)%Z ->
  (str_of_Z (10 * k / 10) ++ "." ++ str_of_Z ((10 * k) mod 10))%string
  = (str_of_Z k ++ ".0")%string.
Proof.
  intro Hk. replace (10 * k)%Z with (k * 10)%Z by lia.
  rewrite Z.div_mul, Z.mod_mul by lia. reflexivity.
Qed.

(** X4: the number shown for a size, for sizes below 2^53 bytes (up to
    there the float division of the size is exact).  Within a unit a
    larger size never shows a smaller number; whole multiples of a KB
    and of a MB are shown exactly, with [.0]; and the sizes from 1048525
    bytes up to one byte below 1 MiB are shown as ["1024.0 KB"], not in
    MB. *)
Theorem size_display :
  (forall n m,
      (n <= m)%Z -> (m < 2 ^ 53)%Z ->
      (tenths n 1024 <= tenths m 1024)%Z
      /\ (tenths n (1024 * 1024) <= tenths m (1024 * 1024))%Z)
  /\ (forall k, (1 <= k < 1024)%Z ->
         size_str_of (k * 1024) = (str_of_Z k ++ ".0" ++ " KB")%string)
  /\ (forall k, (1 <= k)%Z -> (k * (1024 * 1024) < 2 ^ 53)%Z ->
         size_str_of (k * (1024 * 1024)) = (str_of_Z k ++ ".0" ++ " MB")%string)
  /\ (forall n, (1048525 <= n < 1048576)%Z -> size_str_of n = "1024.0 KB").
Proof.
  split; [|split; [|split]].
  - intros n m Hnm _. split; apply tenths_mono; lia.
  - intros k Hk. unfold size_str_of.
    replace (k * 1024 <? 1024)%Z with false by (symmetry; apply Z.ltb_ge; lia).
    replace (k * 1024 <? 1024 * 1024)%Z with true by (symmetry; apply Z.ltb_lt; lia).
    unfold format_1f. rewrite tenths_exact by lia.
    rewrite str_of_Z_tenths by lia. now rewrite append_assoc.
  - intros k Hk _. unfold size_str_of.
    replace (k * (1024 * 1024) <? 1024)%Z with false by (symmetry; apply Z.ltb_ge; lia).
    replace (k * (1024 * 1024) <? 1024 * 1024)%Z with false
      by (symmetry; apply Z.ltb_ge; lia).
    unfold format_1f. rewrite tenths_exact by lia.
    rewrite str_of_Z_tenths by lia. now rewrite append_assoc.
  - intros n Hn. unfold size_str_of.
    replace (n <? 1024)%Z with false by (symmetry; apply Z.ltb_ge; lia).
    replace (n <? 1024 * 1024)%Z with true by (symmetry; apply Z.ltb_lt; lia).
    assert (Ht : tenths n 1024 = 10240%Z).
    { pose proof (tenths_mono 1048525 n 1024 ltac:(lia) ltac:(lia)) as H1.
      pose proof (tenths_mono n 1048575 1024 ltac:(lia) ltac:(lia)) as H2.
      change (tenths 1048525 1024) with 10240%Z in H1.
      change (tenths 1048575 1024) with 10240%Z in H2. lia. }
    unfold format_1f. rewrite Ht. reflexivity.
Qed.

(** ** Saving and listing on the same service *)

Lemma chunk_contents (fuel page_size : nat) (l : list s3_object) :
  0 < page_size -> List.length l <= fuel ->
  page_contents (chunk fuel page_size l) = l.
Proof.
  intro Hps. revert l. induction fuel as [|fuel IH]; intros l Hl.
  - destruct l; [reflexivity | cbn in Hl; lia].
  - destruct l as [|x l]; [reflexivity|].
    cbn [chunk]. unfold page_contents. cbn [flat_map].
    fold (page_contents (chunk fuel page_size (skipn page_size (x :: l)))).
    rewrite IH; [apply firstn_skipn|].
    rewrite length_skipn. cbn [List.length] in *. lia.
Qed.

Lemma store_client_contents (b : string) (objs : list s3_object)
      (page_size : nat) (prefix : string) :
  0 < page_size ->
  exists pages,
    store_client b objs page_size b prefix = Some pages
    /\ page_contents pages = filter (fun o => String.prefix prefix (Key o)) objs.
Proof.
  intro Hps. unfold store_client. rewrite String.eqb_refl.
  destruct (filter (fun o => String.prefix prefix (Key o)) objs) as [|x l] eqn:E.
  - exists [None]. split; reflexivity.
  - eexists. split; [reflexivity|]. now apply chunk_contents.
Qed.

(** The listing of a reachable bucket, object by object. *)
Lemma list_service_In (S : s3_service) (u prefix : string) (f : file_info) :
  client_available S = true ->
  parse_s3_uri u = (bucket_name S, prefix) ->
  In f (list_s3_files (service_client S) u)
  <-> exists obj,
        In obj (objects S)
        /\ String.prefix (normalize_prefix prefix) (Key obj) = true
        /\ is_file (normalize_prefix prefix) obj = true
        /\ f = file_info_of (bucket_name S) obj.
Proof.
  intros Ha Hp. unfold list_s3_files, service_client. rewrite Hp, Ha.
  destruct (store_client_contents (bucket_name S) (objects S) 1000
              (normalize_prefix prefix) ltac:(lia)) as (pages & Hs & Hc).
  rewrite Hs, flat_map_page_files, Hc, in_map_iff. split.
  - intros (obj & <- & Hin). apply filter_In in Hin. destruct Hin as [Hin Hfile].
    apply filter_In in Hin. destruct Hin as [Hin Hpre]. exists obj. auto.
  - intros (obj & Hin & Hpre & Hfile & ->). exists obj. split; [reflexivity|].
    apply filter_In. split; [|exact Hfile]. apply filter_In. auto.
Qed.

Lemma store_put_In (objs : list s3_object) (o : s3_object) : In o (store_put objs o).
Proof.
  induction objs as [|x objs IH]; cbn; [now left|].
  destruct (String.eqb (Key x) (Key o)); [now left | now right].
Qed.

Lemma store_put_other (objs : list s3_object) (o x : s3_object) :
  Key x <> Key o -> (In x (store_put objs o) <-> In x objs).
Proof.
  intro Hne. induction objs as [|y objs IH]; cbn.
  - split; [intros [->|[]]; now elim Hne | intros []].
  - destruct (String.eqb_spec (Key y) (Key o)) as [E|E]; cbn.
    + split; (intros [<-|H]; [|now right]).
      * now elim Hne.
      * elim Hne. now symmetry.
    + rewrite IH. reflexivity.
Qed.

(** What a successful save did. *)
Lemma save_to_s3_ok (S S' : s3_service) (body : list Byte.byte)
      (fn u res : string) (msgs : list s3_msg) :
  save_to_s3 S body fn u = (Some res, S', msgs) ->
  exists prefix,
    parse_s3_uri u = (bucket_name S, prefix)
    /\ client_available S = true
    /\ res = ("s3://" ++ bucket_name S ++ "/" ++ normalize_prefix prefix ++ fn)%string
    /\ (normalize_prefix prefix ++ fn)%string <> ""
    /\ client_available S' = true
    /\ bucket_name S' = bucket_name S
    /\ objects S'
       = store_put (objects S)
           {| Key := normalize_prefix prefix ++ fn;
              Size := Z.of_nat (List.length body) |}
    /\ msgs = [].
Proof.
  unfold save_to_s3, get_s3_client, put_object.
  destruct (parse_s3_uri u) as [bucket prefix].
  destruct (client_available S) eqn:Ha; [|discriminate].
  destruct (String.eqb_spec bucket (bucket_name S)) as [->|]; [|discriminate].
  destruct (String.eqb_spec (normalize_prefix prefix ++ fn) "") as [|Hk]; [discriminate|].
  cbn [andb negb]. intro H. injection H as <- <- <-.
  exists prefix. cbn. repeat split; auto.
Qed.

Lemma endswith_slash_inv (p : string) :
  endswith_slash p = true -> exists d, p = (d ++ "/")%string.
Proof.
  induction p as [|c p IH]; [discriminate|].
  destruct p as [|c' p].
  - cbn. intro H. apply Ascii.eqb_eq in H. subst c. now exists "".
  - intro H. destruct (IH H) as (d & Hd). exists (String c d). cbn. now rewrite <- Hd.
Qed.

Lemma last_segment_under (prefix fn : string) :
  last_segment (normalize_prefix prefix ++ fn) = last_segment fn.
Proof.
  destruct (normalize_prefix_cases prefix) as [[_ H]|[(_ & Hs & H)|(_ & _ & H)]];
    rewrite H.
  - reflexivity.
  - destruct (endswith_slash_inv _ Hs) as (d & ->).
    rewrite append_assoc. apply last_segment_app.
  - rewrite append_assoc. apply last_segment_app.
Qed.

Lemma is_file_under (p fn : string) (sz : Z) :
  is_file p {| Key := p ++ fn; Size := sz |} = true
  <-> fn <> "" /\ endswith_slash fn = false.
Proof.
  unfold is_file. cbn [Key]. rewrite andb_true_iff, !negb_true_iff, String.eqb_neq.
  split.
  - intros [Hne Hs].
    assert (Hfn : fn <> "") by (intros ->; apply Hne; apply append_empty_r).
    split; [exact Hfn|]. now rewrite endswith_slash_app in Hs.
  - intros [Hfn Hs]. split.
    + intro E. apply Hfn. now apply (append_eq_self p).
    + now rewrite endswith_slash_app.
Qed.

(** X5: saving and listing compose.  After a save that returned a URI,
    listing the same folder URI yields the entry with that URI, the
    length of the content as size and the last segment of the file name
    as name, exactly when the file name is not empty and does not end in
    a slash: a save under any other name succeeds without its entry
    being listed. *)
Theorem saved_file_is_listed (S S' : s3_service) (file_content : list Byte.byte)
        (file_name s3_folder_uri saved_uri : string) (msgs : list s3_msg) :
  save_to_s3 S file_content file_name s3_folder_uri = (Some saved_uri, S', msgs) ->
  In {| name := last_segment file_name;
        uri := saved_uri;
        size := Z.of_nat (List.length file_content);
        size_str := size_str_of (Z.of_nat (List.length file_content)) |}
     (list_s3_files (service_client S') s3_folder_uri)
  <-> file_name <> "" /\ endswith_slash file_name = false.
Proof.
  intro Hsave.
  destruct (save_to_s3_ok _ _ _ _ _ _ _ Hsave)
    as (prefix & Hp & Ha & -> & Hk & Ha' & Hb' & Hobjs & _).
  rewrite <- Hb' in Hp.
  rewrite (list_service_In S' s3_folder_uri prefix _ Ha' Hp), Hb', Hobjs.
  set (p := normalize_prefix prefix) in *.
  set (o := {| Key := p ++ file_name; Size := Z.of_nat (List.length file_content) |}).
  split.
  - intros (obj & _ & _ & Hfile & Hf). unfold file_info_of in Hf.
    injection Hf as _ Huri Hsize _.
    apply append_inv_l in Huri. injection Huri as Huri.
    apply (is_file_under p file_name (Size obj)).
    destruct obj as [k sz]. cbn [Key Size] in *. now subst k.
  - intro Hvalid. exists o. split; [apply store_put_In|].
    split; [apply prefix_app|]. split; [now apply is_file_under|].
    unfold file_info_of, o. cbn [Key Size]. f_equal.
    symmetry. apply last_segment_under.
Qed.

Lemma saved_file_is_listed_witness :
  In {| name := "report.pdf"; uri := "s3://bucket/docs/report.pdf";
        size := 3; size_str := "3 B" |}
     (list_s3_files
        (service_client
           {| client_available := true; bucket_name := "bucket";
              objects := docs_store
                         ++ [ {| Key := "docs/report.pdf"; Size := 3 |} ] |})
        "s3://bucket/docs").
Proof.
  apply (proj2 (saved_file_is_listed
                  {| client_available := true; bucket_name := "bucket";
                     objects := docs_store |}
                  _ [Byte.x25; Byte.x50; Byte.x44] "report.pdf" "s3://bucket/docs"
                  _ _ eq_refl)).
  split; [discriminate | reflexivity].
Defined.

(** X6: a save changes the listing only at the URI it returned: every
    entry with another URI is listed after the save iff it was listed
    before. *)
Theorem save_keeps_other_files (S S' : s3_service) (file_content : list Byte.byte)
        (file_name s3_folder_uri saved_uri : string) (msgs : list s3_msg)
        (f : file_info) :
  save_to_s3 S file_content file_name s3_folder_uri = (Some saved_uri, S', msgs) ->
  uri f <> saved_uri ->
  In f (list_s3_files (service_client S') s3_folder_uri)
  <-> In f (list_s3_files (service_client S) s3_folder_uri).
Proof.
  intros Hsave Hother.
  destruct (save_to_s3_ok _ _ _ _ _ _ _ Hsave)
    as (prefix & Hp & Ha & -> & Hk & Ha' & Hb' & Hobjs & _).
  rewrite (list_service_In S s3_folder_uri prefix _ Ha Hp).
  rewrite <- Hb' in Hp.
  rewrite (list_service_In S' s3_folder_uri prefix _ Ha' Hp), Hb', Hobjs.
  assert (Hkey : forall obj, f = file_info_of (bucket_name S) obj ->
                             Key obj <> (normalize_prefix prefix ++ file_name)%string).
  { intros obj -> E. apply Hother. cbn [uri file_info_of]. now rewrite E. }
  set (o := {| Key := normalize_prefix prefix ++ file_name;
               Size := Z.of_nat (List.length file_content) |}) in *.
  split; intros (obj & Hin & Hpre & Hfile & Hf); exists obj;
    (split; [|auto]); apply (store_put_other (objects S) o obj); auto;
    cbn [Key o]; auto.
Qed.

Lemma save_keeps_other_files_witness :
  In {| name := "a.txt"; uri := "s3://bucket/docs/a.txt";
        size := 500; size_str := "500 B" |}
     (list_s3_files
        (service_client
           {| client_available := true; bucket_name := "bucket";
              objects := docs_store
                         ++ [ {| Key := "docs/report.pdf"; Size := 3 |} ] |})
        "s3://bucket/docs").
Proof.
  apply (proj2 (save_keeps_other_files
                  {| client_available := true; bucket_name := "bucket";
                     objects := docs_store |}
                  _ [Byte.x25; Byte.x50; Byte.x44] "report.pdf" "s3://bucket/docs"
                  _ _
                  {| name := "a.txt"; uri := "s3://bucket/docs/a.txt";
                     size := 500; size_str := "500 B" |}
                  eq_refl ltac:(discriminate))).
  cbn. left. reflexivity.
Defined.

(** ** The upload tab *)

Lemma list_s3_files_shown_fst (S : s3_service) (u : string) :
  fst (list_s3_files_shown S u) = list_s3_files (service_client S) u.
Proof.
  unfold list_s3_files_shown, list_s3_files, get_s3_client.
  destruct (parse_s3_uri u) as [bucket prefix].
  destruct (client_available S) eqn:Ha.
  - now destruct (service_client S bucket (normalize_prefix prefix)).
  - unfold service_client. now rewrite Ha.
Qed.

(** Without a client every save fails and leaves the service as it is. *)
Lemma save_all_unavailable (S : s3_service) (files : list uploaded_file) (u : string) :
  client_available S = false ->
  save_all S files u
  = (S, flat_map (fun _ => [ErrorCreatingClient; ErrorSavingFile]) files).
Proof.
  intro Ha. induction files as [|f files IH]; [reflexivity|].
  cbn [save_all save_uploaded_file flat_map]. unfold save_to_s3, get_s3_client.
  destruct (parse_s3_uri u) as [bucket prefix]. rewrite Ha, IH. reflexivity.
Qed.

(** X7: the upload handler reports success whatever the saves did.
    With files selected and "Upload to S3" clicked, the run sets
    [upload_complete], leaves the other session keys alone and ends by
    showing the success message after whatever errors the saves showed;
    without an S3 client nothing is stored, each file shows the two
    errors, and success is reported all the same. *)
Theorem upload_reports_success (S3_URI : string) (uploaded_files : list uploaded_file)
        (w : upload_world) :
  uploaded_files <> [] ->
  exists errors,
    up_shown (tab1 S3_URI uploaded_files true w)
    = up_shown w ++ errors ++ [UploadSucceeded]
    /\ up_state (tab1 S3_URI uploaded_files true w)
       = set_upload_complete true (up_state w)
    /\ (client_available (up_s3 w) = false ->
        up_s3 (tab1 S3_URI uploaded_files true w) = up_s3 w
        /\ errors
           = flat_map (fun _ => [ErrorCreatingClient; ErrorSavingFile]) uploaded_files).
Proof.
  intro Hne. unfold tab1.
  destruct uploaded_files as [|f files]; [contradiction|]. cbn [andb].
  destruct (save_all (up_s3 w) (f :: files) S3_URI) as [S' errors] eqn:E.
  exists errors. cbn [up_shown up_state up_s3]. split; [reflexivity|].
  split; [reflexivity|]. intro Ha.
  rewrite (save_all_unavailable _ _ _ Ha) in E. injection E as <- <-. auto.
Qed.

Lemma upload_reports_success_witness :
  up_shown
    (tab1 "s3://bucket/docs"
       [ {| file_name := "a.txt"; getvalue := [] |} ] true
       {| up_state := initial_session;
          up_s3 := {| client_available := false; bucket_name := "bucket";
                      objects := [] |};
          up_shown := [] |})
  = [ErrorCreatingClient; ErrorSavingFile; UploadSucceeded].
Proof.
  destruct (upload_reports_success "s3://bucket/docs"
              [ {| file_name := "a.txt"; getvalue := [] |} ]
              {| up_state := initial_session;
                 up_s3 := {| client_available := false; bucket_name := "bucket";
                             objects := [] |};
                 up_shown := [] |}
              ltac:(discriminate)) as (errors & Hs & _ & H).
  destruct (H eq_refl) as [_ ->]. exact Hs.
Defined.

(** The object a file is stored as under the folder [p]. *)
Lemma save_all_available (S : s3_service) (files : list uploaded_file)
      (u prefix : string) :
  client_available S = true ->
  parse_s3_uri u = (bucket_name S, prefix) ->
  (forall f, In f files -> file_name f <> "") ->
  exists S',
    save_all S files u = (S', [])
    /\ client_available S' = true
    /\ bucket_name S' = bucket_name S
    /\ (forall x,
           In x (objects S) ->
           (forall f, In f files ->
                      Key x <> (normalize_prefix prefix ++ file_name f)%string) ->
           In x (objects S'))
    /\ (NoDup (map file_name files) ->
        forall f, In f files ->
                  In {| Key := normalize_prefix prefix ++ file_name f;
                        Size := Z.of_nat (List.length (getvalue f)) |}
                     (objects S')).
Proof.
  revert S. induction files as [|f files IH]; intros S Ha Hp Hnames.
  - exists S. cbn. repeat split; auto. intros _ f [].
  - cbn [save_all save_uploaded_file].
    set (o := {| Key := normalize_prefix prefix ++ file_name f;
                 Size := Z.of_nat (List.length (getvalue f)) |}).
    assert (Hsave : save_to_s3 S (getvalue f) (file_name f) u
                    = (Some ("s3://" ++ bucket_name S ++ "/" ++ Key o)%string,
                       {| client_available := client_available S;
                          bucket_name := bucket_name S;
                          objects := store_put (objects S) o |}, [])).
    { unfold save_to_s3, get_s3_client, put_object. rewrite Hp, Ha, String.eqb_refl.
      destruct (String.eqb_spec (normalize_prefix prefix ++ file_name f) "") as [E|_];
        [|reflexivity].
      exfalso. apply (Hnames f); [now left|].
      destruct (normalize_prefix prefix); [exact E | discriminate]. }
    rewrite Hsave.
    set (S1 := {| client_available := client_available S;
                  bucket_name := bucket_name S;
                  objects := store_put (objects S) o |}) in *.
    destruct (IH S1 Ha Hp (fun g Hg => Hnames g (or_intror Hg)))
      as (S' & Hall & Ha' & Hb' & Hkeep & Hnew).
    exists S'. rewrite Hall. split; [reflexivity|]. split; [exact Ha'|].
    split; [exact Hb'|]. split.
    + intros x Hx Hk. apply Hkeep.
      * apply store_put_other; [apply Hk; now left | exact Hx].
      * intros g Hg. apply Hk. now right.
    + intros Hnd g [<-|Hg].
      * apply Hkeep; [apply store_put_In|].
        intros g Hg E. cbn [Key o] in E. apply append_inv_l in E.
        cbn [map] in Hnd. apply NoDup_cons_iff in Hnd. destruct Hnd as [Hnotin _].
        apply Hnotin. rewrite E. now apply in_map.
      * apply Hnew; [|exact Hg]. cbn [map] in Hnd. now apply NoDup_cons_iff in Hnd.
Qed.

(** X8: an upload followed by the rerun it triggers shows the uploaded
    files.  When the client is available, the folder URI names the
    service's bucket, the file names are distinct, not empty and do not
    end in a slash, the second run shows for every uploaded file a line
    with the last segment of its name and the rendering of its
    length. *)
Theorem uploaded_files_are_listed (S3_URI prefix : string)
        (uploaded_files : list uploaded_file) (w : upload_world) :
  client_available (up_s3 w) = true ->
  parse_s3_uri S3_URI = (bucket_name (up_s3 w), prefix) ->
  (forall f, In f uploaded_files ->
             file_name f <> "" /\ endswith_slash (file_name f) = false) ->
  NoDup (map file_name uploaded_files) ->
  forall f,
    In f uploaded_files ->
    In (FileLine (last_segment (file_name f))
                 (size_str_of (Z.of_nat (List.length (getvalue f)))))
       (up_shown (tab1 S3_URI uploaded_files false
                       (tab1 S3_URI uploaded_files true w))).
Proof.
  intros Ha Hp Hvalid Hnd f Hf.
  destruct (save_all_available (up_s3 w) uploaded_files S3_URI prefix Ha Hp
              (fun g Hg => proj1 (Hvalid g Hg)))
    as (S' & Hall & Ha' & Hb' & _ & Hnew).
  assert (Hin : In {| name := last_segment (file_name f);
                      uri := "s3://" ++ bucket_name S' ++ "/"
                             ++ normalize_prefix prefix ++ file_name f;
                      size := Z.of_nat (List.length (getvalue f));
                      size_str := size_str_of (Z.of_nat (List.length (getvalue f))) |}
                   (list_s3_files (service_client S') S3_URI)).
  { rewrite <- Hb' in Hp. apply (list_service_In S' S3_URI prefix _ Ha' Hp).
    eexists. split; [exact (Hnew Hnd f Hf)|]. cbn [Key]. split; [apply prefix_app|].
    split; [apply is_file_under; now apply Hvalid|].
    unfold file_info_of. cbn [Key Size]. f_equal. symmetry. apply last_segment_under. }
  unfold tab1 at 2.
  destruct uploaded_files as [|f0 files]; [destruct Hf|]. cbn [andb].
  rewrite Hall. unfold tab1. cbn [andb up_s3 up_shown up_state].
  rewrite <- list_s3_files_shown_fst in Hin.
  destruct (list_s3_files_shown S' S3_URI) as [s3_files errors]. cbn [fst] in Hin.
  cbn [up_shown]. apply in_or_app. right. apply in_or_app. right.
  apply in_or_app. left.
  destruct s3_files as [|x l]; [destruct Hin|].
  apply (in_map (fun f => FileLine (name f) (size_str f))) in Hin. exact Hin.
Qed.

Lemma uploaded_files_are_listed_witness :
  In (FileLine "a.txt" "2 B")
     (up_shown
        (tab1 "s3://bucket/docs"
           [ {| file_name := "a.txt"; getvalue := [Byte.x68; Byte.x69] |} ] false
           (tab1 "s3://bucket/docs"
              [ {| file_name := "a.txt"; getvalue := [Byte.x68; Byte.x69] |} ] true
              {| up_state := initial_session;
                 up_s3 := {| client_available := true; bucket_name := "bucket";
                             objects := [] |};
                 up_shown := [] |}))).
Proof.
  refine (uploaded_files_are_listed "s3://bucket/docs" "docs"
            [ {| file_name := "a.txt"; getvalue := [Byte.x68; Byte.x69] |} ]
            {| up_state := initial_session;
               up_s3 := {| client_available := true; bucket_name := "bucket";
                           objects := [] |};
               up_shown := [] |}
            eq_refl eq_refl _ _
            {| file_name := "a.txt"; getvalue := [Byte.x68; Byte.x69] |} _).
  - intros f [<-|[]]. split; [discriminate | reflexivity].
  - repeat constructor. intros [].
  - now left.
Defined.

(** ** Login *)

Lemma compare_digest_ascii (a b : string) :
  is_ascii a = true -> is_ascii b = true ->
  compare_digest a b = Ok (String.eqb a b).
Proof. intros Ha Hb. unfold compare_digest. now rewrite Ha, Hb. Qed.

(** X9: the login accepts exactly the configured credentials.  For
    ASCII inputs and ASCII secrets the callback returns normally;
    [check_password] then lets the script go on iff the user name and the
    password both equal the secrets; on acceptance both inputs are
    deleted from the session state and nothing is shown; on rejection
    both stay in the session state, [password_correct] is [False] and the
    error is shown; and after "Logout" [check_password] fails again. *)
Theorem login_accepts_exact_credentials (sec : secrets) (u p : string)
        (st : login_state) :
  is_ascii u = true ->
  is_ascii p = true ->
  is_ascii (auth_username sec) = true ->
  is_ascii (auth_password sec) = true ->
  let '(r, st', msgs) := submit_login sec u p st in
  r = Ok tt
  /\ (fst (check_password st') = true
      <-> u = auth_username sec /\ p = auth_password sec)
  /\ (fst (check_password st') = true ->
      username st' = None /\ password st' = None /\ msgs = [])
  /\ (fst (check_password st') = false ->
      username st' = Some u /\ password st' = Some p
      /\ password_correct st' = Some false /\ msgs = [IncorrectCredentials])
  /\ fst (check_password (logout st')) = false.
Proof.
  intros Hu Hp Hsu Hsp. unfold submit_login, password_entered.
  cbn [username password password_correct].
  rewrite (compare_digest_ascii _ _ Hu Hsu), (compare_digest_ascii _ _ Hp Hsp).
  destruct (String.eqb_spec u (auth_username sec)) as [Eu|Eu];
    [destruct (String.eqb_spec p (auth_password sec)) as [Ep|Ep]|];
    cbn; repeat split; auto; try discriminate; intros [? ?]; contradiction.
Qed.

Lemma login_accepts_exact_credentials_witness :
  fst (check_password
         (snd (fst (submit_login
                      {| auth_username := "admin"; auth_password := "s3cret" |}
                      "admin" "s3cret"
                      {| username := None; password := None;
                         password_correct := None |}))))
  = true.
Proof.
  pose proof (login_accepts_exact_credentials
                {| auth_username := "admin"; auth_password := "s3cret" |}
                "admin" "s3cret"
                {| username := None; password := None; password_correct := None |}
                eq_refl eq_refl eq_refl eq_refl) as H.
  destruct (submit_login _ _ _ _) as [[r st'] msgs].
  destruct H as (_ & H & _). apply H. split; reflexivity.
Defined.

(** X10: non-ASCII text at the login.  A user name compared with
    non-ASCII text on either side makes the callback raise [TypeError],
    leaving [password_correct] as it was and showing nothing; so does,
    once the user name matched, a password comparison with non-ASCII
    text on either side; but an ASCII user name that is wrong is rejected
    without the password being looked at. *)
Theorem non_ascii_login_raises (sec : secrets) (u p : string) (st : login_state) :
  let entered := {| username := Some u; password := Some p;
                    password_correct := password_correct st |} in
  (is_ascii u && is_ascii (auth_username sec) = false ->
   submit_login sec u p st = (Raise TypeError, entered, []))
  /\ (is_ascii u = true -> u = auth_username sec ->
      is_ascii p && is_ascii (auth_password sec) = false ->
      submit_login sec u p st = (Raise TypeError, entered, []))
  /\ (is_ascii u = true -> is_ascii (auth_username sec) = true ->
      u <> auth_username sec ->
      submit_login sec u p st = reject entered).
Proof.
  cbv zeta. unfold submit_login, password_entered, compare_digest.
  cbn [username password password_correct]. split; [|split].
  - intros ->. reflexivity.
  - intros Hu <- Hp. rewrite Hu, String.eqb_refl, Hp. reflexivity.
  - intros Hu Hsu Hne. rewrite Hu, Hsu. cbn [andb].
    apply String.eqb_neq in Hne. now rewrite Hne.
Qed.

(** ** Requests per script run *)

Lemma auto_poll_with_bound E max w :
  let r := auto_poll_with E max w in
  posted (snd r) = posted w
  /\ exists n, n <= max
               /\ polled (snd r) = polled w ++ repeat (kickoff_id (state w)) n.
Proof.
  cbv zeta. unfold auto_poll_with. unfold bind at 1 3.
  destruct (auto_poll_loop_summary E max 0 w) as (_ & Hp & n & Hn & Hq).
  destruct (auto_poll_loop E max 0 w) as [[[complete attempts]|e] w'];
    cbn [fst snd] in *.
  - destruct ((max <=? attempts) && negb complete); cbn;
      (split; [exact Hp | exists n; split; [exact Hn | exact Hq]]).
  - split; [exact Hp | exists n; split; [exact Hn | exact Hq]].
Qed.

Lemma status_section_bound E refresh_clicked w :
  let r := status_section E refresh_clicked w in
  posted (snd r) = posted w
  /\ exists n, n <= (if refresh_clicked then 1 else 0) + max_attempts
               /\ polled (snd r) = polled w ++ repeat (kickoff_id (state w)) n.
Proof.
  cbv zeta. unfold status_section.
  rewrite bind_gets.
  destruct (truthy (kickoff_id (state w))) eqn:Ht.
  2: { cbn. split; [reflexivity|]. exists 0. split; [lia | now rewrite app_nil_r]. }
  rewrite bind_show. set (w0 := snd (show (InProgress (kickoff_id (state w))) w)).
  assert (Hrefresh : exists res w1 n1,
             when refresh_clicked (refresh_status E) w0 = (res, w1)
             /\ n1 <= (if refresh_clicked then 1 else 0)
             /\ kickoff_id (state w1) = kickoff_id (state w)
             /\ posted w1 = posted w
             /\ polled w1 = polled w ++ repeat (kickoff_id (state w)) n1).
  { destruct refresh_clicked; cbn [when].
    - destruct (refresh_status_summary E w0) as (Hs & Hp & Hq).
      destruct (refresh_status E w0) as [res w1] eqn:Hr. cbn [snd] in *.
      exists res, w1, 1. repeat split; auto.
      destruct Hs as [-> | ->]; reflexivity.
    - exists (Ok tt), w0, 0. cbn. rewrite app_nil_r. repeat split; auto. }
  destruct Hrefresh as (res & w1 & n1 & Hr & Hn1 & Hk1 & Hp1 & Hq1).
  destruct res as [[]|e].
  2: { rewrite (bind_raise _ _ _ _ _ Hr). cbn [snd].
       split; [exact Hp1|]. exists n1. split; [lia | exact Hq1]. }
  rewrite (bind_ok _ _ _ _ _ Hr).
  rewrite bind_gets.
  destruct (processing (state w1)); cbn [when].
  - destruct (auto_poll_with_bound E max_attempts w1) as (Hp2 & n2 & Hn2 & Hq2).
    fold (auto_poll E) in Hp2, Hq2.
    rewrite Hp2, Hq2, Hq1, Hp1, Hk1. split; [reflexivity|].
    exists (n1 + n2). rewrite repeat_app, app_assoc. split; [lia | reflexivity].
  - cbn. split; [exact Hp1|]. exists n1. split; [lia | exact Hq1].
Qed.

Lemma tab2_requests E process_clicked refresh_clicked s :
  let w := snd (run (tab2 E process_clicked refresh_clicked) s) in
  posted w = (if process_clicked then [bulk_input_data] else [])
  /\ exists n v, n <= (if refresh_clicked then 1 else 0) + max_attempts
                 /\ polled w = repeat v n.
Proof.
  cbv zeta. unfold run, tab2.
  assert (Hsec : forall w0,
            polled w0 = [] ->
            posted (snd (status_section E refresh_clicked w0)) = posted w0
            /\ exists n v, n <= (if refresh_clicked then 1 else 0) + max_attempts
                           /\ polled (snd (status_section E refresh_clicked w0))
                              = repeat v n).
  { intros w0 H0. destruct (status_section_bound E refresh_clicked w0)
      as (Hp & n & Hn & Hq).
    split; [exact Hp|]. exists n, (kickoff_id (state w0)).
    rewrite Hq, H0. auto. }
  destruct process_clicked; cbn [when].
  - destruct (reply_kickoff_id (kickoff_reply E)) as [v|] eqn:Hk.
    + pose proof (process_all_started E s v Hk) as Hrun. unfold run in Hrun.
      rewrite (bind_ok _ _ _ _ _ Hrun).
      match goal with |- context [status_section E refresh_clicked ?x] =>
        destruct (Hsec x eq_refl) as [Hp Hq] end.
      rewrite Hp. split; [reflexivity | exact Hq].
    + destruct (process_all_not_started E Hk) as (res & l & b & Heq & _).
      specialize (Heq s). unfold run in Heq. destruct res as [[]|e].
      * rewrite (bind_ok _ _ _ _ _ Heq).
        match goal with |- context [status_section E refresh_clicked ?x] =>
          destruct (Hsec x eq_refl) as [Hp Hq] end.
        rewrite Hp. split; [reflexivity | exact Hq].
      * rewrite (bind_raise _ _ _ _ _ Heq). cbn [snd posted polled].
        split; [reflexivity|]. exists 0, JNull. split; [lia | reflexivity].
  - rewrite bind_ret. destruct (Hsec (initial_world s) eq_refl) as [Hp Hq].
    rewrite Hp. split; [reflexivity | exact Hq].
Qed.

Lemma tab3_requests E msg send_clicked clear_clicked s :
  let w := snd (run (tab3 E msg send_clicked clear_clicked) s) in
  List.length (posted w) <= 1
  /\ exists n v, n <= max_retries /\ polled w = repeat v n.
Proof.
  cbv zeta.
  destruct (tab3_cases E msg send_clicked clear_clicked s) as [-> | ->].
  - destruct (chat_turn_summary E 119 msg
                (if send_clicked then set_submit_clicked true s else s))
      as (_ & _ & _ & _ & Hposted & (k & Hk & Hle & _) & _).
    change (chat_turn_with E 120 msg) with (chat_turn E msg) in *.
    rewrite Hposted. split; [cbn; lia|].
    exists k, (body_of (reply_kickoff_id (kickoff_reply E))). split; [exact Hle | exact Hk].
  - destruct clear_clicked; cbn; (split; [lia|]); exists 0, JNull;
      (split; [lia | reflexivity]).
Qed.

(** X11: the requests of one script run, whatever the replies.  A run
    of tab 2 POSTs the one fixed body iff "Process All Documents" was
    clicked, and makes at most 30 status calls, 31 when "Refresh Status"
    was clicked, all for one id; a run of tab 3 POSTs at most once and
    makes at most 120 status calls, all for one id. *)
Theorem requests_per_run (E : env) (s : session) :
  (forall process_clicked refresh_clicked,
      let w := snd (run (tab2 E process_clicked refresh_clicked) s) in
      posted w = (if process_clicked then [bulk_input_data] else [])
      /\ exists n v, n <= (if refresh_clicked then 31 else 30)
                     /\ polled w = repeat v n)
  /\ (forall user_input send_clicked clear_clicked,
         let w := snd (run (tab3 E user_input send_clicked clear_clicked) s) in
         List.length (posted w) <= 1
         /\ exists n v, n <= 120 /\ polled w = repeat v n).
Proof.
  split.
  - intros pc rc. cbv zeta.
    destruct (tab2_requests E pc rc s) as (Hp & n & v & Hn & Hq).
    split; [exact Hp|]. exists n, v. split; [|exact Hq].
    destruct rc; exact Hn.
  - intros msg sc cc. exact (tab3_requests E msg sc cc s).
Qed.

(** ** Reruns *)

(** X12: a rerun of tab 2 without a click.  When [processing] is off
    it makes no request, leaves the session as it is and shows only the
    status line; so it does when no truthy kickoff id is stored, whatever
    [processing] is; when [processing] is on and the stored id is truthy
    it polls again, starting with that id. *)
Theorem idle_rerun_of_tab2 (E : env) (s : session) :
  (processing s = false ->
   run (tab2 E false false) s
   = (Ok tt,
      {| state := s; posted := []; polled := [];
         shown := [if truthy (kickoff_id s)
                   then InProgress (kickoff_id s) else NoProcessingYet] |}))
  /\ (truthy (kickoff_id s) = false ->
      run (tab2 E false false) s
      = (Ok tt,
         {| state := s; posted := []; polled := []; shown := [NoProcessingYet] |}))
  /\ (processing s = true -> truthy (kickoff_id s) = true ->
      exists l, polled (snd (run (tab2 E false false) s)) = kickoff_id s :: l).
Proof.
  unfold run, tab2. cbn [when]. rewrite bind_ret. unfold status_section.
  rewrite bind_gets. cbn [initial_world state].
  split; [|split].
  - intro Hp. destruct (truthy (kickoff_id s)); [|reflexivity].
    rewrite bind_show. cbn [when]. rewrite bind_ret, bind_gets.
    cbn [show snd state initial_world]. rewrite Hp. reflexivity.
  - intros ->. reflexivity.
  - intros Hp Ht. rewrite Ht, bind_show. cbn [when]. rewrite bind_ret, bind_gets.
    cbn [show snd state initial_world]. rewrite Hp. cbn [when].
    change (auto_poll E) with (auto_poll_with E (S 29)).
    match goal with |- context [auto_poll_with E (S 29) ?x] =>
      destruct (auto_poll_with_first E 29 x) as [l Hl] end.
    exists l. exact Hl.
Qed.

(** X13: a message is sent once.  A run of tab 3 with no button
    clicked does nothing unless the submit flag is set; and after a run
    with "Send", however its turn ended, the flag is [False], so the
    next run without a click sends nothing, changes nothing and shows
    nothing, whatever text the input holds. *)
Theorem chat_turn_is_not_repeated (E : env) (s : session) (user_input : string) :
  (_submit_clicked s <> Some true ->
   run (tab3 E user_input false false) s = (Ok tt, initial_world s))
  /\ (forall E0 sent clear_clicked,
         let s' := state (snd (run (tab3 E0 sent true clear_clicked) s)) in
         _submit_clicked s' = Some false
         /\ run (tab3 E user_input false false) s' = (Ok tt, initial_world s')).
Proof.
  assert (Hquiet : forall s0, _submit_clicked s0 <> Some true ->
                              run (tab3 E user_input false false) s0
                              = (Ok tt, initial_world s0)).
  { intros s0 Hflag. unfold run, tab3. cbn [when]. rewrite bind_ret, bind_gets.
    cbn [initial_world state orb].
    destruct (_submit_clicked s0) as [[|]|]; [now elim Hflag | | ];
      rewrite andb_false_r; reflexivity. }
  split; [apply Hquiet|].
  intros E0 sent clear_clicked. cbv zeta.
  assert (Hflag : _submit_clicked
                    (state (snd (run (tab3 E0 sent true clear_clicked) s)))
                  = Some false).
  { replace (run (tab3 E0 sent true clear_clicked) s)
      with (run (chat_turn E0 sent) (set_submit_clicked true s)) by reflexivity.
    destruct (chat_turn_summary E0 119 sent (set_submit_clicked true s))
      as (_ & _ & _ & H & _).
    exact H. }
  split; [exact Hflag|]. apply Hquiet. rewrite Hflag. discriminate.
Qed.

(** ** The transcript *)

(** X14: "Send" does not check the input.  With "Send" clicked a turn
    runs whatever the text, also when "Clear Chat" is clicked too: the
    one kickoff body carries the text, the transcript gets the user's
    message; in particular an empty input is POSTed as the empty
    [current_message]. *)
Theorem send_does_not_check_the_input (E : env) (s : session)
        (user_input : string) (clear_clicked : bool) :
  let r := run (tab3 E user_input true clear_clicked) s in
  posted (snd r) = [chat_input_data (chat_id s) user_input]
  /\ (exists l, chat_messages (state (snd r))
                = chat_messages s ++ user_message user_input :: l)
  /\ (user_input = "" ->
      posted (snd r)
      = [JObj [("inputs",
                JObj (("current_message", JStr "")
                        :: if is_None (chat_id s) then [] else [("id", chat_id s)]))]]).
Proof.
  cbv zeta.
  replace (run (tab3 E user_input true clear_clicked) s)
    with (run (chat_turn_with E 120 user_input) (set_submit_clicked true s))
    by reflexivity.
  destruct (chat_turn_summary E 119 user_input (set_submit_clicked true s))
    as (_ & _ & _ & _ & Hposted & _ & Hmsgs).
  cbn [chat_id chat_messages set_submit_clicked] in Hposted, Hmsgs.
  split; [exact Hposted|]. split.
  - destruct Hmsgs as [(-> & _) | (rd & _ & _ & -> & _)]; now eexists.
  - intros ->. rewrite Hposted. unfold chat_input_data.
    destruct (is_None (chat_id s)); reflexivity.
Qed.

(** X15: over any number of turns the transcript only grows.  After
    the turns the transcript is the old one followed by a tail whose user
    messages are the texts sent, in order, one for each turn; each turn
    adds at most two messages and POSTs exactly one kickoff body. *)
Theorem transcript_grows_by_turns (turns : list (env * string)) (s : session) :
  exists tail,
    chat_messages (fst (chat_turns turns s)) = chat_messages s ++ tail
    /\ filter (fun m => match msg_role m with user => true | assistant => false end)
              tail
       = map (fun t => user_message (snd t)) turns
    /\ List.length tail <= 2 * List.length turns
    /\ List.length (snd (chat_turns turns s)) = List.length turns.
Proof.
  revert s. induction turns as [|[E msg] rest IH]; intro s; cbn [chat_turns].
  - exists []. cbn. rewrite app_nil_r. auto.
  - destruct (chat_turn_summary E 119 msg s)
      as (_ & _ & _ & _ & Hposted & _ & Hmsgs).
    change (chat_turn_with E 120 msg) with (chat_turn E msg) in *.
    destruct (IH (state (snd (run (chat_turn E msg) s))))
      as (tail & Ht & Hu & Hlen & Hp).
    destruct (chat_turns rest (state (snd (run (chat_turn E msg) s))))
      as [s' bodies].
    cbn [fst snd] in *. rewrite Hposted.
    destruct Hmsgs as [(Hm & _) | (rd & _ & _ & Hm & _)]; rewrite Hm in Ht.
    + exists (user_message msg :: tail). rewrite Ht, <- app_assoc.
      split; [reflexivity|]. cbn [filter user_message msg_role map snd].
      rewrite Hu. split; [reflexivity|]. cbn [List.length app]. split; lia.
    + exists (user_message msg :: assistant_message (response_of rd) :: tail).
      rewrite Ht, <- app_assoc. split; [reflexivity|].
      cbn [filter user_message assistant_message msg_role map snd].
      rewrite Hu. split; [reflexivity|]. cbn [List.length app]. split; lia.
Qed.

(** ** Refresh Status *)

Lemma refresh_status_run (E : env) (s : session) :
  run (refresh_status E) s
  = (let status_data := body_of (status_reply E 0) in
     if truthy status_data then
       (current_state <- py_get status_data "state" (JStr "UNKNOWN") ;;
        show (CurrentState current_state) ;;
        when (eq_str current_state "SUCCESS")
             (show Done ;; modify (set_processing false)))
         (after_call E (kickoff_id s) (initial_world s))
     else show StatusFailed (after_call E (kickoff_id s) (initial_world s))).
Proof.
  unfold run, refresh_status. rewrite bind_gets.
  rewrite (bind_ok _ _ _ _ _ (api_request_status_eq E _ (initial_world s))).
  cbn [initial_world state polled List.length].
  now destruct (truthy (body_of (status_reply E 0))).
Qed.

(** X16: "Refresh Status" makes one status call, for the stored id,
    and no POST.  On a non-empty object the state is shown, and
    [processing] is cleared, with DONE shown, iff the state is SUCCESS
    (so FAILURE leaves [processing] on); on a failed call or a falsy
    body the session is unchanged and the failure is shown. *)
Theorem refresh_status_makes_one_call (E : env) (s : session) :
  let r := run (refresh_status E) s in
  posted (snd r) = []
  /\ polled (snd r) = [kickoff_id s]
  /\ (forall d,
         status_reply E 0 = Some (JObj d) -> d <> [] ->
         fst r = Ok tt
         /\ state (snd r)
            = (if eq_str (bulk_state (status_reply E 0)) "SUCCESS"
               then set_processing false s else s)
         /\ shown (snd r)
            = CurrentState (bulk_state (status_reply E 0))
                :: (if eq_str (bulk_state (status_reply E 0)) "SUCCESS"
                    then [Done] else []))
  /\ (truthy (body_of (status_reply E 0)) = false ->
      fst r = Ok tt
      /\ state (snd r) = s
      /\ shown (snd r) = note_failed (status_reply E 0) ++ [StatusFailed]).
Proof.
  cbv zeta.
  destruct (refresh_status_summary E (initial_world s)) as (_ & Hp & Hq).
  fold (run (refresh_status E) s) in Hp, Hq.
  split; [exact Hp|]. split; [exact Hq|].
  rewrite refresh_status_run. cbv zeta. split.
  - intros d Hd Hne. rewrite Hd. cbn [body_of truthy bulk_state].
    destruct d as [|kv d]; [contradiction|]. cbn [py_get]. rewrite bind_ret, bind_show.
    destruct (eq_str _ "SUCCESS"); cbn; rewrite Hd; repeat split; reflexivity.
  - intros ->. cbn. repeat split; reflexivity.
Qed.

Lemma refresh_status_success (E : env) (w : world) (d : dict) :
  status_reply E (List.length (polled w)) = Some (JObj d) ->
  dict_get d "state" = Some (JStr "SUCCESS") ->
  refresh_status E w
  = (Ok tt,
     {| state := set_processing false (state w);
        posted := posted w;
        polled := polled w ++ [kickoff_id (state w)];
        shown := shown w ++ [CurrentState (JStr "SUCCESS"); Done] |}).
Proof.
  intros Hd Hst. unfold refresh_status. rewrite bind_gets.
  rewrite (bind_ok _ _ _ _ _ (api_request_status_eq E _ w)).
  unfold after_call. rewrite Hd. cbn [body_of truthy note_failed].
  destruct d as [|kv d]; [discriminate|]. cbn [py_get]. rewrite Hst.
  rewrite bind_ret, bind_show. cbn. now rewrite app_nil_r, <- app_assoc.
Qed.

(** X17: a refresh that sees SUCCESS ends the job in that run.  With a
    truthy stored id and a first status reply whose state is SUCCESS, the
    status section with "Refresh Status" clicked makes that one call,
    clears [processing] and shows DONE; the auto-poll loop does not run,
    whatever [processing] was. *)
Theorem refresh_that_sees_success (E : env) (s : session) (d : dict) :
  truthy (kickoff_id s) = true ->
  status_reply E 0 = Some (JObj d) ->
  dict_get d "state" = Some (JStr "SUCCESS") ->
  run (status_section E true) s
  = (Ok tt,
     {| state := set_processing false s;
        posted := [];
        polled := [kickoff_id s];
        shown := [InProgress (kickoff_id s); CurrentState (JStr "SUCCESS"); Done] |}).
Proof.
  intros Ht Hd Hst. unfold run, status_section. rewrite bind_gets.
  cbn [initial_world state]. rewrite Ht, bind_show. cbn [when].
  match goal with |- context [bind (refresh_status E) _ ?x] => set (w0 := x) end.
  rewrite (bind_ok _ _ _ _ _ (refresh_status_success E w0 d Hd Hst)).
  reflexivity.
Qed.

Lemma refresh_that_sees_success_witness :
  polled (snd (run (status_section (sample_env kickoff_k1 success_blank) true)
                   processing_session))
  = [JStr "k1"].
Proof.
  rewrite (refresh_that_sees_success (sample_env kickoff_k1 success_blank)
             processing_session
             [("state", JStr "SUCCESS"); ("result", JStr "{}")]
             eq_refl eq_refl eq_refl).
  reflexivity.
Defined.

(** ** Failures of the S3 calls *)

(** X18: [save_to_s3] fails quietly.  It returns a URI iff a client
    could be created, the URI names the service's bucket and the key is
    not empty, and then shows nothing; otherwise it returns [None],
    leaves the service as it was and shows the save error, preceded by
    the client error when no client could be created. *)
Theorem save_to_s3_failure (S : s3_service) (file_content : list Byte.byte)
        (file_name s3_folder_uri : string) :
  let '(saved, S', msgs) := save_to_s3 S file_content file_name s3_folder_uri in
  let '(bucket, prefix) := parse_s3_uri s3_folder_uri in
  (saved <> None
   <-> client_available S = true
       /\ bucket = bucket_name S
       /\ (normalize_prefix prefix ++ file_name)%string <> "")
  /\ (saved <> None -> msgs = [])
  /\ (saved = None ->
      S' = S
      /\ msgs = (if client_available S then [] else [ErrorCreatingClient])
                ++ [ErrorSavingFile]).
Proof.
  unfold save_to_s3, get_s3_client, put_object.
  destruct (parse_s3_uri s3_folder_uri) as [bucket prefix].
  destruct (client_available S).
  - destruct (String.eqb_spec bucket (bucket_name S)) as [Hb|Hb];
      [destruct (String.eqb_spec (normalize_prefix prefix ++ file_name) "") as [Hk|Hk]|];
      cbn [andb negb]; (split; [split|split]); try discriminate; auto;
      try (intros (_ & ? & ?); contradiction); try (intro H; now elim H).
  - split; [split|split]; try discriminate; auto;
      try (intros (? & _); discriminate); try (intro H; now elim H).
Qed.

(** X19: a failed listing looks like an empty folder.  When the client
    cannot be created or the listing call raises, [list_s3_files]
    returns the empty list, and a run of tab 1 without an upload shows
    the listing error followed by "No documents found", before the hint
    shown whenever files are selected; service and session are
    unchanged. *)
Theorem failed_listing_looks_empty (S3_URI : string)
        (uploaded_files : list uploaded_file) (w : upload_world) :
  service_client (up_s3 w) (fst (parse_s3_uri S3_URI))
                 (normalize_prefix (snd (parse_s3_uri S3_URI))) = None ->
  list_s3_files (service_client (up_s3 w)) S3_URI = []
  /\ exists errors,
       snd (list_s3_files_shown (up_s3 w) S3_URI) = errors ++ [ErrorListingFiles]
       /\ up_shown (tab1 S3_URI uploaded_files false w)
          = up_shown w ++ errors ++ [ErrorListingFiles; NoDocumentsFound]
            ++ (match uploaded_files with [] => [] | _ :: _ => [UploadedHint] end)
       /\ up_s3 (tab1 S3_URI uploaded_files false w) = up_s3 w
       /\ up_state (tab1 S3_URI uploaded_files false w) = up_state w.
Proof.
  intro Hfail. unfold list_s3_files, tab1, list_s3_files_shown, get_s3_client.
  rewrite andb_false_r.
  destruct (parse_s3_uri S3_URI) as [bucket prefix]. cbn [fst snd] in Hfail.
  rewrite Hfail. split; [reflexivity|].
  destruct (client_available (up_s3 w)) eqn:Ha.
  - rewrite Hfail. exists []. cbn [snd up_shown up_s3 up_state app].
    repeat split. now destruct uploaded_files.
  - exists [ErrorCreatingClient]. cbn [snd up_shown up_s3 up_state app].
    repeat split. now destruct uploaded_files.
Qed.

Lemma failed_listing_looks_empty_witness :
  list_s3_files
    (service_client {| client_available := true; bucket_name := "bucket";
                       objects := docs_store |})
    "s3://other/docs"
  = [].
Proof.
  exact (proj1 (failed_listing_looks_empty "s3://other/docs" []
                  {| up_state := initial_session;
                     up_s3 := {| client_available := true; bucket_name := "bucket";
                                 objects := docs_store |};
                     up_shown := [] |}
                  eq_refl)).
Defined.
